(** * Expert Tool ICS: the screen / mode state machine of [expert_tool_ics.c]

    A shallow embedding of the application's event loop, its mode
    controller, the countdown and indicator timers and the hardware
    abstraction calls they issue, followed by the properties of the
    design document, each settled against this embedding. *)

From Stdlib Require Import ZArith List String Bool Lia DecimalString.
Import ListNotations.
Open Scope Z_scope.

(** ** Machine integers

    [uint8_t] and [uint32_t] values are kept in [Z]; every place where the
    C code narrows or can wrap is written out with [u8] or [u32]. *)

Definition u8 (x : Z) : Z := x mod 256.
Definition u32 (x : Z) : Z := x mod 2 ^ 32.

(** ** Layout constants (the anonymous [enum]) *)

Definition CANVAS_W : Z := 128.
Definition CANVAS_H : Z := 64.

(** ** Inverter profiles and the mode table *)

Inductive InverterId := InvEmbraco | InvSamsung.

Definition InverterId_eqb (a b : InverterId) : bool :=
  match a, b with
  | InvEmbraco, InvEmbraco | InvSamsung, InvSamsung => true
  | _, _ => false
  end.

Record Mode := {
  name : string;
  freq_hz : Z;
  led_blink_hz : Z;
  default_secs : Z
}.

Definition kModes : list Mode := [
  {| name := "Stand by";  freq_hz := 0;   led_blink_hz := 0; default_secs := 0   |};
  {| name := "Low speed"; freq_hz := 55;  led_blink_hz := 1; default_secs := 120 |};
  {| name := "Mid speed"; freq_hz := 100; led_blink_hz := 2; default_secs := 60  |};
  {| name := "Max speed"; freq_hz := 160; led_blink_hz := 4; default_secs := 30  |}
].

Definition MODE_COUNT : Z := Z.of_nat (List.length kModes).

(** [kModes[idx]].  The C code only indexes the table below [MODE_COUNT];
    the default entry stands for the out-of-bounds reads it never makes. *)
Definition mode_at (idx : Z) : Mode :=
  nth (Z.to_nat idx) kModes
      {| name := ""; freq_hz := 0; led_blink_hz := 0; default_secs := 0 |}.

(** ** Help text *)

Definition HELP_EMBRACO : list string := [
  "Connect wires as follows:";
  "";
  "2 (A7)    -> inverter +";
  "(usually RED wire)";
  "8 (GND)  -> inverter -";
  "(usually WHITE wire)";
  "";
  "Note:";
  "This app provides";
  "3 test speeds:";
  "";
  "Low speed:";
  "2000 RPM (VNE)";
  "1800 RPM (VEG, FMF)";
  "";
  "Mid speed:";
  "3000 RPM";
  "(VNE, VEG, FMF)";
  "";
  "Max speed:";
  "4500 RPM";
  "(VNE, VEG, FMF)";
  "";
  "Embraco compressors";
  "support many speeds";
  "with 30 RPM steps.";
  "";
  "----------------";
  "";
  "App created by";
  "Adam Gray";
  "Founder of";
  "Expert Hub";
  "experthub.app";
  "";
  "----------------";
  "";
  "Press BACK to start."
]%string.

Definition HELP_SAMSUNG : list string := [ "In development" ]%string.

Definition HELP_EMBRACO_COUNT : Z := Z.of_nat (List.length HELP_EMBRACO).
Definition HELP_SAMSUNG_COUNT : Z := Z.of_nat (List.length HELP_SAMSUNG).

(** ** Screens, timers, application state *)

Inductive ScreenId :=
  ScreenSelectInverter | ScreenMenu | ScreenHelp | ScreenSettings.

Inductive FuriTimerType := FuriTimerTypeOnce | FuriTimerTypePeriodic.

(** The four callbacks a timer of this application can be created with;
    each also names the [AppState] field that holds the timer. *)
Inductive Callback := CbLed | CbHint | CbTick | CbOff.

(** A [FuriTimer] object: its type and callback as given to
    [furi_timer_alloc], and the delay (milliseconds, the argument handed to
    [furi_ms_to_ticks]) it is currently running with, if it is running. *)
Record FuriTimer := {
  t_type : FuriTimerType;
  t_cb : Callback;
  t_armed : option Z
}.

(** [AppState] without the three GUI handles ([gui], [vp], [q]), which only
    the rendering and queue plumbing use.  A timer pointer is an
    [option]: [None] is [NULL].  [notif] is [true] when the notification
    handle is not [NULL]. *)
Record AppState := {
  screen : ScreenId;
  inverter : InverterId;
  powered : bool;
  cursor : Z;
  first_visible : Z;
  active : Z;
  help_top_line : Z;
  limit_runtime : bool;
  arrow_captcha : bool;
  notif : bool;
  led_timer : option FuriTimer;
  led_on : bool;
  pwm_running : bool;
  hint_visible : bool;
  hint_timer : option FuriTimer;
  tick_timer : option FuriTimer;
  off_timer : option FuriTimer;
  remaining_ms : Z;
  timeout_expired : bool
}.

Definition set_screen (v : ScreenId) (s : AppState) : AppState :=
  {| screen := v; inverter := inverter s; powered := powered s; cursor := cursor s;
     first_visible := first_visible s; active := active s;
     help_top_line := help_top_line s; limit_runtime := limit_runtime s;
     arrow_captcha := arrow_captcha s; notif := notif s; led_timer := led_timer s;
     led_on := led_on s; pwm_running := pwm_running s; hint_visible := hint_visible s;
     hint_timer := hint_timer s; tick_timer := tick_timer s; off_timer := off_timer s;
     remaining_ms := remaining_ms s; timeout_expired := timeout_expired s |}.

Definition set_inverter (v : InverterId) (s : AppState) : AppState :=
  {| screen := screen s; inverter := v; powered := powered s; cursor := cursor s;
     first_visible := first_visible s; active := active s;
     help_top_line := help_top_line s; limit_runtime := limit_runtime s;
     arrow_captcha := arrow_captcha s; notif := notif s; led_timer := led_timer s;
     led_on := led_on s; pwm_running := pwm_running s; hint_visible := hint_visible s;
     hint_timer := hint_timer s; tick_timer := tick_timer s; off_timer := off_timer s;
     remaining_ms := remaining_ms s; timeout_expired := timeout_expired s |}.

Definition set_powered (v : bool) (s : AppState) : AppState :=
  {| screen := screen s; inverter := inverter s; powered := v; cursor := cursor s;
     first_visible := first_visible s; active := active s;
     help_top_line := help_top_line s; limit_runtime := limit_runtime s;
     arrow_captcha := arrow_captcha s; notif := notif s; led_timer := led_timer s;
     led_on := led_on s; pwm_running := pwm_running s; hint_visible := hint_visible s;
     hint_timer := hint_timer s; tick_timer := tick_timer s; off_timer := off_timer s;
     remaining_ms := remaining_ms s; timeout_expired := timeout_expired s |}.

Definition set_cursor (v : Z) (s : AppState) : AppState :=
  {| screen := screen s; inverter := inverter s; powered := powered s; cursor := v;
     first_visible := first_visible s; active := active s;
     help_top_line := help_top_line s; limit_runtime := limit_runtime s;
     arrow_captcha := arrow_captcha s; notif := notif s; led_timer := led_timer s;
     led_on := led_on s; pwm_running := pwm_running s; hint_visible := hint_visible s;
     hint_timer := hint_timer s; tick_timer := tick_timer s; off_timer := off_timer s;
     remaining_ms := remaining_ms s; timeout_expired := timeout_expired s |}.

Definition set_first_visible (v : Z) (s : AppState) : AppState :=
  {| screen := screen s; inverter := inverter s; powered := powered s;
     cursor := cursor s; first_visible := v; active := active s;
     help_top_line := help_top_line s; limit_runtime := limit_runtime s;
     arrow_captcha := arrow_captcha s; notif := notif s; led_timer := led_timer s;
     led_on := led_on s; pwm_running := pwm_running s; hint_visible := hint_visible s;
     hint_timer := hint_timer s; tick_timer := tick_timer s; off_timer := off_timer s;
     remaining_ms := remaining_ms s; timeout_expired := timeout_expired s |}.

Definition set_active (v : Z) (s : AppState) : AppState :=
  {| screen := screen s; inverter := inverter s; powered := powered s;
     cursor := cursor s; first_visible := first_visible s; active := v;
     help_top_line := help_top_line s; limit_runtime := limit_runtime s;
     arrow_captcha := arrow_captcha s; notif := notif s; led_timer := led_timer s;
     led_on := led_on s; pwm_running := pwm_running s; hint_visible := hint_visible s;
     hint_timer := hint_timer s; tick_timer := tick_timer s; off_timer := off_timer s;
     remaining_ms := remaining_ms s; timeout_expired := timeout_expired s |}.

Definition set_help_top_line (v : Z) (s : AppState) : AppState :=
  {| screen := screen s; inverter := inverter s; powered := powered s;
     cursor := cursor s; first_visible := first_visible s; active := active s;
     help_top_line := v; limit_runtime := limit_runtime s;
     arrow_captcha := arrow_captcha s; notif := notif s; led_timer := led_timer s;
     led_on := led_on s; pwm_running := pwm_running s; hint_visible := hint_visible s;
     hint_timer := hint_timer s; tick_timer := tick_timer s; off_timer := off_timer s;
     remaining_ms := remaining_ms s; timeout_expired := timeout_expired s |}.

Definition set_limit_runtime (v : bool) (s : AppState) : AppState :=
  {| screen := screen s; inverter := inverter s; powered := powered s;
     cursor := cursor s; first_visible := first_visible s; active := active s;
     help_top_line := help_top_line s; limit_runtime := v;
     arrow_captcha := arrow_captcha s; notif := notif s; led_timer := led_timer s;
     led_on := led_on s; pwm_running := pwm_running s; hint_visible := hint_visible s;
     hint_timer := hint_timer s; tick_timer := tick_timer s; off_timer := off_timer s;
     remaining_ms := remaining_ms s; timeout_expired := timeout_expired s |}.

Definition set_arrow_captcha (v : bool) (s : AppState) : AppState :=
  {| screen := screen s; inverter := inverter s; powered := powered s;
     cursor := cursor s; first_visible := first_visible s; active := active s;
     help_top_line := help_top_line s; limit_runtime := limit_runtime s;
     arrow_captcha := v; notif := notif s; led_timer := led_timer s; led_on := led_on s;
     pwm_running := pwm_running s; hint_visible := hint_visible s;
     hint_timer := hint_timer s; tick_timer := tick_timer s; off_timer := off_timer s;
     remaining_ms := remaining_ms s; timeout_expired := timeout_expired s |}.

Definition set_led_timer (v : option FuriTimer) (s : AppState) : AppState :=
  {| screen := screen s; inverter := inverter s; powered := powered s;
     cursor := cursor s; first_visible := first_visible s; active := active s;
     help_top_line := help_top_line s; limit_runtime := limit_runtime s;
     arrow_captcha := arrow_captcha s; notif := notif s; led_timer := v;
     led_on := led_on s; pwm_running := pwm_running s; hint_visible := hint_visible s;
     hint_timer := hint_timer s; tick_timer := tick_timer s; off_timer := off_timer s;
     remaining_ms := remaining_ms s; timeout_expired := timeout_expired s |}.

Definition set_led_on (v : bool) (s : AppState) : AppState :=
  {| screen := screen s; inverter := inverter s; powered := powered s;
     cursor := cursor s; first_visible := first_visible s; active := active s;
     help_top_line := help_top_line s; limit_runtime := limit_runtime s;
     arrow_captcha := arrow_captcha s; notif := notif s; led_timer := led_timer s;
     led_on := v; pwm_running := pwm_running s; hint_visible := hint_visible s;
     hint_timer := hint_timer s; tick_timer := tick_timer s; off_timer := off_timer s;
     remaining_ms := remaining_ms s; timeout_expired := timeout_expired s |}.

Definition set_pwm_running (v : bool) (s : AppState) : AppState :=
  {| screen := screen s; inverter := inverter s; powered := powered s;
     cursor := cursor s; first_visible := first_visible s; active := active s;
     help_top_line := help_top_line s; limit_runtime := limit_runtime s;
     arrow_captcha := arrow_captcha s; notif := notif s; led_timer := led_timer s;
     led_on := led_on s; pwm_running := v; hint_visible := hint_visible s;
     hint_timer := hint_timer s; tick_timer := tick_timer s; off_timer := off_timer s;
     remaining_ms := remaining_ms s; timeout_expired := timeout_expired s |}.

Definition set_hint_visible (v : bool) (s : AppState) : AppState :=
  {| screen := screen s; inverter := inverter s; powered := powered s;
     cursor := cursor s; first_visible := first_visible s; active := active s;
     help_top_line := help_top_line s; limit_runtime := limit_runtime s;
     arrow_captcha := arrow_captcha s; notif := notif s; led_timer := led_timer s;
     led_on := led_on s; pwm_running := pwm_running s; hint_visible := v;
     hint_timer := hint_timer s; tick_timer := tick_timer s; off_timer := off_timer s;
     remaining_ms := remaining_ms s; timeout_expired := timeout_expired s |}.

Definition set_hint_timer (v : option FuriTimer) (s : AppState) : AppState :=
  {| screen := screen s; inverter := inverter s; powered := powered s;
     cursor := cursor s; first_visible := first_visible s; active := active s;
     help_top_line := help_top_line s; limit_runtime := limit_runtime s;
     arrow_captcha := arrow_captcha s; notif := notif s; led_timer := led_timer s;
     led_on := led_on s; pwm_running := pwm_running s; hint_visible := hint_visible s;
     hint_timer := v; tick_timer := tick_timer s; off_timer := off_timer s;
     remaining_ms := remaining_ms s; timeout_expired := timeout_expired s |}.

Definition set_tick_timer (v : option FuriTimer) (s : AppState) : AppState :=
  {| screen := screen s; inverter := inverter s; powered := powered s;
     cursor := cursor s; first_visible := first_visible s; active := active s;
     help_top_line := help_top_line s; limit_runtime := limit_runtime s;
     arrow_captcha := arrow_captcha s; notif := notif s; led_timer := led_timer s;
     led_on := led_on s; pwm_running := pwm_running s; hint_visible := hint_visible s;
     hint_timer := hint_timer s; tick_timer := v; off_timer := off_timer s;
     remaining_ms := remaining_ms s; timeout_expired := timeout_expired s |}.

Definition set_off_timer (v : option FuriTimer) (s : AppState) : AppState :=
  {| screen := screen s; inverter := inverter s; powered := powered s;
     cursor := cursor s; first_visible := first_visible s; active := active s;
     help_top_line := help_top_line s; limit_runtime := limit_runtime s;
     arrow_captcha := arrow_captcha s; notif := notif s; led_timer := led_timer s;
     led_on := led_on s; pwm_running := pwm_running s; hint_visible := hint_visible s;
     hint_timer := hint_timer s; tick_timer := tick_timer s; off_timer := v;
     remaining_ms := remaining_ms s; timeout_expired := timeout_expired s |}.

Definition set_remaining_ms (v : Z) (s : AppState) : AppState :=
  {| screen := screen s; inverter := inverter s; powered := powered s;
     cursor := cursor s; first_visible := first_visible s; active := active s;
     help_top_line := help_top_line s; limit_runtime := limit_runtime s;
     arrow_captcha := arrow_captcha s; notif := notif s; led_timer := led_timer s;
     led_on := led_on s; pwm_running := pwm_running s; hint_visible := hint_visible s;
     hint_timer := hint_timer s; tick_timer := tick_timer s; off_timer := off_timer s;
     remaining_ms := v; timeout_expired := timeout_expired s |}.

Definition set_timeout_expired (v : bool) (s : AppState) : AppState :=
  {| screen := screen s; inverter := inverter s; powered := powered s;
     cursor := cursor s; first_visible := first_visible s; active := active s;
     help_top_line := help_top_line s; limit_runtime := limit_runtime s;
     arrow_captcha := arrow_captcha s; notif := notif s; led_timer := led_timer s;
     led_on := led_on s; pwm_running := pwm_running s; hint_visible := hint_visible s;
     hint_timer := hint_timer s; tick_timer := tick_timer s; off_timer := off_timer s;
     remaining_ms := remaining_ms s; timeout_expired := v |}.

(** ** The hardware behind the HAL

    What the HAL calls of the program act on: the configuration of pin PA7,
    the PWM unit of channel [FuriHalPwmOutputIdTim1PA7], the OTG 5 V rail
    and the green LED, together with the record of the calls issued
    ([hal_log], most recent call first). *)

Inductive GpioMode :=
  GpioModeInput | GpioModeOutputPushPull | GpioModeAltFunctionPushPull
| GpioModeAnalog.

Inductive HalCall :=
| HGpioInit (m : GpioMode)
| HGpioWrite (level : bool)
| HPwmStart (freq duty : Z)
| HPwmStop
| HDelayMs (ms : Z)
| HPowerEnableOtg
| HPowerDisableOtg
| HNotification (green_on : bool)
| HTimerAlloc (cb : Callback) (ty : FuriTimerType)
| HTimerStart (cb : Callback) (ms : Z)
| HTimerStop (cb : Callback)
| HTimerFree (cb : Callback).

Record Hal := {
  pin_mode : GpioMode;
  pin_level : bool;
  pwm : option (Z * Z);
  otg : bool;
  led_green : bool;
  hal_log : list HalCall
}.

Definition set_pin_mode (v : GpioMode) (h : Hal) : Hal :=
  {| pin_mode := v; pin_level := pin_level h; pwm := pwm h; otg := otg h;
     led_green := led_green h; hal_log := hal_log h |}.

Definition set_pin_level (v : bool) (h : Hal) : Hal :=
  {| pin_mode := pin_mode h; pin_level := v; pwm := pwm h; otg := otg h;
     led_green := led_green h; hal_log := hal_log h |}.

Definition set_pwm (v : option (Z * Z)) (h : Hal) : Hal :=
  {| pin_mode := pin_mode h; pin_level := pin_level h; pwm := v; otg := otg h;
     led_green := led_green h; hal_log := hal_log h |}.

Definition set_otg (v : bool) (h : Hal) : Hal :=
  {| pin_mode := pin_mode h; pin_level := pin_level h; pwm := pwm h; otg := v;
     led_green := led_green h; hal_log := hal_log h |}.

Definition set_led_green (v : bool) (h : Hal) : Hal :=
  {| pin_mode := pin_mode h; pin_level := pin_level h; pwm := pwm h; otg := otg h;
     led_green := v; hal_log := hal_log h |}.

Definition set_hal_log (v : list HalCall) (h : Hal) : Hal :=
  {| pin_mode := pin_mode h; pin_level := pin_level h; pwm := pwm h; otg := otg h;
     led_green := led_green h; hal_log := v |}.

Record World := { state : AppState; hal : Hal }.

(** ** Commands

    A C statement acting on [AppState* s] and on the hardware is a function
    on [World]; [c1 ;; c2] runs [c1] and then [c2]. *)

Definition Cmd := World -> World.

Definition skip : Cmd := fun w => w.
Definition and_then (c1 c2 : Cmd) : Cmd := fun w => c2 (c1 w).
Notation "c1 ;; c2" := (and_then c1 c2) (at level 61, right associativity).

Definition on_app (f : AppState -> AppState) : Cmd :=
  fun w => {| state := f (state w); hal := hal w |}.
Definition on_hal (f : Hal -> Hal) : Cmd :=
  fun w => {| state := state w; hal := f (hal w) |}.

Definition when (b : World -> bool) (c : Cmd) : Cmd :=
  fun w => if b w then c w else w.
Definition ifelse (b : World -> bool) (c1 c2 : Cmd) : Cmd :=
  fun w => if b w then c1 w else c2 w.

Definition issue (c : HalCall) : Cmd :=
  on_hal (fun h => set_hal_log (c :: hal_log h) h).

(** The HAL calls issued so far, oldest first. *)
Definition calls (w : World) : list HalCall := rev (hal_log (hal w)).

(** *** GPIO, PWM and power

    [furi_hal_pwm_start] routes the timer output to the pin (alternate
    function) and [furi_hal_pwm_stop] releases the pin to analog mode, as
    the HAL documents for this channel. *)

Definition furi_hal_gpio_init (m : GpioMode) : Cmd :=
  on_hal (set_pin_mode m) ;; issue (HGpioInit m).
Definition furi_hal_gpio_write (level : bool) : Cmd :=
  on_hal (set_pin_level level) ;; issue (HGpioWrite level).
Definition furi_hal_pwm_start (freq duty : Z) : Cmd :=
  on_hal (fun h => set_pwm (Some (freq, duty)) (set_pin_mode GpioModeAltFunctionPushPull h)) ;;
  issue (HPwmStart freq duty).
Definition furi_hal_pwm_stop : Cmd :=
  on_hal (fun h => set_pwm None (set_pin_mode GpioModeAnalog h)) ;;
  issue HPwmStop.
Definition furi_delay_ms (ms : Z) : Cmd := issue (HDelayMs ms).
Definition furi_hal_power_enable_otg : Cmd :=
  on_hal (set_otg true) ;; issue HPowerEnableOtg.
Definition furi_hal_power_disable_otg : Cmd :=
  on_hal (set_otg false) ;; issue HPowerDisableOtg.

Definition pin_to_hiz : Cmd := furi_hal_gpio_init GpioModeInput.

Definition pin_to_pp_low : Cmd :=
  furi_hal_gpio_init GpioModeOutputPushPull ;;
  furi_hal_gpio_write false.

(** [running] is always [&s->pwm_running]. *)
Definition pwm_hw_stop_safe : Cmd :=
  when (fun w => pwm_running (state w))
       (furi_hal_pwm_stop ;;
        furi_delay_ms 1 ;;
        on_app (set_pwm_running false)).

Definition pwm_hw_start_safe (freq : Z) : Cmd :=
  furi_hal_pwm_start freq 50 ;;
  on_app (set_pwm_running true).

Definition inverter_power_5v (inv : InverterId) (on : bool) : Cmd :=
  match inv with
  | InvSamsung =>
      if on then furi_hal_power_enable_otg else furi_hal_power_disable_otg
  | InvEmbraco => skip
  end.

Definition power_5v_set (on : bool) : Cmd :=
  if on then furi_hal_power_enable_otg else furi_hal_power_disable_otg.

(** *** Timers *)

Definition timer_slot (cb : Callback) (s : AppState) : option FuriTimer :=
  match cb with
  | CbLed => led_timer s
  | CbHint => hint_timer s
  | CbTick => tick_timer s
  | CbOff => off_timer s
  end.

Definition set_timer_slot (cb : Callback) (t : option FuriTimer) : AppState -> AppState :=
  match cb with
  | CbLed => set_led_timer t
  | CbHint => set_hint_timer t
  | CbTick => set_tick_timer t
  | CbOff => set_off_timer t
  end.

Definition rearm (d : option Z) (t : FuriTimer) : FuriTimer :=
  {| t_type := t_type t; t_cb := t_cb t; t_armed := d |}.

(** [s-><slot> = furi_timer_alloc(cb, ty, s)] *)
Definition furi_timer_alloc (cb : Callback) (ty : FuriTimerType) : Cmd :=
  on_app (set_timer_slot cb (Some {| t_type := ty; t_cb := cb; t_armed := None |})) ;;
  issue (HTimerAlloc cb ty).

(** [furi_timer_start(s-><slot>, furi_ms_to_ticks(ms))]; the program never
    starts a [NULL] timer. *)
Definition furi_timer_start (cb : Callback) (ms : Z) : Cmd :=
  on_app (fun s => set_timer_slot cb (option_map (rearm (Some ms)) (timer_slot cb s)) s) ;;
  issue (HTimerStart cb ms).

Definition furi_timer_stop (cb : Callback) : Cmd :=
  on_app (fun s => set_timer_slot cb (option_map (rearm None) (timer_slot cb s)) s) ;;
  issue (HTimerStop cb).

Definition furi_timer_free (cb : Callback) : Cmd := issue (HTimerFree cb).

Definition has_timer (cb : Callback) (w : World) : bool :=
  match timer_slot cb (state w) with Some _ => true | None => false end.

Definition timer_armed (cb : Callback) (s : AppState) : bool :=
  match timer_slot cb s with
  | Some t => match t_armed t with Some _ => true | None => false end
  | None => false
  end.

(** ** LED helpers *)

Definition led_set (on : bool) : Cmd :=
  when (fun w => notif (state w))
       (on_hal (set_led_green on) ;; issue (HNotification on)).

Definition led_timer_cb : Cmd :=
  (fun w => on_app (set_led_on (negb (led_on (state w)))) w) ;;
  (fun w => led_set (led_on (state w)) w).

Definition led_apply (blink_hz : Z) : Cmd :=
  when (has_timer CbLed)
       (furi_timer_stop CbLed ;;
        furi_timer_free CbLed ;;
        on_app (set_led_timer None)) ;;
  on_app (set_led_on false) ;;
  led_set false ;;
  if blink_hz =? 0 then skip
  else
    let ms := u32 (1000 / u32 (blink_hz * 2)) in
    let ms := if ms =? 0 then 1 else ms in
    furi_timer_alloc CbLed FuriTimerTypePeriodic ;;
    furi_timer_start CbLed ms.

(** ** Countdown / auto-off timers *)

Definition tick_timer_cb : Cmd :=
  fun w =>
    if 1000 <=? remaining_ms (state w)
    then on_app (set_remaining_ms (u32 (remaining_ms (state w) - 1000))) w
    else on_app (set_remaining_ms 0) w.

Definition off_timer_cb : Cmd :=
  on_app (set_remaining_ms 0) ;;
  on_app (set_timeout_expired true).

Definition stop_timers : Cmd :=
  when (has_timer CbTick) (furi_timer_stop CbTick) ;;
  when (has_timer CbOff) (furi_timer_stop CbOff).

Definition free_timers : Cmd :=
  when (has_timer CbTick) (furi_timer_free CbTick ;; on_app (set_tick_timer None)) ;;
  when (has_timer CbOff) (furi_timer_free CbOff ;; on_app (set_off_timer None)).

Definition start_tick_timer_if_needed : Cmd :=
  stop_timers ;;
  on_app (set_remaining_ms 0) ;;
  on_app (set_timeout_expired false) ;;
  fun w =>
    if negb (powered (state w)) then w
    else if negb (limit_runtime (state w)) then w
    else if active (state w) =? 0 then w
    else
      let secs := default_secs (mode_at (active (state w))) in
      if secs =? 0 then w
      else
        (on_app (set_remaining_ms (u32 (secs * 1000))) ;;
         when (fun w => negb (has_timer CbTick w))
              (furi_timer_alloc CbTick FuriTimerTypePeriodic) ;;
         when (fun w => negb (has_timer CbOff w))
              (furi_timer_alloc CbOff FuriTimerTypeOnce) ;;
         furi_timer_start CbTick 1000 ;;
         (fun w => furi_timer_start CbOff (remaining_ms (state w)) w)) w.

(** ** Mode application *)

Definition apply_mode (idx : Z) : Cmd :=
  if MODE_COUNT <=? idx then skip
  else
    on_app (set_active idx) ;;
    let m := mode_at idx in
    (if freq_hz m =? 0 then
       pwm_hw_stop_safe ;;
       pin_to_pp_low ;;
       stop_timers ;;
       on_app (set_remaining_ms 0) ;;
       on_app (set_timeout_expired false)
     else
       pwm_hw_stop_safe ;;
       pwm_hw_start_safe (freq_hz m) ;;
       start_tick_timer_if_needed) ;;
    led_apply (led_blink_hz m).

(** ** Hint timer *)

Definition hint_timer_cb : Cmd := on_app (set_hint_visible false).

(** ** Help layout *)

Definition help_layout_params (total_lines : Z) : Z * Z :=
  let top := 10 in
  let line_h := 9 in
  let ml := u8 ((CANVAS_H - top) / line_h) in
  let ml := if ml <? 1 then 1 else ml in
  let mtl := if ml <? total_lines then u8 (total_lines - ml) else 0 in
  (ml, mtl).

(** ** State transitions for power *)

Definition enter_safe_menu : Cmd :=
  on_app (set_powered false) ;;
  on_app (set_cursor 0) ;;
  on_app (set_first_visible 0) ;;
  pwm_hw_stop_safe ;;
  pin_to_hiz ;;
  power_5v_set false ;;
  led_apply 0 ;;
  stop_timers ;;
  on_app (set_remaining_ms 0) ;;
  on_app (set_timeout_expired false).

Definition enter_powered_menu_standby : Cmd :=
  on_app (set_powered true) ;;
  on_app (set_cursor 0) ;;
  on_app (set_first_visible 0) ;;
  (fun w => inverter_power_5v (inverter (state w)) true w) ;;
  apply_mode 0.

(** ** Input events and the confirmation dialogs *)

Inductive InputKey :=
  InputKeyUp | InputKeyDown | InputKeyRight | InputKeyLeft | InputKeyOk
| InputKeyBack.

Inductive InputType :=
  InputTypePress | InputTypeRelease | InputTypeShort | InputTypeLong
| InputTypeRepeat.

Record InputEvent := { type : InputType; key : InputKey }.

(** [show_limit_alert_confirm] and [show_power_on_confirm] block on a
    dialog and return whether "Confirm" was pressed.  Neither touches
    [AppState] or the hardware; the answer is the [confirm] argument of the
    handlers below, read only where the C code shows a dialog. *)

(** ** Per-screen input handling (the [switch] of the main loop) *)

Definition MAX_ROWS : Z := 4.

(** The short-BACK block of the SelectInverter and Menu screens. *)
Definition show_hint : Cmd :=
  on_app (set_hint_visible true) ;;
  when (fun w => negb (has_timer CbHint w))
       (furi_timer_alloc CbHint FuriTimerTypeOnce) ;;
  furi_timer_start CbHint 1500.

Definition input_select_inverter (ev : InputEvent) : Cmd :=
  match type ev with
  | InputTypeShort | InputTypeRepeat =>
      match key ev with
      | InputKeyUp =>
          on_app (fun s => set_cursor (if cursor s =? 0 then 1 else 0) s)
      | InputKeyDown =>
          on_app (fun s => set_cursor (if cursor s =? 1 then 0 else 1) s)
      | InputKeyOk =>
          on_app (fun s =>
            set_inverter (if cursor s =? 0 then InvEmbraco else InvSamsung) s) ;;
          enter_safe_menu ;;
          on_app (set_screen ScreenMenu)
      | InputKeyBack => show_hint
      | _ => skip
      end
  | _ => skip
  end.

Definition menu_row_total (s : AppState) : Z :=
  if powered s then u8 (MODE_COUNT + 3) else 3.

Definition input_menu (ev : InputEvent) (confirm : bool) : Cmd :=
  fun w =>
  let is_powered := powered (state w) in
  let row_total := menu_row_total (state w) in
  match type ev with
  | InputTypeShort =>
      match key ev with
      | InputKeyUp =>
          if cursor (state w) =? 0 then
            (on_app (set_cursor (u8 (row_total - 1))) ;;
             on_app (set_first_visible
                       (if MAX_ROWS <? row_total then u8 (row_total - MAX_ROWS) else 0))) w
          else
            (on_app (fun s => set_cursor (u8 (cursor s - 1)) s) ;;
             when (fun w => cursor (state w) <? first_visible (state w))
                  (on_app (fun s => set_first_visible (cursor s) s))) w
      | InputKeyDown =>
          if cursor (state w) =? u8 (row_total - 1) then
            (on_app (set_cursor 0) ;;
             on_app (set_first_visible 0)) w
          else
            (on_app (fun s => set_cursor (u8 (cursor s + 1)) s) ;;
             when (fun w => first_visible (state w) + MAX_ROWS <=? cursor (state w))
                  (on_app (fun s => set_first_visible (u8 (cursor s - (MAX_ROWS - 1))) s))) w
      | InputKeyOk =>
          if is_powered then
            if cursor (state w) <? MODE_COUNT then
              apply_mode (cursor (state w)) w
            else if cursor (state w) =? MODE_COUNT then
              enter_safe_menu w
            else if cursor (state w) =? MODE_COUNT + 1 then
              (on_app (set_screen ScreenSettings) ;;
               on_app (set_cursor 0) ;;
               on_app (set_first_visible 0)) w
            else
              (enter_safe_menu ;;
               on_app (set_screen ScreenHelp) ;;
               on_app (set_help_top_line 0)) w
          else
            if cursor (state w) =? 0 then
              (if confirm then enter_powered_menu_standby w else w)
            else if cursor (state w) =? 1 then
              (on_app (set_screen ScreenSettings) ;;
               on_app (set_cursor 0) ;;
               on_app (set_first_visible 0)) w
            else
              (on_app (set_screen ScreenHelp) ;;
               on_app (set_help_top_line 0)) w
      | InputKeyBack => show_hint w
      | _ => w
      end
  | _ => w
  end.

Definition help_total_lines (inv : InverterId) : Z :=
  u8 (match inv with
      | InvEmbraco => HELP_EMBRACO_COUNT
      | InvSamsung => HELP_SAMSUNG_COUNT
      end).

Definition input_help (ev : InputEvent) : Cmd :=
  fun w =>
  match type ev with
  | InputTypeShort | InputTypeRepeat =>
      let total_lines := help_total_lines (inverter (state w)) in
      let max_top_line := snd (help_layout_params total_lines) in
      match key ev with
      | InputKeyUp =>
          if 0 <? help_top_line (state w)
          then on_app (fun s => set_help_top_line (u8 (help_top_line s - 1)) s) w
          else w
      | InputKeyDown =>
          if help_top_line (state w) <? max_top_line
          then on_app (fun s => set_help_top_line (u8 (help_top_line s + 1)) s) w
          else w
      | InputKeyBack => on_app (set_screen ScreenMenu) w
      | _ => w
      end
  | _ => w
  end.

Definition SETTINGS_ROW_TOTAL : Z := 5.
Definition MAX_ROWS_S : Z := 4.

Definition settings_select_inverter (inv : InverterId) : Cmd :=
  when (fun w => negb (InverterId_eqb (inverter (state w)) inv))
       (on_app (set_inverter inv) ;;
        enter_safe_menu ;;
        on_app (set_screen ScreenMenu)).

Definition input_settings (ev : InputEvent) (confirm : bool) : Cmd :=
  fun w =>
  match type ev with
  | InputTypeShort =>
      match key ev with
      | InputKeyUp =>
          if cursor (state w) =? 0 then
            (on_app (set_cursor (u8 (SETTINGS_ROW_TOTAL - 1))) ;;
             on_app (set_first_visible
                       (if MAX_ROWS_S <? SETTINGS_ROW_TOTAL
                        then u8 (SETTINGS_ROW_TOTAL - MAX_ROWS_S) else 0))) w
          else
            (on_app (fun s => set_cursor (u8 (cursor s - 1)) s) ;;
             when (fun w => cursor (state w) =? 2) (on_app (set_cursor 1)) ;;
             when (fun w => cursor (state w) <? first_visible (state w))
                  (on_app (fun s => set_first_visible (cursor s) s))) w
      | InputKeyDown =>
          if cursor (state w) =? u8 (SETTINGS_ROW_TOTAL - 1) then
            (on_app (set_cursor 0) ;;
             on_app (set_first_visible 0)) w
          else
            (on_app (fun s => set_cursor (u8 (cursor s + 1)) s) ;;
             when (fun w => cursor (state w) =? 2) (on_app (set_cursor 3)) ;;
             when (fun w => first_visible (state w) + MAX_ROWS_S <=? cursor (state w))
                  (on_app (fun s => set_first_visible (u8 (cursor s - (MAX_ROWS_S - 1))) s))) w
      | InputKeyOk =>
          if cursor (state w) =? 0 then
            if limit_runtime (state w) then
              if confirm then
                (on_app (set_limit_runtime false) ;;
                 stop_timers ;;
                 on_app (set_remaining_ms 0)) w
              else w
            else
              (on_app (set_limit_runtime true) ;;
               start_tick_timer_if_needed) w
          else if cursor (state w) =? 1 then
            on_app (fun s => set_arrow_captcha (negb (arrow_captcha s)) s) w
          else if cursor (state w) =? 3 then
            settings_select_inverter InvEmbraco w
          else if cursor (state w) =? 4 then
            settings_select_inverter InvSamsung w
          else w
      | InputKeyBack =>
          (on_app (set_screen ScreenMenu) ;;
           on_app (set_cursor 0) ;;
           on_app (set_first_visible 0)) w
      | _ => w
      end
  | _ => w
  end.

(** The [switch(s.screen)] of the main loop. *)
Definition handle_input (ev : InputEvent) (confirm : bool) : Cmd :=
  fun w =>
  match screen (state w) with
  | ScreenSelectInverter => input_select_inverter ev w
  | ScreenMenu => input_menu ev confirm w
  | ScreenHelp => input_help ev w
  | ScreenSettings => input_settings ev confirm w
  end.

(** The head of a loop iteration: consume a pending expiry. *)
Definition consume_timeout : Cmd :=
  when (fun w => timeout_expired (state w))
       (on_app (set_timeout_expired false) ;;
        enter_powered_menu_standby).

Definition is_long_back (ev : InputEvent) : bool :=
  match type ev, key ev with
  | InputTypeLong, InputKeyBack => true
  | _, _ => false
  end.

(** The cleanup sequence after the loop. *)
Definition cleanup : Cmd :=
  when (has_timer CbLed)
       (furi_timer_stop CbLed ;; furi_timer_free CbLed ;; on_app (set_led_timer None)) ;;
  when (has_timer CbHint)
       (furi_timer_stop CbHint ;; furi_timer_free CbHint ;; on_app (set_hint_timer None)) ;;
  stop_timers ;;
  free_timers ;;
  pwm_hw_stop_safe ;;
  pin_to_hiz ;;
  power_5v_set false ;;
  (on_hal (set_led_green false) ;; issue (HNotification false)).

(** ** The running application

    The main thread alternates between the head of the loop
    ([consume_timeout]) and the bounded wait in [furi_message_queue_get];
    the timer service runs the callback of any running timer in between.
    A one-shot timer stops running when it fires. *)

Definition run_callback (cb : Callback) : Cmd :=
  match cb with
  | CbLed => led_timer_cb
  | CbHint => hint_timer_cb
  | CbTick => tick_timer_cb
  | CbOff => off_timer_cb
  end.

Definition fire (cb : Callback) (w : World) : option World :=
  match timer_slot cb (state w) with
  | Some t =>
      match t_armed t with
      | Some _ =>
          let expire :=
            match t_type t with
            | FuriTimerTypeOnce => on_app (set_timer_slot cb (Some (rearm None t)))
            | FuriTimerTypePeriodic => skip
            end in
          Some ((expire ;; run_callback (t_cb t)) w)
      | None => None
      end
  | None => None
  end.

Inductive Phase := AtLoopHead | InQueueGet.

Record Loop := { world : World; phase : Phase }.

Inductive Step :=
| StHead
| StInput (ev : InputEvent) (confirm : bool)
| StNoInput
| StFire (cb : Callback).

(** One step of the running application; [None] when the step cannot
    happen in this state.  A long BACK leaves the loop ([cleanup] follows),
    so it has no successor among the running states. *)
Definition step (st : Step) (l : Loop) : option Loop :=
  match st, phase l with
  | StHead, AtLoopHead =>
      Some {| world := consume_timeout (world l); phase := InQueueGet |}
  | StInput ev confirm, InQueueGet =>
      if is_long_back ev then None
      else Some {| world := handle_input ev confirm (world l); phase := AtLoopHead |}
  | StNoInput, InQueueGet =>
      Some {| world := world l; phase := AtLoopHead |}
  | StFire cb, ph =>
      match fire cb (world l) with
      | Some w => Some {| world := w; phase := ph |}
      | None => None
      end
  | _, _ => None
  end.

Fixpoint run (tr : list Step) (l : Loop) : option Loop :=
  match tr with
  | [] => Some l
  | st :: tr' =>
      match step st l with
      | Some l' => run tr' l'
      | None => None
      end
  end.

Definition init_app : AppState :=
  {| screen := ScreenSelectInverter; inverter := InvEmbraco; powered := false;
     cursor := 0; first_visible := 0; active := 0; help_top_line := 0;
     limit_runtime := true; arrow_captcha := true; notif := true;
     led_timer := None; led_on := false; pwm_running := false;
     hint_visible := false; hint_timer := None; tick_timer := None;
     off_timer := None; remaining_ms := 0; timeout_expired := false |}.

(** The hardware as the loader hands it over: PWM unit idle. *)
Definition hal_boot : Hal :=
  {| pin_mode := GpioModeAnalog; pin_level := false; pwm := None; otg := false;
     led_green := false; hal_log := [] |}.

(** The state at the first loop iteration of [expert_tool_ics]. *)
Definition init_world : World :=
  (pin_to_hiz ;; power_5v_set false ;; led_apply 0)
    {| state := init_app; hal := hal_boot |}.

Definition init_loop : Loop := {| world := init_world; phase := AtLoopHead |}.

Definition Reachable (l : Loop) : Prop := exists tr, run tr init_loop = Some l.

(** ** Vocabulary of the properties *)

(** The gating rule of the countdown. *)
Definition gating (s : AppState) : bool :=
  powered s && limit_runtime s && negb (active s =? 0)
  && negb (default_secs (mode_at (active s)) =? 0).

Definition countdown_armed (s : AppState) : bool :=
  timer_armed CbTick s && timer_armed CbOff s.

(** Rows the cursor may rest on.  The Help screen has no list of its own:
    the cursor it keeps is the Menu's. *)
Definition selectable (s : AppState) (r : Z) : bool :=
  match screen s with
  | ScreenSelectInverter => (0 <=? r) && (r <=? 1)
  | ScreenMenu | ScreenHelp => (0 <=? r) && (r <? menu_row_total s)
  | ScreenSettings =>
      (0 <=? r) && (r <? SETTINGS_ROW_TOTAL) && negb (r =? 2)
  end.

Definition cursor_ok (s : AppState) : bool := selectable s (cursor s).

Definition first_row : Z := 0.

Definition last_row (s : AppState) : Z :=
  match screen s with
  | ScreenSelectInverter => 1
  | ScreenMenu | ScreenHelp => menu_row_total s - 1
  | ScreenSettings => SETTINGS_ROW_TOTAL - 1
  end.

Definition timer_wf (cb : Callback) (ty : FuriTimerType) (s : AppState) : Prop :=
  match timer_slot cb s with
  | Some t => t_cb t = cb /\ t_type t = ty
  | None => True
  end.

Definition armed_with (cb : Callback) (d : Z) (s : AppState) : Prop :=
  match timer_slot cb s with
  | Some t => match t_armed t with Some d' => d' = d | None => True end
  | None => True
  end.

Definition help_max_top (inv : InverterId) : Z :=
  snd (help_layout_params (help_total_lines inv)).

(** What holds of every state the running application passes through. *)
Record Inv (w : World) : Prop := {
  inv_notif : notif (state w) = true;
  inv_pwm :
    pwm_running (state w) =
    match pwm (hal w) with Some _ => true | None => false end;
  inv_otg :
    otg (hal w) =
    powered (state w) && InverterId_eqb (inverter (state w)) InvSamsung;
  inv_active : 0 <= active (state w) < MODE_COUNT;
  inv_cursor : cursor_ok (state w) = true;
  inv_led_wf : timer_wf CbLed FuriTimerTypePeriodic (state w);
  inv_hint_wf : timer_wf CbHint FuriTimerTypeOnce (state w);
  inv_tick_wf : timer_wf CbTick FuriTimerTypePeriodic (state w);
  inv_off_wf : timer_wf CbOff FuriTimerTypeOnce (state w);
  inv_tick_period : armed_with CbTick 1000 (state w);
  inv_off_delay :
    armed_with CbOff (default_secs (mode_at (active (state w))) * 1000) (state w);
  inv_countdown :
    timeout_expired (state w) = false ->
    timer_armed CbTick (state w) = gating (state w) /\
    timer_armed CbOff (state w) = gating (state w);
  inv_pending :
    timeout_expired (state w) = true -> timer_armed CbOff (state w) = false;
  inv_help :
    screen (state w) = ScreenHelp ->
    0 <= help_top_line (state w) <= help_max_top (inverter (state w))
}.

(** Events and traces used in the examples. *)
Definition short (k : InputKey) : InputEvent :=
  {| type := InputTypeShort; key := k |}.

(** One loop iteration that receives a short press of [k]. *)
Definition press (k : InputKey) (confirm : bool) : list Step :=
  [StHead; StInput (short k) confirm].

(** Select Embraco, power on (confirmed), move to "Low speed", start it. *)
Definition trace_low_speed : list Step :=
  press InputKeyOk false ++ press InputKeyOk true
  ++ press InputKeyDown false ++ press InputKeyOk false.

(** ** Proof automation *)

Ltac expose w :=
  destruct w as [[sc inv pw cur fv act htl lim cap nt lt lo pr hv ht tt ot rem te]
                 [pm pl pwm_ otg_ lg log_]].

Ltac norm_inv :=
  cbv beta iota delta
      [gating cursor_ok selectable timer_wf armed_with timer_armed menu_row_total
       timer_slot countdown_armed
       screen inverter powered cursor first_visible active help_top_line limit_runtime
       arrow_captcha notif led_timer led_on pwm_running hint_visible hint_timer
       tick_timer off_timer remaining_ms timeout_expired
       pin_mode pin_level pwm otg led_green hal_log state hal world phase
       t_type t_cb t_armed] in *;
  change MODE_COUNT with 4 in *;
  change SETTINGS_ROW_TOTAL with 5 in *;
  change (u8 (4 + 3)) with 7 in *.

(** Evaluate a command on a state whose control-relevant fields are
    explicit. *)
Ltac eval_world :=
  match goal with
  | |- Inv ?W => let W' := eval vm_compute in W in change (Inv W')
  end.

Ltac each tac := match goal with |- _ => tac end.

Ltac cheap0 :=
  first [ assumption | reflexivity | exact I | discriminate
        | (split; [first [assumption | reflexivity] | first [assumption | reflexivity]])
        | (intros _; split; reflexivity)
        | (intros; discriminate)
        | lia ].

Ltac cheap :=
  first [ cheap0
        | match goal with sc : ScreenId |- _ => destruct sc; cheap0 end
        | match goal with inv : InverterId |- _ => destruct inv; cheap0 end
        | match goal with pw : bool |- _ => destruct pw; cheap0 end ].

Ltac open_inv H :=
  destruct H as [Hn Hp Ho Ha Hc Hlw Hhw Htw Hfw Htp Hod Hcd Hpe Hhelp].

Ltac close_inv := constructor; norm_inv; try each cheap.

Ltac crunch := try discriminate; eval_world; close_inv.

(** Enumerate a bounded row or mode index. *)
Ltac enum x n :=
  lazymatch n with
  | O => exfalso; lia
  | S ?m =>
      let E := fresh in
      destruct (Z.eq_dec x (Z.of_nat m)) as [E | E];
      [ cbn in E; subst x | enum x m ]
  end.

(** Decide the closed tests of the goal by evaluation. *)
Ltac eval_ifs :=
  repeat match goal with
  | |- context [if ?b then _ else _] =>
      let v := eval vm_compute in b in
      match v with
      | true => change b with true
      | false => change b with false
      end; cbv beta iota
  end.

(** Unfold the commands, leaving integer arithmetic folded. *)
Ltac unfold_cmds :=
  cbv beta iota delta
      [apply_mode enter_safe_menu enter_powered_menu_standby start_tick_timer_if_needed
       stop_timers free_timers led_apply led_set led_timer_cb tick_timer_cb off_timer_cb
       hint_timer_cb pwm_hw_stop_safe pwm_hw_start_safe pin_to_hiz pin_to_pp_low
       inverter_power_5v power_5v_set furi_hal_gpio_init furi_hal_gpio_write
       furi_hal_pwm_start furi_hal_pwm_stop furi_delay_ms furi_hal_power_enable_otg
       furi_hal_power_disable_otg furi_timer_alloc furi_timer_start furi_timer_stop
       furi_timer_free has_timer timer_slot set_timer_slot rearm issue on_app on_hal
       when ifelse and_then skip option_map show_hint consume_timeout
       settings_select_inverter
       set_screen set_inverter set_powered set_cursor set_first_visible set_active
       set_help_top_line set_limit_runtime set_arrow_captcha set_led_timer set_led_on
       set_pwm_running set_hint_visible set_hint_timer set_tick_timer set_off_timer
       set_remaining_ms set_timeout_expired
       set_pin_mode set_pin_level set_pwm set_otg set_led_green set_hal_log
       screen inverter powered cursor first_visible active help_top_line limit_runtime
       arrow_captcha notif led_timer led_on pwm_running hint_visible hint_timer
       tick_timer off_timer remaining_ms timeout_expired
       pin_mode pin_level pwm otg led_green hal_log state hal
       t_type t_cb t_armed] in *.

Ltac same_world H :=
  match goal with
  | |- Inv ?w => match type of H with Inv w => exact H end
  end.

(** The tracked flag agrees with the PWM unit. *)
Definition pwm_tracked (w : World) : Prop :=
  pwm_running (state w) = match pwm (hal w) with Some _ => true | None => false end.

(** HAL calls that act on the output pin or on the PWM unit. *)
Definition drives_output (c : HalCall) : bool :=
  match c with
  | HGpioInit _ | HGpioWrite _ | HPwmStart _ _ | HPwmStop => true
  | _ => false
  end.

Definition leaves_output_alone (cs : list HalCall) : bool :=
  forallb (fun c => negb (drives_output c)) cs.

(** The world a trace leads to from the initial one. *)
Definition world_after (tr : list Step) : World :=
  match run tr init_loop with
  | Some l => world l
  | None => init_world
  end.

Ltac norm_log := cbn [rev]; rewrite <- ?app_assoc; cbn [List.app].

(** An application state with the navigation and hint fields blanked:
    two states agree on every other field exactly when their images
    agree. *)
Definition forget_navigation (s : AppState) : AppState :=
  set_screen ScreenMenu
    (set_cursor 0
       (set_first_visible 0 (set_hint_visible false (set_hint_timer None s)))).

(** The hardware without the call record. *)
Definition hardware (w : World) : GpioMode * bool * option (Z * Z) * bool * bool :=
  (pin_mode (hal w), pin_level (hal w), pwm (hal w), otg (hal w), led_green (hal w)).

Definition is_hint_call (c : HalCall) : bool :=
  match c with
  | HTimerAlloc CbHint _ | HTimerStart CbHint _ => true
  | _ => false
  end.

(** The toggle period [led_apply] computes for a rate [blink_hz > 0]. *)
Definition led_toggle_ms (blink_hz : Z) : Z :=
  let ms := u32 (1000 / u32 (blink_hz * 2)) in
  if ms =? 0 then 1 else ms.

(** "Low speed" runs until its one-shot expiry timer fires while the main
    thread waits in [furi_message_queue_get]. *)
Definition trace_expiry_pending : list Step :=
  trace_low_speed ++ [StHead; StFire CbOff].

(** "Low speed" runs with the cursor already on "Mid speed"; the expiry
    timer fires during the wait and OK arrives before the wait ends. *)
Definition trace_expiry_discarded : list Step :=
  trace_low_speed ++ press InputKeyDown false
  ++ [StHead; StFire CbOff; StInput (short InputKeyOk) false; StHead].

(** Embraco: open Help, scroll one line down, go back, then switch the
    profile to Samsung in Settings. *)
Definition trace_stale_help_offset : list Step :=
  press InputKeyOk false
  ++ press InputKeyDown false ++ press InputKeyDown false
  ++ press InputKeyOk false ++ press InputKeyDown false
  ++ press InputKeyBack false
  ++ press InputKeyUp false ++ press InputKeyOk false
  ++ press InputKeyUp false ++ press InputKeyOk false.

(** Mode 1 running, then into Settings (three rows up from "Low speed",
    wrapping, is "Settings"). *)
Definition trace_settings_while_running : list Step :=
  trace_low_speed ++ press InputKeyUp false ++ press InputKeyUp false
  ++ press InputKeyUp false ++ press InputKeyOk false.

(** Counting along a run: the steps of [tr], taken from [l], that satisfy
    [p] in the state they start from. *)
Fixpoint count_steps (p : Step -> Loop -> bool) (tr : list Step) (l : Loop) : nat :=
  match tr with
  | [] => 0
  | st :: tr' =>
      match step st l with
      | Some l' => ((if p st l then 1 else 0) + count_steps p tr' l')%nat
      | None => 0%nat
      end
  end.

(** The expiry timer fires. *)
Definition expiry_fires (st : Step) (l : Loop) : bool :=
  match st with
  | StFire CbOff => true
  | _ => false
  end.

(** The head of the loop finds [timeout_expired] set and handles it. *)
Definition expiry_handled (st : Step) (l : Loop) : bool :=
  match st with
  | StHead => timeout_expired (state (world l))
  | _ => false
  end.

(** An input is processed while [timeout_expired] is set and clears it. *)
Definition expiry_discarded (st : Step) (l : Loop) : bool :=
  match st with
  | StInput ev confirm =>
      timeout_expired (state (world l))
      && negb (timeout_expired (state (handle_input ev confirm (world l))))
  | _ => false
  end.

Definition expiry_pending (l : Loop) : nat :=
  if timeout_expired (state (world l)) then 1%nat else 0%nat.

(** Project a field through the elementary state updates. *)
Ltac push_proj :=
  cbv beta delta [and_then skip] in *;
  cbn [on_app state hal screen help_top_line timeout_expired active
       set_screen set_inverter set_powered set_cursor set_first_visible set_active
       set_help_top_line set_limit_runtime set_arrow_captcha set_led_timer set_led_on
       set_pwm_running set_hint_visible set_hint_timer set_tick_timer set_off_timer
       set_remaining_ms set_timeout_expired] in *.

Ltac split_if :=
  match goal with
  | |- context [if ?b then _ else _] => destruct b eqn:?
  end.

(** What one input can do to the pending-expiry flag and to the Help
    scroll offset. *)
Definition input_facts (w w' : World) : Prop :=
  (timeout_expired (state w') = true -> timeout_expired (state w) = true) /\
  (screen (state w) <> ScreenHelp -> screen (state w') = ScreenHelp ->
   help_top_line (state w') = 0).

(** ** Further vocabulary *)

(** The events a screen reacts to; a long BACK is taken by the loop
    before the screen sees it. *)
Definition reacts (sc : ScreenId) (ev : InputEvent) : bool :=
  match sc, type ev, key ev with
  | (ScreenSelectInverter | ScreenMenu | ScreenSettings), InputTypeShort,
    (InputKeyUp | InputKeyDown | InputKeyOk | InputKeyBack) => true
  | ScreenSelectInverter, InputTypeRepeat,
    (InputKeyUp | InputKeyDown | InputKeyOk | InputKeyBack) => true
  | ScreenHelp, (InputTypeShort | InputTypeRepeat),
    (InputKeyUp | InputKeyDown | InputKeyBack) => true
  | _, _, _ => false
  end.

Definition all_timers_freed (s : AppState) : Prop :=
  led_timer s = None /\ hint_timer s = None /\ tick_timer s = None /\
  off_timer s = None.

(** What the output invariant reads of a state. *)
Definition out_view (w : World) :=
  (powered (state w), active (state w), led_timer (state w), led_on (state w),
   hardware w).

(** The outputs agree with the mode: nothing energised while unpowered,
    pin held low in Stand-by, and the active mode's signal and blink rate
    otherwise. *)
Record OutputOk (w : World) : Prop := {
  out_unpowered :
    powered (state w) = false ->
    pwm (hal w) = None /\ pin_mode (hal w) = GpioModeInput /\
    otg (hal w) = false /\ led_timer (state w) = None;
  out_standby :
    powered (state w) = true -> active (state w) = 0 ->
    pwm (hal w) = None /\ pin_mode (hal w) = GpioModeOutputPushPull /\
    pin_level (hal w) = false /\ led_timer (state w) = None;
  out_running :
    powered (state w) = true -> active (state w) <> 0 ->
    pwm (hal w) = Some (freq_hz (mode_at (active (state w))), 50) /\
    pin_mode (hal w) = GpioModeAltFunctionPushPull /\
    led_timer (state w) =
      Some {| t_type := FuriTimerTypePeriodic; t_cb := CbLed;
              t_armed :=
                Some (led_toggle_ms (led_blink_hz (mode_at (active (state w))))) |};
  out_led_idle :
    led_timer (state w) = None ->
    led_on (state w) = false /\ led_green (hal w) = false
}.

(** The cursor lies inside the four-row window. *)
Definition WindowOk (w : World) : Prop :=
  0 <= first_visible (state w) <= cursor (state w) /\
  cursor (state w) < first_visible (state w) + MAX_ROWS.

(** On the inverter selection screen the window is never scrolled. *)
Definition WindowInv (w : World) : Prop :=
  WindowOk w /\
  (screen (state w) = ScreenSelectInverter -> first_visible (state w) = 0).

Definition win_view (w : World) : Z * Z :=
  (cursor (state w), first_visible (state w)).

Ltac push_all :=
  cbv beta delta [and_then skip out_view win_view hardware WindowOk] in *;
  cbn [on_app state hal screen help_top_line timeout_expired active powered cursor
       first_visible led_timer led_on inverter limit_runtime
       pin_mode pin_level pwm otg led_green
       set_screen set_inverter set_powered set_cursor set_first_visible set_active
       set_help_top_line set_limit_runtime set_arrow_captcha set_led_timer set_led_on
       set_pwm_running set_hint_visible set_hint_timer set_tick_timer set_off_timer
       set_remaining_ms set_timeout_expired] in *.

Ltac eval_out :=
  match goal with
  | |- OutputOk ?W => let W' := eval vm_compute in W in change (OutputOk W')
  end.

Ltac out_cheap :=
  first [ assumption
        | (intros; repeat split; first [ reflexivity | discriminate | congruence | lia ]) ].

Ltac close_out := constructor; norm_inv; try each out_cheap.

(** ** Rendering

    The draw callback paints the current screen from a read-only
    [AppState].  A canvas is the list of the drawing calls made on it, in
    order; [canvas_string_width], which depends on the font, is a
    parameter. *)

Definition u16 (x : Z) : Z := x mod 65536.

Definition TITLE_Y : Z := 14.
Definition ROW_Y0 : Z := 26.
Definition ROW_DY : Z := 12.
Definition SCROLLBAR_X : Z := 124.
Definition SCROLLBAR_W : Z := 3.
Definition SCROLLBAR_Y0 : Z := 2.
Definition SCROLLBAR_Y1 : Z := 62.
Definition TIMER_MARGIN : Z := 6.

Inductive Font := FontPrimary | FontSecondary.
Inductive Color := ColorWhite | ColorBlack.

Inductive DrawCall :=
| canvas_clear
| canvas_set_font (f : Font)
| canvas_set_color (c : Color)
| canvas_draw_str (x y : Z) (s : string)
| canvas_draw_dot (x y : Z)
| canvas_draw_box (x y w h : Z)
| canvas_draw_line (x1 y1 x2 y2 : Z).

(** The [for(y = y0; y <= y1; y += 3)] loop of the rail; [n] bounds the
    number of iterations. *)
Fixpoint rail_dots (n : nat) (x y y1 : Z) : list DrawCall :=
  match n with
  | O => []
  | S n' =>
      if y <=? y1 then canvas_draw_dot x y :: rail_dots n' x (u16 (y + 3)) y1
      else []
  end.

(** The position the thumb is drawn at. *)
Definition scrollbar_thumb_y (total_steps pos : Z) : Z :=
  let y0 := SCROLLBAR_Y0 in
  let y1 := SCROLLBAR_Y1 in
  let track_h := u16 (y1 - y0) in
  let denom := if 1 <? total_steps then u16 (total_steps - 1) else 1 in
  let thumb_y := u16 (y0 + (pos * track_h) / denom) in
  let thumb_y := if u16 (y1 - 1) <? thumb_y then u16 (y1 - 1) else thumb_y in
  if thumb_y <? y0 then y0 else thumb_y.

Definition draw_scrollbar_dotted (total_steps pos : Z) : list DrawCall :=
  if total_steps <=? 1 then []
  else
    let x := SCROLLBAR_X in
    rail_dots 32 x SCROLLBAR_Y0 SCROLLBAR_Y1
    ++ [canvas_draw_box (u16 (x - 1)) (u16 (scrollbar_thumb_y total_steps pos - 1))
                        SCROLLBAR_W 4].

Definition draw_checkmark (x baseline_y : Z) : list DrawCall :=
  let y := baseline_y - 6 in
  [canvas_draw_line x (y + 3) (x + 2) (y + 5);
   canvas_draw_line (x + 2) (y + 5) (x + 7) y].

(** [snprintf("%lu", n)] for an unsigned [n]. *)
Definition decimal (n : Z) : string :=
  NilZero.string_of_uint (N.to_uint (Z.to_N n)).

(** The bottom hint ribbon of the SelectInverter and Menu screens. *)
Definition draw_hint (s : AppState) : list DrawCall :=
  if hint_visible s then
    let text_h := 10 in
    let text_y := u16 (CANVAS_H - 2) in
    [canvas_set_color ColorBlack;
     canvas_draw_box 0 (u16 (text_y - text_h)) CANVAS_W (u16 (text_h + 4));
     canvas_set_color ColorWhite;
     canvas_draw_str 14 text_y "Long press back to exit";
     canvas_set_color ColorBlack]
  else [].

(** The check mark column of the Menu and Settings rows. *)
Definition check_x : Z :=
  let x := SCROLLBAR_X - TIMER_MARGIN - 10 in
  if x <? 90 then 90 else x.

(** The clamp of the top row of the window against the row count. *)
Definition clamp_first_visible (first_visible max_rows row_total : Z) : Z :=
  if row_total <? first_visible + max_rows
  then (if max_rows <? row_total then u8 (row_total - max_rows) else 0)
  else first_visible.

Definition caret (selected : bool) : string := (if selected then ">" else " ")%string.

Section Rendering.

Variable canvas_string_width : string -> Z.

(** A value right-aligned against the scrollbar rail. *)
Definition right_aligned_x (text : string) : Z :=
  let w := u16 (canvas_string_width text) in
  let right_x := u16 (SCROLLBAR_X - TIMER_MARGIN) in
  if w <=? right_x then u16 (right_x - w) else 2.

Definition draw_title (s : AppState) : list DrawCall :=
  let inv_name :=
    (match inverter s with InvEmbraco => "Embraco" | InvSamsung => "Samsung" end)%string in
  [canvas_set_font FontPrimary; canvas_set_color ColorBlack;
   canvas_draw_str 4 TITLE_Y (inv_name ++ " Starter")%string]
  ++ (if 0 <? remaining_ms s then
        let sec := u32 (remaining_ms s + 999) / 1000 in
        let tbuf := (decimal sec ++ "s")%string in
        [canvas_draw_str (right_aligned_x tbuf) TITLE_Y tbuf]
      else []).

Definition draw_select_inverter (s : AppState) : list DrawCall :=
  [canvas_clear; canvas_set_color ColorBlack;
   canvas_set_font FontPrimary; canvas_draw_str 4 TITLE_Y "Inverter type";
   canvas_set_font FontSecondary;
   canvas_draw_str 2 ROW_Y0 (caret (cursor s =? 0));
   canvas_draw_str 14 ROW_Y0 "Embraco";
   canvas_draw_str 2 (ROW_Y0 + ROW_DY) (caret (cursor s =? 1));
   canvas_draw_str 14 (ROW_Y0 + ROW_DY) "Samsung"]
  ++ draw_scrollbar_dotted 2 (cursor s)
  ++ draw_hint s.

(** One row of the Menu list. *)
Definition draw_menu_row (s : AppState) (row y : Z) : list DrawCall :=
  canvas_draw_str 2 y (caret (row =? cursor s))
  :: (if powered s then
        if row <? MODE_COUNT then
          canvas_draw_str 14 y (name (mode_at row))
          :: (if row =? active s then draw_checkmark check_x y else [])
        else if row =? MODE_COUNT then [canvas_draw_str 14 y "Power off"]
        else if row =? MODE_COUNT + 1 then [canvas_draw_str 14 y "Settings"]
        else [canvas_draw_str 14 y "Help"]
      else
        if row =? 0 then [canvas_draw_str 14 y "Power on"]
        else if row =? 1 then [canvas_draw_str 14 y "Settings"]
        else [canvas_draw_str 14 y "Help"]).

(** The [for(i = 0; i < MAX_ROWS; i++)] loop with its [break], from
    iteration [i], for [n] more iterations. *)
Fixpoint draw_rows (draw_row : Z -> Z -> list DrawCall)
         (first_visible row_total : Z) (n : nat) (i : Z) : list DrawCall :=
  match n with
  | O => []
  | S n' =>
      let row := u8 (first_visible + i) in
      if row_total <=? row then []
      else draw_row row (ROW_Y0 + i * ROW_DY)
           ++ draw_rows draw_row first_visible row_total n' (i + 1)
  end.

Definition draw_menu (s : AppState) : list DrawCall :=
  let row_total := menu_row_total s in
  let first_visible := clamp_first_visible (first_visible s) MAX_ROWS row_total in
  canvas_clear :: draw_title s
  ++ [canvas_set_font FontSecondary]
  ++ draw_rows (draw_menu_row s) first_visible row_total 4 0
  ++ draw_scrollbar_dotted row_total (cursor s)
  ++ draw_hint s.

Definition help_lines (inv : InverterId) : list string :=
  match inv with
  | InvEmbraco => HELP_EMBRACO
  | InvSamsung => HELP_SAMSUNG
  end.

(** The loop over the visible help lines, with its [break]. *)
Fixpoint draw_help_lines (lines : list string) (count top_line : Z)
         (n : nat) (i : Z) : list DrawCall :=
  match n with
  | O => []
  | S n' =>
      let idx := u8 (top_line + i) in
      if count <=? idx then []
      else canvas_draw_str 2 (u8 (10 + i * 9)) (nth (Z.to_nat idx) lines ""%string)
           :: draw_help_lines lines count top_line n' (i + 1)
  end.

Definition draw_help (s : AppState) : list DrawCall :=
  let lines := help_lines (inverter s) in
  let count := help_total_lines (inverter s) in
  let '(max_lines, max_top_line) := help_layout_params count in
  let total_steps := u16 (max_top_line + 1) in
  let total_steps := if total_steps <? 1 then 1 else total_steps in
  [canvas_clear; canvas_set_font FontSecondary; canvas_set_color ColorBlack]
  ++ draw_help_lines lines count (help_top_line s) (Z.to_nat max_lines) 0
  ++ draw_scrollbar_dotted total_steps (help_top_line s).

(** One row of the Settings list; row 2 is the header. *)
Definition draw_settings_row (s : AppState) (row y : Z) : list DrawCall :=
  if row =? 2 then [canvas_draw_str 4 y "Inverter type"]
  else
    canvas_draw_str 2 y (caret (cursor s =? row))
    :: (if row =? 0 then
          let val := (if limit_runtime s then "Yes" else "No")%string in
          [canvas_draw_str 14 y "Limit run time";
           canvas_draw_str (right_aligned_x val) y val]
        else if row =? 1 then
          let val := (if arrow_captcha s then "Yes" else "No")%string in
          [canvas_draw_str 14 y "Arrow captcha";
           canvas_draw_str (right_aligned_x val) y val]
        else if row =? 3 then
          canvas_draw_str 14 y "Embraco"
          :: (match inverter s with
              | InvEmbraco => draw_checkmark check_x y
              | InvSamsung => []
              end)
        else if row =? 4 then
          canvas_draw_str 14 y "Samsung"
          :: (match inverter s with
              | InvSamsung => draw_checkmark check_x y
              | InvEmbraco => []
              end)
        else []).

Definition draw_settings (s : AppState) : list DrawCall :=
  let first_visible :=
    clamp_first_visible (first_visible s) MAX_ROWS_S SETTINGS_ROW_TOTAL in
  [canvas_clear; canvas_set_font FontPrimary; canvas_set_color ColorBlack;
   canvas_draw_str 4 TITLE_Y "Settings"; canvas_set_font FontSecondary]
  ++ draw_rows (draw_settings_row s) first_visible SETTINGS_ROW_TOTAL 4 0
  ++ draw_scrollbar_dotted SETTINGS_ROW_TOTAL (cursor s).

Definition draw_cb (s : AppState) : list DrawCall :=
  match screen s with
  | ScreenSelectInverter => draw_select_inverter s
  | ScreenMenu => draw_menu s
  | ScreenHelp => draw_help s
  | ScreenSettings => draw_settings s
  end.

End Rendering.

(** The top row of the window as the list screens draw it: the stored
    [first_visible] after the clamp of [draw_menu] and [draw_settings];
    the inverter selection screen draws its two rows unscrolled. *)
Definition window_top (s : AppState) : Z :=
  match screen s with
  | ScreenSelectInverter => 0
  | ScreenMenu | ScreenHelp =>
      clamp_first_visible (first_visible s) MAX_ROWS (menu_row_total s)
  | ScreenSettings =>
      clamp_first_visible (first_visible s) MAX_ROWS_S SETTINGS_ROW_TOTAL
  end.

(** Embraco: open Help from the safe menu and scroll three lines down. *)
Definition trace_help_scrolled : list Step :=
  press InputKeyOk false
  ++ press InputKeyDown false ++ press InputKeyDown false
  ++ press InputKeyOk false
  ++ press InputKeyDown false ++ press InputKeyDown false ++ press InputKeyDown false.

Ltac eval_call f :=
  match goal with
  | |- context [f ?a ?b] =>
      let r := eval vm_compute in (f a b) in change (f a b) with r
  end.

Ltac eval_rows :=
  match goal with
  | |- context [draw_rows ?a ?b ?c ?d ?e] =>
      let r := eval vm_compute in (draw_rows a b c d e) in
      change (draw_rows a b c d e) with r
  end.

Ltac find_in := solve [ reflexivity | left; find_in | right; find_in ].

(** The baselines at which a frame draws the selection caret. *)
Definition carets (cs : list DrawCall) : list Z :=
  flat_map (fun c =>
              match c with
              | canvas_draw_str x y t =>
                  if String.eqb t ">" && (x =? 2) then [y] else []
              | _ => []
              end) cs.

(** The stored window already satisfies the clamp the list screens apply
    when they draw. *)
Definition ClampInv (w : World) : Prop :=
  window_top (state w) = first_visible (state w).

Definition nav_view (w : World) : ScreenId * bool * Z * Z :=
  (screen (state w), powered (state w), cursor (state w), first_visible (state w)).

(** ** The countdown value and the hint ribbon *)

(** The countdown never exceeds the active mode's limit, counts whole
    seconds, and is non-zero only while the limit applies. *)
Definition CountInv (w : World) : Prop :=
  0 <= remaining_ms (state w)
    <= default_secs (mode_at (active (state w))) * 1000 /\
  remaining_ms (state w) mod 1000 = 0 /\
  (remaining_ms (state w) <> 0 -> gating (state w) = true).

Definition cnt_view (w : World) : Z * bool * bool * Z :=
  (remaining_ms (state w), powered (state w), limit_runtime (state w),
   active (state w)).

(** The running one-shot timer behind a visible hint. *)
Definition hint_pending : option FuriTimer :=
  Some {| t_type := FuriTimerTypeOnce; t_cb := CbHint; t_armed := Some 1500 |}.

Definition HintInv (w : World) : Prop :=
  hint_visible (state w) = true -> hint_timer (state w) = hint_pending.

Definition hint_view (w : World) : bool * option FuriTimer :=
  (hint_visible (state w), hint_timer (state w)).

Ltac push_state :=
  cbv beta delta [and_then skip] in *;
  cbn [on_app state hal
       screen inverter powered cursor first_visible active help_top_line limit_runtime
       arrow_captcha notif led_timer led_on pwm_running hint_visible hint_timer
       tick_timer off_timer remaining_ms timeout_expired
       set_screen set_inverter set_powered set_cursor set_first_visible set_active
       set_help_top_line set_limit_runtime set_arrow_captcha set_led_timer set_led_on
       set_pwm_running set_hint_visible set_hint_timer set_tick_timer set_off_timer
       set_remaining_ms set_timeout_expired] in *.

Ltac gen t :=
  repeat match goal with
         | H : context [t] |- _ => revert H
         end;
  generalize t; intro; intros.

(** Powered on, then Help opened from the powered menu (its last row). *)
Definition trace_help_from_powered : list Step :=
  press InputKeyOk false ++ press InputKeyOk true
  ++ press InputKeyUp false ++ press InputKeyOk false.

(** ** Time

    [furi_timer_start(t, ticks)] makes the timer service run the callback
    [ticks] after the call (one tick is one millisecond on this target),
    once for a [FuriTimerTypeOnce] timer; [furi_timer_stop] cancels it.
    A clocked run gives every step the time [dt] that passes before it
    and follows the expiry timer through the service: [off_since] is the
    instant of the [furi_timer_start] call that the running expiry timer
    was last started by.  The expiry timer fires at that instant plus its
    delay, neither earlier nor later, while it runs.  The main thread and
    the other three timers are left free in time: any step of theirs may
    come after any delay. *)

Definition is_off_start (c : HalCall) : bool :=
  match c with
  | HTimerStart CbOff _ => true
  | _ => false
  end.

(** The number of [furi_timer_start] calls made on the expiry timer. *)
Definition off_starts (w : World) : nat :=
  List.length (filter is_off_start (hal_log (hal w))).

(** The delay the expiry timer was last started with, while it runs. *)
Definition off_delay (s : AppState) : option Z :=
  match off_timer s with
  | Some t => t_armed t
  | None => None
  end.

Record Clocked := { loop_of : Loop; now : Z; off_since : option Z }.

Definition clock_init : Clocked :=
  {| loop_of := init_loop; now := 0; off_since := None |}.

(** The instant the running expiry timer is due at. *)
Definition off_due (c : Clocked) : option Z :=
  match off_since c, off_delay (state (world (loop_of c))) with
  | Some t0, Some d => Some (t0 + d)
  | _, _ => None
  end.

(** One step, [dt] ms after the previous one.  Time does not pass the
    instant the expiry timer is due at; the timer fires at that instant. *)
Definition tstep (dt : Z) (st : Step) (c : Clocked) : option Clocked :=
  let t := now c + dt in
  if (0 <=? dt) && (match off_due c with Some d => t <=? d | None => true end) then
    match st with
    | StFire CbOff =>
        match off_due c with
        | Some d =>
            if t =? d then
              match step st (loop_of c) with
              | Some l' => Some {| loop_of := l'; now := t; off_since := None |}
              | None => None
              end
            else None
        | None => None
        end
    | _ =>
        match step st (loop_of c) with
        | Some l' =>
            Some {| loop_of := l'; now := t;
                    off_since :=
                      if timer_armed CbOff (state (world l')) then
                        if (off_starts (world (loop_of c)) <? off_starts (world l'))%nat
                        then Some t
                        else off_since c
                      else None |}
        | None => None
        end
    end
  else None.

Fixpoint trun (tr : list (Z * Step)) (c : Clocked) : option Clocked :=
  match tr with
  | [] => Some c
  | (dt, st) :: tr' =>
      match tstep dt st c with
      | Some c' => trun tr' c'
      | None => None
      end
  end.

(** The steps of a clocked run. *)
Definition untimed (tr : list (Z * Step)) : list Step := map snd tr.

(** What a step of the main thread or of another timer can do to the
    expiry timer: if it runs afterwards, it was started by this step or
    is as it was. *)
Definition off_kept (w w' : World) : Prop :=
  (off_starts w <= off_starts w')%nat /\
  (timer_armed CbOff (state w') = true ->
   (off_starts w < off_starts w')%nat \/
   ((off_starts w' = off_starts w)%nat /\ off_timer (state w') = off_timer (state w))).

(** The clock agrees with the expiry timer: while it runs, the instant
    it was started at is known, lies in the past, and the timer is not
    overdue. *)
Definition ClockInv (c : Clocked) : Prop :=
  forall d, off_delay (state (world (loop_of c))) = Some d ->
  exists t0, off_since c = Some t0 /\ t0 <= now c <= t0 + d.

(** Every step [dt] ms apart. *)
Definition paced (dt : Z) (tr : list Step) : list (Z * Step) :=
  map (fun st => (dt, st)) tr.

(** "Low speed" is started at 800 ms; its expiry timer fires 120 s later,
    during the queue wait, and the next loop head handles it. *)
Definition ttrace_expiry_handled : list (Z * Step) :=
  paced 100 trace_low_speed
  ++ [(100, StHead); (119900, StFire CbOff); (50, StNoInput); (0, StHead)].

(** "Low speed" runs with the cursor on "Mid speed"; the expiry timer
    fires 120 s after it was started, and OK arrives 10 ms later, before
    the queue wait ends. *)
Definition ttrace_expiry_discarded : list (Z * Step) :=
  paced 100 (trace_low_speed ++ press InputKeyDown false)
  ++ [(100, StHead); (119700, StFire CbOff);
      (10, StInput (short InputKeyOk) false); (0, StHead)].

(** * Properties *)

(** ** The invariant holds along every run *)

Lemma inv_init : Inv init_world.
Proof. eval_world. close_inv. Qed.

(** Fields no component of the invariant reads. *)
Lemma inv_set_first_visible v w : Inv w -> Inv (on_app (set_first_visible v) w).
Proof. intros H. expose w. open_inv H. norm_inv. constructor; assumption. Qed.

Lemma inv_set_remaining_ms v w : Inv w -> Inv (on_app (set_remaining_ms v) w).
Proof. intros H. expose w. open_inv H. norm_inv. constructor; assumption. Qed.

Lemma inv_set_hint_visible v w : Inv w -> Inv (on_app (set_hint_visible v) w).
Proof. intros H. expose w. open_inv H. norm_inv. constructor; assumption. Qed.

Lemma inv_set_arrow_captcha v w : Inv w -> Inv (on_app (set_arrow_captcha v) w).
Proof. intros H. expose w. open_inv H. norm_inv. constructor; assumption. Qed.

Lemma inv_set_arrow_captcha' f w :
  Inv w -> Inv (on_app (fun s => set_arrow_captcha (f s) s) w).
Proof. intros H. expose w. open_inv H. norm_inv. constructor; assumption. Qed.

Lemma inv_when b c w : (forall w, Inv w -> Inv (c w)) -> Inv w -> Inv (when b c w).
Proof. intros Hc H. unfold when. destruct (b w); auto. Qed.

Lemma apply_mode_inv idx w : 0 <= idx < 4 -> Inv w -> Inv (apply_mode idx w).
Proof.
  intros Hi H. expose w. open_inv H. norm_inv.
  enum idx 4%nat;
    destruct pr, pw, lim, nt, lt as [[? ? ?]|], tt as [[? ? ?]|], ot as [[? ? ?]|];
    crunch.
Qed.


Lemma consume_timeout_inv w : Inv w -> Inv (consume_timeout w).
Proof.
  intros H. unfold consume_timeout, when.
  destruct (timeout_expired (state w)) eqn:E; [ | assumption ].
  expose w. open_inv H. norm_inv. subst te.
  destruct inv, pw, pr, nt, lt as [[? ? ?]|], tt as [[? ? ?]|], ot as [[? ? ?]|];
    crunch.
Qed.


Lemma fire_inv cb w w' : Inv w -> fire cb w = Some w' -> Inv w'.
Proof.
  intros H Hf. unfold fire in Hf.
  destruct (timer_slot cb (state w)) as [[ty tcb [d|]]|] eqn:Et; try discriminate.
  cbn [t_armed t_type t_cb] in Hf. injection Hf as <-.
  destruct cb; cbn [timer_slot] in Et.
  - expose w; open_inv H; norm_inv; subst. destruct Hlw as [-> ->]. destruct lo; crunch.
  - expose w; open_inv H; norm_inv; subst. destruct Hhw as [-> ->]. crunch.
  - pose proof (inv_tick_wf _ H) as Hw. unfold timer_wf in Hw. cbn [timer_slot] in Hw.
    rewrite Et in Hw. cbn [t_cb t_type] in Hw. destruct Hw as [-> ->].
    cbv beta iota delta [and_then skip run_callback tick_timer_cb].
    destruct (1000 <=? remaining_ms (state w)); apply inv_set_remaining_ms; exact H.
  - expose w; open_inv H; norm_inv; subst. destruct Hfw as [-> ->].
    destruct te, pw, lim; crunch.
Qed.

Lemma inv_upd_first_visible f w :
  Inv w -> Inv (on_app (fun s => set_first_visible (f s) s) w).
Proof. intros H. expose w. open_inv H. norm_inv. constructor; assumption. Qed.

Lemma enter_powered_menu_standby_inv w : Inv w -> Inv (enter_powered_menu_standby w).
Proof.
  intros H. expose w. open_inv H. norm_inv.
  destruct inv, pw, pr, nt, lt as [[? ? ?]|], tt as [[? ? ?]|], ot as [[? ? ?]|];
    crunch.
Qed.

Lemma enter_safe_menu_inv w : Inv w -> Inv (enter_safe_menu w).
Proof.
  intros H. expose w. open_inv H. norm_inv.
  destruct pr, nt, lt as [[? ? ?]|], tt as [[? ? ?]|], ot as [[? ? ?]|]; crunch.
Qed.

Lemma enter_safe_menu_screen w :
  screen (state (enter_safe_menu w)) = screen (state w).
Proof.
  expose w. destruct pr, nt, lt as [[? ? ?]|], tt as [[? ? ?]|], ot as [[? ? ?]|];
    reflexivity.
Qed.

Lemma switch_inverter_inv i w :
  Inv w ->
  Inv ((on_app (set_inverter i) ;; enter_safe_menu ;; on_app (set_screen ScreenMenu)) w).
Proof.
  intros H. expose w. open_inv H. norm_inv.
  destruct i, pr, nt, lt as [[? ? ?]|], tt as [[? ? ?]|], ot as [[? ? ?]|]; crunch.
Qed.

Lemma show_hint_inv w : Inv w -> Inv (show_hint w).
Proof.
  intros H. expose w. open_inv H. norm_inv.
  destruct ht as [[? ? ?]|]; crunch.
Qed.

Lemma open_settings_inv w :
  Inv w ->
  Inv ((on_app (set_screen ScreenSettings) ;; on_app (set_cursor 0) ;;
        on_app (set_first_visible 0)) w).
Proof. intros H. expose w. open_inv H. norm_inv. crunch. Qed.

Lemma help_max_top_bounds inv : 0 <= help_max_top inv <= 32.
Proof. destruct inv; vm_compute; split; discriminate. Qed.

Lemma open_help_inv w :
  screen (state w) = ScreenMenu -> Inv w ->
  Inv ((on_app (set_screen ScreenHelp) ;; on_app (set_help_top_line 0)) w).
Proof.
  intros Es H. expose w. open_inv H. norm_inv. subst sc. crunch.
  intros _. pose proof (help_max_top_bounds inv). lia.
Qed.

Lemma limit_off_inv w :
  Inv w ->
  Inv ((on_app (set_limit_runtime false) ;; stop_timers ;; on_app (set_remaining_ms 0)) w).
Proof.
  intros H. expose w. open_inv H. norm_inv.
  destruct pw, te, tt as [[? ? ?]|], ot as [[? ? ?]|]; crunch.
Qed.

Lemma limit_on_inv w :
  Inv w ->
  Inv ((on_app (set_limit_runtime true) ;; start_tick_timer_if_needed) w).
Proof.
  intros H. expose w. open_inv H. norm_inv.
  enum act 4%nat; destruct pw, tt as [[? ? ?]|], ot as [[? ? ?]|]; crunch.
Qed.


Lemma input_select_inverter_inv ev w :
  screen (state w) = ScreenSelectInverter -> Inv w -> Inv (input_select_inverter ev w).
Proof.
  intros Es H. destruct ev as [ty k].
  destruct ty, k; cbv beta iota zeta delta [input_select_inverter type key skip];
    try same_world H; try (apply show_hint_inv; exact H).
  all: try (destruct (cursor (state w) =? 0); apply switch_inverter_inv; exact H).
  all: expose w; open_inv H; norm_inv; subst sc; enum cur 2%nat; crunch.
Qed.

Lemma help_scroll_inv f w :
  screen (state w) = ScreenHelp ->
  0 <= f (state w) <= help_max_top (inverter (state w)) ->
  Inv w -> Inv (on_app (fun s => set_help_top_line (u8 (f s)) s) w).
Proof.
  intros Es Hv H. pose proof (help_max_top_bounds (inverter (state w))).
  assert (E : u8 (f (state w)) = f (state w)) by (unfold u8; apply Z.mod_small; lia).
  expose w. open_inv H. norm_inv. unfold_cmds. constructor; norm_inv; try assumption.
  intros _. rewrite E. exact Hv.
Qed.

Lemma input_help_inv ev w :
  screen (state w) = ScreenHelp -> Inv w -> Inv (input_help ev w).
Proof.
  intros Es H. pose proof (inv_help _ H Es) as Hb. destruct ev as [ty k].
  destruct ty, k; cbv beta iota zeta delta [input_help type key];
    try same_world H; fold (help_max_top (inverter (state w))).
  all: try match goal with
       | |- context [if ?b then _ else _] =>
           destruct b eqn:E; [ | exact H ];
           apply (help_scroll_inv _ w Es); [ lia | exact H ]
       end.
  all: clear Hb; expose w; open_inv H; norm_inv; subst sc; crunch.
Qed.

Lemma input_settings_inv ev c w :
  screen (state w) = ScreenSettings -> Inv w -> Inv (input_settings ev c w).
Proof.
  intros Es H. destruct ev as [ty k].
  destruct ty, k; cbv beta iota zeta delta [input_settings type key];
    try same_world H.
  - (* up *)
    destruct (cursor (state w) =? 0) eqn:E0; cbv beta delta [and_then].
    + apply inv_upd_first_visible.
      expose w; open_inv H; norm_inv; subst sc; crunch.
    + apply inv_when; [ intros; apply inv_upd_first_visible; assumption | ].
      expose w; open_inv H; norm_inv; subst sc; enum cur 5%nat; crunch.
  - (* down *)
    destruct (cursor (state w) =? u8 (SETTINGS_ROW_TOTAL - 1)) eqn:E0; cbv beta delta [and_then].
    + apply inv_upd_first_visible.
      expose w; open_inv H; norm_inv; subst sc; crunch.
    + apply inv_when; [ intros; apply inv_upd_first_visible; assumption | ].
      expose w; open_inv H; norm_inv; subst sc; enum cur 5%nat; crunch.
  - (* ok *)
    destruct (cursor (state w) =? 0).
    { destruct (limit_runtime (state w)).
      - destruct c; [ apply limit_off_inv | ]; exact H.
      - apply limit_on_inv; exact H. }
    destruct (cursor (state w) =? 1).
    { apply (inv_set_arrow_captcha' _ w H). }
    destruct (cursor (state w) =? 3).
    { unfold settings_select_inverter. apply inv_when; [ | exact H ].
      intros; apply switch_inverter_inv; assumption. }
    destruct (cursor (state w) =? 4); [ | exact H ].
    unfold settings_select_inverter. apply inv_when; [ | exact H ].
    intros; apply switch_inverter_inv; assumption.
  - (* back *)
    expose w; open_inv H; norm_inv; subst sc; crunch.
Qed.

Lemma input_menu_inv ev c w :
  screen (state w) = ScreenMenu -> Inv w -> Inv (input_menu ev c w).
Proof.
  intros Es H. destruct ev as [ty k].
  destruct ty, k; cbv beta iota zeta delta [input_menu type key];
    try same_world H.
  - (* up *)
    destruct (cursor (state w) =? 0) eqn:E0; cbv beta delta [and_then].
    + apply inv_upd_first_visible.
      expose w; open_inv H; norm_inv; subst sc; destruct pw; crunch.
    + apply inv_when; [ intros; apply inv_upd_first_visible; assumption | ].
      expose w; open_inv H; norm_inv; subst sc; destruct pw;
        [ enum cur 7%nat | enum cur 3%nat ]; crunch.
  - (* down *)
    destruct (cursor (state w) =? u8 (menu_row_total (state w) - 1)) eqn:E0;
      cbv beta delta [and_then].
    + apply inv_upd_first_visible.
      expose w; open_inv H; norm_inv; subst sc; destruct pw; crunch.
    + apply inv_when; [ intros; apply inv_upd_first_visible; assumption | ].
      expose w; open_inv H; norm_inv; subst sc; destruct pw;
        [ enum cur 7%nat | enum cur 3%nat ]; crunch.
  - (* ok *)
    pose proof (inv_cursor _ H) as Hc. unfold cursor_ok, selectable in Hc.
    rewrite Es in Hc. unfold menu_row_total in Hc.
    destruct (powered (state w)).
    + destruct (cursor (state w) <? MODE_COUNT) eqn:E1.
      { apply apply_mode_inv; [ change MODE_COUNT with 4 in E1; lia | exact H ]. }
      destruct (cursor (state w) =? MODE_COUNT).
      { apply enter_safe_menu_inv; exact H. }
      destruct (cursor (state w) =? MODE_COUNT + 1).
      { apply open_settings_inv; exact H. }
      cbv beta delta [and_then].
      apply (open_help_inv (enter_safe_menu w)); [ | apply enter_safe_menu_inv; exact H ].
      rewrite enter_safe_menu_screen. exact Es.
    + destruct (cursor (state w) =? 0).
      { destruct c; [ apply enter_powered_menu_standby_inv | ]; exact H. }
      destruct (cursor (state w) =? 1).
      { apply open_settings_inv; exact H. }
      apply open_help_inv; assumption.
  - (* back *)
    apply show_hint_inv; exact H.
Qed.

Lemma handle_input_inv ev c w : Inv w -> Inv (handle_input ev c w).
Proof.
  intros H. unfold handle_input. destruct (screen (state w)) eqn:Es.
  - apply input_select_inverter_inv; assumption.
  - apply input_menu_inv; assumption.
  - apply input_help_inv; assumption.
  - apply input_settings_inv; assumption.
Qed.

Lemma step_inv st l l' : Inv (world l) -> step st l = Some l' -> Inv (world l').
Proof.
  intros H Hs. destruct l as [w ph]. cbn [world] in H. unfold step in Hs.
  cbn [world phase] in Hs.
  destruct st as [ | ev c | | cb ].
  - destruct ph; inversion Hs; subst; cbn [world]. apply consume_timeout_inv; exact H.
  - destruct ph; try discriminate. destruct (is_long_back ev); inversion Hs; subst.
    cbn [world]. apply handle_input_inv; exact H.
  - destruct ph; inversion Hs; subst; exact H.
  - destruct (fire cb w) as [w'|] eqn:Ef; inversion Hs; subst; cbn [world].
    eapply fire_inv; eassumption.
Qed.

Lemma run_inv tr : forall l l', Inv (world l) -> run tr l = Some l' -> Inv (world l').
Proof.
  induction tr as [ | st tr IH ]; intros l l' H Hr; cbn [run] in Hr.
  - inversion Hr; subst; exact H.
  - destruct (step st l) as [l1|] eqn:Es; [ | discriminate ].
    eapply IH; [ eapply step_inv; eassumption | exact Hr ].
Qed.

Lemma reachable_inv l : Reachable l -> Inv (world l).
Proof.
  intros [tr Hr]. eapply run_inv; [ | exact Hr ]. exact inv_init.
Qed.

Lemma default_secs_range i : 0 <= default_secs (mode_at i) <= 120.
Proof.
  unfold mode_at. destruct (Z.to_nat i) as [ | [ | [ | [ | [ | n ] ] ] ] ];
    cbn; lia.
Qed.

(** ** Mode controller *)

(** C1. For every mode id [m < 4], after [apply_mode m]: when the mode's
    frequency is 0 the PWM unit is stopped, the pin is driven push-pull
    low, both countdown timers are stopped, [remaining_ms = 0] and
    [timeout_expired = false]; otherwise a running signal is stopped
    first, the PWM unit then runs at the mode's frequency (50 % duty), and
    no later call touches the pin, which stays on the timer output. *)
Theorem apply_mode_output (m : Z) (w : World) :
  pwm_tracked w -> 0 <= m < MODE_COUNT ->
  let w' := apply_mode m w in
  let f := freq_hz (mode_at m) in
  (f = 0 ->
     pwm (hal w') = None /\ pwm_running (state w') = false /\
     pin_mode (hal w') = GpioModeOutputPushPull /\ pin_level (hal w') = false /\
     timer_armed CbTick (state w') = false /\
     timer_armed CbOff (state w') = false /\
     remaining_ms (state w') = 0 /\ timeout_expired (state w') = false)
  /\
  (f <> 0 ->
     pwm (hal w') = Some (f, 50) /\ pwm_running (state w') = true /\
     pin_mode (hal w') = GpioModeAltFunctionPushPull /\
     exists rest,
       calls w' =
         calls w
         ++ (if pwm_running (state w) then [HPwmStop; HDelayMs 1] else [])
         ++ HPwmStart f 50 :: rest
       /\ leaves_output_alone rest = true).
Proof.
  intros Hp Hm. change MODE_COUNT with 4 in Hm. cbv zeta.
  expose w. unfold pwm_tracked in Hp. norm_inv.
  enum m 4%nat;
    (split; intros Hf; [ try (exfalso; vm_compute in Hf; congruence)
                       | try (exfalso; apply Hf; reflexivity) ]); clear Hf.
  4: { destruct pr, pwm_ as [?|], tt as [[? ? ?]|], ot as [[? ? ?]|],
         lt as [[? ? ?]|], nt; try discriminate; repeat split; reflexivity. }
  all: destruct pr, pw, lim, tt as [[? ? ?]|], ot as [[? ? ?]|], lt as [[? ? ?]|], nt.
  all: (split; [ reflexivity | split; [ reflexivity | split; [ reflexivity | ] ] ]).
  all: unfold calls;
    match goal with
    | |- context [hal_log (hal (apply_mode ?i ?W))] =>
        let L := eval vm_compute in (hal_log (hal (apply_mode i W))) in
        change (hal_log (hal (apply_mode i W))) with L
    end; cbn [pwm_running state hal hal_log]; norm_log.
  all: eexists; split; reflexivity.
Qed.

Lemma apply_mode_output_witness :
  pwm_tracked (world_after trace_low_speed) /\ 0 <= 2 < MODE_COUNT /\
  pwm (hal (apply_mode 2 (world_after trace_low_speed))) = Some (100, 50).
Proof.
  assert (Hp : pwm_tracked (world_after trace_low_speed))
    by (vm_compute; reflexivity).
  assert (Hm : 0 <= 2 < MODE_COUNT) by (change MODE_COUNT with 4; lia).
  split; [ exact Hp | split; [ exact Hm | ] ].
  apply (apply_mode_output 2 (world_after trace_low_speed) Hp Hm).
  discriminate.
Defined.

(** C3. After [enter_safe_menu], whatever the state it is called in (the
    tracked PWM flag and the notification handle are as every call site
    has them): [powered] is false, [cursor] and [first_visible] are 0, the
    PWM unit is stopped, the pin is a floating input, the 5 V rail is
    switched off by an unconditional [furi_hal_power_disable_otg], the LED
    is off and its blink timer is gone, both countdown timers are stopped,
    [remaining_ms = 0] and [timeout_expired = false]. *)
Theorem enter_safe_menu_safe (w : World) :
  pwm_tracked w -> notif (state w) = true ->
  let w' := enter_safe_menu w in
  powered (state w') = false /\ cursor (state w') = 0 /\
  first_visible (state w') = 0 /\
  pwm (hal w') = None /\ pwm_running (state w') = false /\
  pin_mode (hal w') = GpioModeInput /\
  otg (hal w') = false /\
  (exists before after, calls w' = calls w ++ before ++ HPowerDisableOtg :: after) /\
  led_green (hal w') = false /\ led_on (state w') = false /\
  led_timer (state w') = None /\
  timer_armed CbTick (state w') = false /\ timer_armed CbOff (state w') = false /\
  remaining_ms (state w') = 0 /\ timeout_expired (state w') = false.
Proof.
  intros Hp Hn. cbv zeta. expose w. unfold pwm_tracked in Hp. norm_inv. subst nt.
  destruct pr, pwm_ as [?|], lt as [[? ? ?]|], tt as [[? ? ?]|], ot as [[? ? ?]|];
    try discriminate.
  all: repeat match goal with |- _ /\ _ => split end; try reflexivity.
  all: unfold calls;
    match goal with
    | |- context [hal_log (hal (enter_safe_menu ?W))] =>
        let L := eval vm_compute in (hal_log (hal (enter_safe_menu W))) in
        change (hal_log (hal (enter_safe_menu W))) with L
    end; cbn [state hal hal_log]; norm_log.
  all: first [ exists [HGpioInit GpioModeInput]; eexists; reflexivity
             | exists [HPwmStop; HDelayMs 1; HGpioInit GpioModeInput]; eexists; reflexivity ].
Qed.

Lemma enter_safe_menu_safe_witness :
  pwm_tracked (world_after trace_low_speed) /\
  notif (state (world_after trace_low_speed)) = true /\
  otg (hal (enter_safe_menu (world_after trace_low_speed))) = false.
Proof.
  assert (Hp : pwm_tracked (world_after trace_low_speed))
    by (vm_compute; reflexivity).
  assert (Hn : notif (state (world_after trace_low_speed)) = true)
    by (vm_compute; reflexivity).
  split; [ exact Hp | split; [ exact Hn | ] ].
  apply (enter_safe_menu_safe (world_after trace_low_speed) Hp Hn).
Defined.

(** ** Screen state machine *)

(** C4. In the unpowered Menu with the cursor on "Power on", a confirmed
    OK leaves [powered = true], [cursor = first_visible = 0],
    [active = 0], the pin driven push-pull low, the PWM unit stopped, and
    the 5 V rail on exactly when the inverter profile is Samsung. *)
Theorem power_on_confirmed (l : Loop) :
  Reachable l ->
  screen (state (world l)) = ScreenMenu ->
  powered (state (world l)) = false ->
  cursor (state (world l)) = 0 ->
  let w' := handle_input (short InputKeyOk) true (world l) in
  powered (state w') = true /\ cursor (state w') = 0 /\
  first_visible (state w') = 0 /\ active (state w') = 0 /\
  pin_mode (hal w') = GpioModeOutputPushPull /\ pin_level (hal w') = false /\
  pwm (hal w') = None /\ pwm_running (state w') = false /\
  inverter (state w') = inverter (state (world l)) /\
  otg (hal w') = InverterId_eqb (inverter (state (world l))) InvSamsung.
Proof.
  intros Hr Es Epw Ec. apply reachable_inv in Hr. destruct l as [w ph].
  cbn [world] in *. cbv zeta. unfold handle_input. rewrite Es.
  cbv beta iota zeta delta [input_menu short type key]. rewrite Epw, Ec.
  change (0 =? 0) with true. cbv iota.
  expose w. open_inv Hr. norm_inv. subst.
  destruct inv, pwm_ as [?|], lt as [[? ? ?]|], tt as [[? ? ?]|], ot as [[? ? ?]|];
    repeat split; reflexivity.
Qed.

Lemma power_on_confirmed_witness :
  Reachable (Build_Loop (world_after (press InputKeyOk false)) InQueueGet) /\
  otg (hal (handle_input (short InputKeyOk) true
              (world_after (press InputKeyOk false)))) = false.
Proof.
  assert (Hr : Reachable (Build_Loop (world_after (press InputKeyOk false)) InQueueGet)).
  { exists (press InputKeyOk false ++ [StHead]). vm_compute. reflexivity. }
  split; [ exact Hr | ].
  apply (power_on_confirmed _ Hr); vm_compute; reflexivity.
Defined.

(** C6. In Settings with the cursor on "Limit run time" and the limit on,
    OK with the dialog confirmed turns [limit_runtime] off, stops both
    countdown timers (neither can fire any more) and sets
    [remaining_ms = 0]; with the dialog declined the state is unchanged. *)
Theorem settings_disable_limit (w : World) (confirm : bool) :
  screen (state w) = ScreenSettings ->
  cursor (state w) = 0 ->
  limit_runtime (state w) = true ->
  let w' := handle_input (short InputKeyOk) confirm w in
  if confirm then
    limit_runtime (state w') = false /\
    timer_armed CbTick (state w') = false /\ timer_armed CbOff (state w') = false /\
    fire CbTick w' = None /\ fire CbOff w' = None /\
    remaining_ms (state w') = 0
  else w' = w.
Proof.
  intros Es Ec El. cbv zeta. unfold handle_input. rewrite Es.
  cbv beta iota zeta delta [input_settings short type key]. rewrite Ec, El.
  change (0 =? 0) with true. cbv iota.
  destruct confirm; [ | reflexivity ].
  expose w. destruct tt as [[? ? ?]|], ot as [[? ? ?]|]; repeat split; reflexivity.
Qed.

Lemma settings_disable_limit_witness :
  let w := world_after trace_settings_while_running in
  screen (state w) = ScreenSettings /\ cursor (state w) = 0 /\
  limit_runtime (state w) = true /\ timer_armed CbOff (state w) = true /\
  timer_armed CbOff (state (handle_input (short InputKeyOk) true w)) = false /\
  handle_input (short InputKeyOk) false w = w.
Proof.
  cbv zeta.
  assert (Es : screen (state (world_after trace_settings_while_running)) = ScreenSettings)
    by (vm_compute; reflexivity).
  assert (Ec : cursor (state (world_after trace_settings_while_running)) = 0)
    by (vm_compute; reflexivity).
  assert (El : limit_runtime (state (world_after trace_settings_while_running)) = true)
    by (vm_compute; reflexivity).
  split; [ exact Es | split; [ exact Ec | split; [ exact El | ] ] ].
  split; [ vm_compute; reflexivity | ].
  split.
  - apply (settings_disable_limit _ true Es Ec El).
  - apply (settings_disable_limit _ false Es Ec El).
Defined.

(** C9. On every screen a short BACK leaves [powered], [active],
    [pwm_running], the pin, the PWM unit and the 5 V rail as they were:
    apart from [screen], [cursor], [first_visible], [hint_visible] and
    [hint_timer] no field changes, and the only HAL calls are those that
    create and start the hint timer.  On SelectInverter and Menu it shows
    the hint (armed for 1500 ms) and stays; on Help it returns to Menu; on
    Settings it returns to Menu with cursor and window reset. *)
Theorem short_back_frame (w : World) (confirm : bool) :
  let w' := handle_input (short InputKeyBack) confirm w in
  powered (state w') = powered (state w) /\
  active (state w') = active (state w) /\
  pwm_running (state w') = pwm_running (state w) /\
  hardware w' = hardware w /\
  forget_navigation (state w') = forget_navigation (state w) /\
  (exists hint_calls,
      calls w' = calls w ++ hint_calls /\ forallb is_hint_call hint_calls = true) /\
  match screen (state w) with
  | ScreenSelectInverter | ScreenMenu =>
      screen (state w') = screen (state w) /\
      cursor (state w') = cursor (state w) /\
      first_visible (state w') = first_visible (state w) /\
      hint_visible (state w') = true /\
      timer_armed CbHint (state w') = true /\
      armed_with CbHint 1500 (state w')
  | ScreenHelp =>
      screen (state w') = ScreenMenu /\
      cursor (state w') = cursor (state w) /\
      first_visible (state w') = first_visible (state w) /\
      hint_visible (state w') = hint_visible (state w) /\
      hint_timer (state w') = hint_timer (state w)
  | ScreenSettings =>
      screen (state w') = ScreenMenu /\
      cursor (state w') = 0 /\ first_visible (state w') = 0 /\
      hint_visible (state w') = hint_visible (state w) /\
      hint_timer (state w') = hint_timer (state w)
  end.
Proof.
  cbv zeta. expose w.
  destruct sc, ht as [[? ? ?]|];
    cbv beta iota delta [screen state];
    repeat match goal with |- _ /\ _ => split end; try reflexivity.
  all: unfold calls;
    match goal with
    | |- context [hal_log (hal (handle_input ?e ?c ?W))] =>
        let L := eval vm_compute in (hal_log (hal (handle_input e c W))) in
        change (hal_log (hal (handle_input e c W))) with L
    end; cbn [state hal hal_log]; norm_log.
  all: first [ exists []; split; [ symmetry; apply app_nil_r | reflexivity ]
             | eexists; split; reflexivity ].
Qed.

(** ** Indicator *)

Lemma led_toggle_ms_eq hz :
  0 < hz < 256 -> led_toggle_ms hz = Z.max 1 (500 / hz).
Proof.
  intros H. unfold led_toggle_ms, u32.
  rewrite (Z.mod_small (hz * 2)) by lia.
  replace 1000 with (500 * 2) by reflexivity.
  rewrite Z.div_mul_cancel_r by lia.
  assert (1 <= 500 / hz) by (apply Z.div_le_lower_bound; lia).
  assert (500 / hz <= 500) by (apply Z.div_le_upper_bound; lia).
  rewrite Z.mod_small by lia.
  destruct (500 / hz =? 0) eqn:E; lia.
Qed.

(** C8. [led_apply] with a rate in the range of [uint8_t]: an existing
    toggle timer is stopped and freed and the LED is switched off; with
    rate 0 nothing is scheduled; with a rate above 0 a fresh periodic
    timer is created and started with period [max 1 (500 / rate)]
    milliseconds. *)
Theorem led_apply_rate (hz : Z) (w : World) :
  0 <= hz < 256 ->
  let w' := led_apply hz w in
  let teardown :=
    if has_timer CbLed w then [HTimerStop CbLed; HTimerFree CbLed] else [] in
  let off := if notif (state w) then [HNotification false] else [] in
  let period := Z.max 1 (500 / hz) in
  led_on (state w') = false /\
  (notif (state w) = true -> led_green (hal w') = false) /\
  (hz = 0 ->
     led_timer (state w') = None /\
     calls w' = calls w ++ teardown ++ off) /\
  (0 < hz ->
     led_timer (state w') =
       Some {| t_type := FuriTimerTypePeriodic; t_cb := CbLed;
               t_armed := Some period |} /\
     calls w' =
       calls w ++ teardown ++ off
       ++ [HTimerAlloc CbLed FuriTimerTypePeriodic; HTimerStart CbLed period]).
Proof.
  intros Hz. cbv zeta.
  assert (E : led_apply hz w =
              (when (has_timer CbLed)
                 (furi_timer_stop CbLed ;; furi_timer_free CbLed ;;
                  on_app (set_led_timer None)) ;;
               on_app (set_led_on false) ;; led_set false ;;
               (if hz =? 0 then skip
                else furi_timer_alloc CbLed FuriTimerTypePeriodic ;;
                     furi_timer_start CbLed (led_toggle_ms hz))) w) by reflexivity.
  rewrite E. clear E.
  destruct (Z.eq_dec hz 0) as [-> | Hnz].
  - change (0 =? 0) with true. cbv iota.
    expose w. destruct lt as [[? ? ?]|], nt; unfold calls; unfold_cmds; norm_log;
      repeat split; try reflexivity; try (intros; lia).
    all: rewrite ?app_nil_r; reflexivity.
  - assert (Hb : (hz =? 0) = false) by lia. rewrite Hb.
    rewrite led_toggle_ms_eq by lia.
    expose w. destruct lt as [[? ? ?]|], nt; unfold calls; unfold_cmds; norm_log;
      repeat split; try reflexivity; try (intros; lia).
Qed.

Lemma led_apply_rate_witness :
  0 <= 4 < 256 /\
  led_timer (state (led_apply 4 init_world)) =
    Some {| t_type := FuriTimerTypePeriodic; t_cb := CbLed; t_armed := Some 125 |}.
Proof.
  assert (Hz : 0 <= 4 < 256) by lia.
  split; [ exact Hz | ].
  apply (led_apply_rate 4 init_world Hz). lia.
Defined.

(** ** Cursor *)

(** Decide the conditionals of a goal: by evaluation where the test is
    closed, by cases where it is not. *)
Ltac decide_ifs :=
  repeat match goal with
         | |- context [if ?b then _ else _] =>
             first [ let v := eval vm_compute in b in
                     lazymatch v with
                     | true => change b with true; cbv iota
                     | false => change b with false; cbv iota
                     end
                   | destruct b eqn:? ]
         end.

Ltac eval_nav :=
  repeat match goal with
         | |- context [cursor (state (handle_input ?e ?c ?x))] =>
             let v := eval vm_compute in (cursor (state (handle_input e c x))) in
             change (cursor (state (handle_input e c x))) with v
         | |- context [screen (state (handle_input ?e ?c ?x))] =>
             let v := eval vm_compute in (screen (state (handle_input e c x))) in
             change (screen (state (handle_input e c x))) with v
         | |- context [powered (state (handle_input ?e ?c ?x))] =>
             let v := eval vm_compute in (powered (state (handle_input e c x))) in
             change (powered (state (handle_input e c x))) with v
         | |- context [last_row ?x] =>
             let v := eval vm_compute in (last_row x) in change (last_row x) with v
         end;
  change first_row with 0.

Ltac between_rows :=
  let r := fresh "r" in
  let Hr := fresh "Hr" in
  intros r Hr;
  first [ exfalso; lia
        | assert (r = 2) by lia; subst r; reflexivity ].

Ltac nav_close :=
  split; [ reflexivity | ];
  split; [ reflexivity | ];
  split;
  [ let H := fresh in
    intros H; first [ discriminate H | reflexivity ]
  | let H := fresh in
    intros H;
    first [ exfalso; apply H; reflexivity
          | split; [ reflexivity | split; [ reflexivity | between_rows ] ] ] ].

(** One case of the navigation lemma: the handler with its window
    adjustment decided, then the fields of the result evaluated. *)
Ltac nav_case :=
  match goal with
  | |- context [handle_input ?e ?c ?x] =>
      let h := eval cbv beta iota zeta delta
                    [handle_input input_select_inverter input_menu input_settings
                     type key when and_then state screen] in (handle_input e c x) in
      change (handle_input e c x) with h
  end;
  decide_ifs;
  repeat match goal with
         | |- context [cursor (state ?x)] =>
             let v := eval vm_compute in (cursor (state x)) in
             progress change (cursor (state x)) with v
         | |- context [screen (state ?x)] =>
             let v := eval vm_compute in (screen (state x)) in
             progress change (screen (state x)) with v
         | |- context [powered (state ?x)] =>
             let v := eval vm_compute in (powered (state x)) in
             progress change (powered (state x)) with v
         | |- context [last_row ?x] =>
             let v := eval vm_compute in (last_row x) in
             progress change (last_row x) with v
         end;
  change first_row with 0;
  nav_close.

Lemma cursor_moves ev confirm w :
  Inv w ->
  screen (state w) <> ScreenHelp -> reacts (screen (state w)) ev = true ->
  let s := state w in
  let w' := handle_input ev confirm w in
  let c' := cursor (state w') in
  (key ev = InputKeyUp ->
     screen (state w') = screen s /\ powered (state w') = powered s /\
     (cursor s = first_row -> c' = last_row s) /\
     (cursor s <> first_row ->
        c' < cursor s /\ selectable s c' = true /\
        forall r, c' < r < cursor s -> selectable s r = false)) /\
  (key ev = InputKeyDown ->
     screen (state w') = screen s /\ powered (state w') = powered s /\
     (cursor s = last_row s -> c' = first_row) /\
     (cursor s <> last_row s ->
        cursor s < c' /\ selectable s c' = true /\
        forall r, cursor s < r < c' -> selectable s r = false)).
Proof.
  intros H Hs Hre. pose proof (inv_cursor _ H) as Hc. clear H.
  unfold cursor_ok, selectable, menu_row_total in Hc. cbv zeta.
  expose w. cbn [state screen cursor powered] in *.
  change (u8 (MODE_COUNT + 3)) with 7 in Hc. change SETTINGS_ROW_TOTAL with 5 in Hc.
  destruct ev as [ty k].
  destruct sc; [ | | congruence | ]; destruct ty, k; try discriminate Hre; clear Hre Hs;
    cbn [key]; (split; intros Hk; try discriminate Hk; clear Hk).
  - (* inverter selection, short UP *)
    assert (Hcur : 0 <= cur < 2) by lia. clear Hc. enum cur 2%nat; nav_case.
  - assert (Hcur : 0 <= cur < 2) by lia. clear Hc. enum cur 2%nat; nav_case.
  - (* inverter selection, repeat *)
    assert (Hcur : 0 <= cur < 2) by lia. clear Hc. enum cur 2%nat; nav_case.
  - assert (Hcur : 0 <= cur < 2) by lia. clear Hc. enum cur 2%nat; nav_case.
  - (* menu *)
    destruct pw.
    + assert (Hcur : 0 <= cur < 7) by lia. clear Hc. enum cur 7%nat; nav_case.
    + assert (Hcur : 0 <= cur < 3) by lia. clear Hc. enum cur 3%nat; nav_case.
  - destruct pw.
    + assert (Hcur : 0 <= cur < 7) by lia. clear Hc. enum cur 7%nat; nav_case.
    + assert (Hcur : 0 <= cur < 3) by lia. clear Hc. enum cur 3%nat; nav_case.
  - (* settings *)
    assert (Hcur : 0 <= cur < 5 /\ cur <> 2) by lia. clear Hc. destruct Hcur as [Hcur Hne].
    enum cur 5%nat; try (exfalso; lia); nav_case.
  - assert (Hcur : 0 <= cur < 5 /\ cur <> 2) by lia. clear Hc. destruct Hcur as [Hcur Hne].
    enum cur 5%nat; try (exfalso; lia); nav_case.
Qed.

Lemma help_keeps_cursor ev confirm w :
  screen (state w) = ScreenHelp ->
  cursor (state (handle_input ev confirm w)) = cursor (state w).
Proof.
  intros Es. unfold handle_input. rewrite Es. unfold input_help.
  destruct ev as [ty k]. destruct ty, k; cbn [type key]; cbv zeta;
    try reflexivity;
    match goal with
    | |- context [if ?b then _ else _] => destruct b; reflexivity
    end.
Qed.

Lemma unhandled_keeps_world ev confirm w :
  reacts (screen (state w)) ev = false -> handle_input ev confirm w = w.
Proof.
  intros Hr. unfold handle_input. destruct ev as [ty k].
  destruct (screen (state w)), ty, k; try discriminate Hr; reflexivity.
Qed.

(** C7, as the code has it.  In every state the running application
    passes through the cursor is on a selectable row of the current
    screen, so in Settings it is never 2.  On the screens that show a
    list (SelectInverter, Menu, Settings) every UP or DOWN event the
    screen reacts to (a short press; on SelectInverter also a repeat)
    moves the cursor cyclically over the selectable rows of the same
    list: UP goes from the first selectable row to the last and from any
    other row to the nearest selectable row above it, DOWN goes from the
    last selectable row to the first and from any other row to the
    nearest selectable row below it.  On the Help screen UP and DOWN
    leave the cursor where it is, and so does every event the current
    screen does not react to. *)
Theorem cursor_navigation (l : Loop) :
  Reachable l ->
  let w := world l in
  let s := state w in
  selectable s (cursor s) = true /\
  (screen s = ScreenSettings -> cursor s <> 2) /\
  selectable s first_row = true /\ selectable s (last_row s) = true /\
  (forall r, selectable s r = true -> first_row <= r <= last_row s) /\
  (forall ev confirm,
     let w' := handle_input ev confirm w in
     let c' := cursor (state w') in
     (screen s <> ScreenHelp -> reacts (screen s) ev = true ->
      (key ev = InputKeyUp ->
         screen (state w') = screen s /\ powered (state w') = powered s /\
         (cursor s = first_row -> c' = last_row s) /\
         (cursor s <> first_row ->
            c' < cursor s /\ selectable s c' = true /\
            forall r, c' < r < cursor s -> selectable s r = false)) /\
      (key ev = InputKeyDown ->
         screen (state w') = screen s /\ powered (state w') = powered s /\
         (cursor s = last_row s -> c' = first_row) /\
         (cursor s <> last_row s ->
            cursor s < c' /\ selectable s c' = true /\
            forall r, cursor s < r < c' -> selectable s r = false))) /\
     (screen s = ScreenHelp -> c' = cursor s) /\
     (reacts (screen s) ev = false -> c' = cursor s)).
Proof.
  intros Hr. apply reachable_inv in Hr. destruct l as [w ph]. cbn [world] in *.
  cbv zeta. pose proof (inv_cursor _ Hr) as Hc. unfold cursor_ok in Hc.
  split; [ exact Hc | ].
  split.
  { intros Es E2. unfold selectable in Hc. rewrite Es, E2 in Hc. discriminate Hc. }
  split.
  { unfold selectable, first_row, menu_row_total.
    destruct (screen (state w)), (powered (state w)); reflexivity. }
  split.
  { unfold selectable, last_row, menu_row_total.
    destruct (screen (state w)), (powered (state w)); reflexivity. }
  split.
  { intros r. unfold selectable, first_row, last_row, menu_row_total.
    change (u8 (MODE_COUNT + 3)) with 7. change SETTINGS_ROW_TOTAL with 5.
    destruct (screen (state w)), (powered (state w)); lia. }
  intros ev confirm.
  split; [ | split ].
  - intros Hs Hre. exact (cursor_moves ev confirm w Hr Hs Hre).
  - apply help_keeps_cursor.
  - intros Hre. rewrite (unhandled_keeps_world ev confirm w Hre). reflexivity.
Qed.

Lemma cursor_navigation_witness :
  let l := Build_Loop (world_after trace_settings_while_running) AtLoopHead in
  Reachable l /\
  selectable (state (world l)) (cursor (state (world l))) = true /\
  cursor (state (world l)) = 0 /\ last_row (state (world l)) = 4 /\
  cursor (state (handle_input (short InputKeyUp) false (world l))) =
  last_row (state (world l)).
Proof.
  cbv zeta.
  assert (Hr : Reachable (Build_Loop (world_after trace_settings_while_running) AtLoopHead)).
  { exists trace_settings_while_running. vm_compute. reflexivity. }
  pose proof (cursor_navigation _ Hr) as H. cbv zeta in H.
  destruct H as (H1 & _ & _ & _ & _ & H6).
  split; [ exact Hr | split; [ exact H1 | ] ].
  split; [ vm_compute; reflexivity | split; [ vm_compute; reflexivity | ] ].
  destruct (H6 (short InputKeyUp) false) as [Hn _].
  refine (proj1 (proj2 (proj2 (proj1 (Hn _ _) _))) _);
    first [ reflexivity | (vm_compute; reflexivity) | (vm_compute; discriminate) ].
Defined.

(** C7 as stated fails on the Help screen and for repeat events on the
    Menu.  Help opened from the powered menu keeps the cursor on row 0,
    the first of the three rows of the unpowered menu, and a short UP
    there scrolls and leaves the cursor on row 0 instead of the last
    row; on the Menu a repeat UP on row 0 leaves the cursor on row 0,
    the Menu reacting to short presses only. *)
Lemma cursor_navigation_counterexample :
  (exists l,
     run trace_help_from_powered init_loop = Some l /\
     screen (state (world l)) = ScreenHelp /\
     cursor (state (world l)) = first_row /\
     last_row (state (world l)) = 2 /\
     cursor (state (handle_input (short InputKeyUp) false (world l))) = 0) /\
  (exists l,
     run (press InputKeyOk false) init_loop = Some l /\
     screen (state (world l)) = ScreenMenu /\
     cursor (state (world l)) = first_row /\
     last_row (state (world l)) = 2 /\
     cursor (state (handle_input {| type := InputTypeRepeat; key := InputKeyUp |}
                                 false (world l))) = 0).
Proof.
  split; (eexists; split; [ vm_compute; reflexivity | ]);
    repeat split; vm_compute; reflexivity.
Qed.

(** ** Countdown *)

Lemma start_tick_timer_if_needed_spec w :
  Inv w ->
  let s := state w in
  let w' := start_tick_timer_if_needed w in
  if gating s then
    remaining_ms (state w') = default_secs (mode_at (active s)) * 1000 /\
    tick_timer (state w') =
      Some {| t_type := FuriTimerTypePeriodic; t_cb := CbTick; t_armed := Some 1000 |} /\
    off_timer (state w') =
      Some {| t_type := FuriTimerTypeOnce; t_cb := CbOff;
              t_armed := Some (remaining_ms (state w')) |}
  else
    timer_armed CbTick (state w') = false /\ timer_armed CbOff (state w') = false /\
    remaining_ms (state w') = 0.
Proof.
  intros H. cbv zeta. expose w. open_inv H. norm_inv.
  enum act 4%nat; destruct pw, lim, tt as [[? ? ?]|], ot as [[? ? ?]|];
    repeat match goal with
           | H : _ = _ /\ _ = _ |- _ => destruct H as [? ?]; subst
           end;
    vm_compute; repeat split.
Qed.

(** C2, as the code has it.  In every state the running application
    passes through in which no expiry is pending
    ([timeout_expired = false]), the tick and the expiry timer are both
    running exactly when [powered], [limit_runtime], [active <> 0] and the
    active mode's [default_secs <> 0]; while an expiry is pending the
    one-shot expiry timer has stopped.  When the four conditions hold,
    [start_tick_timer_if_needed] sets [remaining_ms = default_secs * 1000],
    starts the tick timer (periodic) with 1000 ms and the expiry timer
    (one-shot) with [remaining_ms]; and a running tick or expiry timer
    always runs with those delays. *)
Theorem countdown_gating (l : Loop) :
  Reachable l ->
  let w := world l in
  let s := state w in
  (timeout_expired s = false ->
     (countdown_armed s = true <-> gating s = true) /\
     timer_armed CbTick s = gating s /\ timer_armed CbOff s = gating s) /\
  (timeout_expired s = true -> timer_armed CbOff s = false) /\
  (gating s = true ->
     let w' := start_tick_timer_if_needed w in
     remaining_ms (state w') = default_secs (mode_at (active s)) * 1000 /\
     tick_timer (state w') =
       Some {| t_type := FuriTimerTypePeriodic; t_cb := CbTick;
               t_armed := Some 1000 |} /\
     off_timer (state w') =
       Some {| t_type := FuriTimerTypeOnce; t_cb := CbOff;
               t_armed := Some (remaining_ms (state w')) |}) /\
  armed_with CbTick 1000 s /\
  armed_with CbOff (default_secs (mode_at (active s)) * 1000) s.
Proof.
  intros Hr. apply reachable_inv in Hr. destruct l as [w ph]. cbn [world] in *.
  cbv zeta.
  split; [ | split; [ exact (inv_pending _ Hr) | split ] ].
  - intros Hte. destruct (inv_countdown _ Hr Hte) as [Ht Ho].
    split; [ | split; assumption ].
    unfold countdown_armed. rewrite Ht, Ho.
    destruct (gating (state w)); intuition.
  - intros Hg. pose proof (start_tick_timer_if_needed_spec w Hr) as Hs.
    cbv zeta in Hs. rewrite Hg in Hs. exact Hs.
  - split; [ exact (inv_tick_period _ Hr) | exact (inv_off_delay _ Hr) ].
Qed.

Lemma countdown_gating_witness :
  let l := Build_Loop (world_after trace_low_speed) AtLoopHead in
  Reachable l /\ gating (state (world l)) = true /\
  timer_armed CbOff (state (world l)) = gating (state (world l)).
Proof.
  cbv zeta.
  assert (Hr : Reachable (Build_Loop (world_after trace_low_speed) AtLoopHead)).
  { exists trace_low_speed. vm_compute. reflexivity. }
  pose proof (countdown_gating _ Hr) as H. cbv zeta in H.
  destruct H as (H1 & _).
  split; [ exact Hr | split; [ vm_compute; reflexivity | ] ].
  refine (proj2 (proj2 (H1 _))). vm_compute. reflexivity.
Defined.

(** C2 as stated fails once the expiry timer has fired: the four
    conditions still hold, the tick timer still runs, and the one-shot
    expiry timer has stopped, while the main thread is between two
    events. *)
Lemma countdown_gating_counterexample :
  exists l,
    run trace_expiry_pending init_loop = Some l /\
    phase l = InQueueGet /\
    gating (state (world l)) = true /\
    timer_armed CbTick (state (world l)) = true /\
    timer_armed CbOff (state (world l)) = false /\
    ~ (countdown_armed (state (world l)) = true <-> gating (state (world l)) = true).
Proof.
  eexists. split; [ vm_compute; reflexivity | ].
  repeat split; try (vm_compute; reflexivity).
  vm_compute. intros [_ H]. specialize (H eq_refl). discriminate.
Qed.

(** ** What the macro operations do to [screen], [help_top_line] and
    [timeout_expired] *)

Lemma enter_safe_menu_help_top w :
  help_top_line (state (enter_safe_menu w)) = help_top_line (state w).
Proof.
  expose w. destruct pr, nt, lt as [[? ? ?]|], tt as [[? ? ?]|], ot as [[? ? ?]|];
    reflexivity.
Qed.

Lemma enter_safe_menu_flag w : timeout_expired (state (enter_safe_menu w)) = false.
Proof.
  expose w. destruct pr, nt, lt as [[? ? ?]|], tt as [[? ? ?]|], ot as [[? ? ?]|];
    reflexivity.
Qed.

Lemma enter_powered_menu_standby_view w :
  screen (state (enter_powered_menu_standby w)) = screen (state w) /\
  help_top_line (state (enter_powered_menu_standby w)) = help_top_line (state w) /\
  timeout_expired (state (enter_powered_menu_standby w)) = false.
Proof.
  expose w.
  destruct inv, pr, nt, lt as [[? ? ?]|], tt as [[? ? ?]|], ot as [[? ? ?]|];
    repeat split; reflexivity.
Qed.

Lemma apply_mode_view idx w :
  0 <= idx < 4 ->
  screen (state (apply_mode idx w)) = screen (state w) /\
  help_top_line (state (apply_mode idx w)) = help_top_line (state w) /\
  timeout_expired (state (apply_mode idx w)) = false.
Proof.
  intros Hi. expose w.
  enum idx 4%nat;
    destruct pr, pw, lim, nt, lt as [[? ? ?]|], tt as [[? ? ?]|], ot as [[? ? ?]|];
    repeat split; reflexivity.
Qed.

Lemma start_tick_timer_if_needed_view w :
  0 <= active (state w) < 4 ->
  screen (state (start_tick_timer_if_needed w)) = screen (state w) /\
  help_top_line (state (start_tick_timer_if_needed w)) = help_top_line (state w) /\
  timeout_expired (state (start_tick_timer_if_needed w)) = false.
Proof.
  intros Ha. expose w. cbn [active state] in Ha.
  enum act 4%nat;
    destruct pw, lim, tt as [[? ? ?]|], ot as [[? ? ?]|];
    repeat split; reflexivity.
Qed.

Lemma stop_timers_view w :
  screen (state (stop_timers w)) = screen (state w) /\
  help_top_line (state (stop_timers w)) = help_top_line (state w) /\
  timeout_expired (state (stop_timers w)) = timeout_expired (state w).
Proof.
  expose w. destruct tt as [[? ? ?]|], ot as [[? ? ?]|]; repeat split; reflexivity.
Qed.

Lemma show_hint_view w :
  screen (state (show_hint w)) = screen (state w) /\
  help_top_line (state (show_hint w)) = help_top_line (state w) /\
  timeout_expired (state (show_hint w)) = timeout_expired (state w).
Proof.
  expose w. destruct ht as [[? ? ?]|]; repeat split; reflexivity.
Qed.

(** Replace the result of a macro operation by a variable that carries
    only what the operation does to the three fields. *)
Ltac name_result L x :=
  let E := fresh "E" in
  let y := fresh "w1" in
  pose proof L as E; revert E; generalize x; intros y E.

Ltac name_results Ha :=
  repeat match goal with
  | |- context [enter_safe_menu ?x] =>
      name_result (conj (enter_safe_menu_screen x)
                     (conj (enter_safe_menu_help_top x) (enter_safe_menu_flag x)))
                  (enter_safe_menu x)
  | |- context [show_hint ?x] => name_result (show_hint_view x) (show_hint x)
  | |- context [enter_powered_menu_standby ?x] =>
      name_result (enter_powered_menu_standby_view x) (enter_powered_menu_standby x)
  | |- context [stop_timers ?x] => name_result (stop_timers_view x) (stop_timers x)
  | |- context [start_tick_timer_if_needed ?x] =>
      name_result (start_tick_timer_if_needed_view x Ha) (start_tick_timer_if_needed x)
  | |- context [apply_mode ?i ?x] =>
      let Hi := fresh "Hi" in
      assert (Hi : 0 <= i < 4) by (change MODE_COUNT with 4 in *; lia);
      name_result (apply_mode_view i x Hi) (apply_mode i x)
  end.

Ltac facts_done :=
  push_proj;
  repeat match goal with
         | E : _ /\ _ |- _ => destruct E
         end;
  split; intros; first [ assumption | discriminate | congruence | reflexivity ].

Lemma handle_input_facts ev c w :
  Inv w -> input_facts w (handle_input ev c w).
Proof.
  intros H. pose proof (inv_cursor _ H) as Hc. pose proof (inv_active _ H) as Ha.
  change MODE_COUNT with 4 in Ha. clear H.
  unfold cursor_ok, selectable in Hc.
  unfold handle_input. destruct (screen (state w)) eqn:Es; destruct ev as [ty k];
    destruct ty, k;
    cbv beta iota zeta delta
        [input_select_inverter input_menu input_help input_settings type key
         settings_select_inverter when and_then];
    repeat split_if; unfold input_facts;
    name_results Ha; clear Hc Ha; facts_done.
Qed.

(** ** Help scroll offset *)

Lemma help_layout_params_eq n :
  0 <= n < 256 -> help_layout_params n = (6, Z.max 0 (n - 6)).
Proof.
  intros Hn. unfold help_layout_params.
  change (u8 ((CANVAS_H - 10) / 9)) with 6. change (6 <? 1) with false. cbv iota zeta.
  f_equal. destruct (6 <? n) eqn:E.
  - unfold u8. rewrite Z.mod_small by lia. lia.
  - lia.
Qed.

Lemma help_total_lines_range inv : 0 <= help_total_lines inv < 256.
Proof. destruct inv; vm_compute; split; congruence. Qed.

Ltac keeps_done :=
  push_proj;
  repeat match goal with
         | E : _ /\ _ |- _ => destruct E
         end;
  intros; first [ congruence | reflexivity | contradiction ].

Lemma handle_input_help_top ev c w :
  Inv w ->
  screen (state (handle_input ev c w)) <> ScreenHelp ->
  help_top_line (state (handle_input ev c w)) = help_top_line (state w).
Proof.
  intros H. pose proof (inv_cursor _ H) as Hc. pose proof (inv_active _ H) as Ha.
  change MODE_COUNT with 4 in Ha. clear H.
  unfold cursor_ok, selectable in Hc.
  unfold handle_input. destruct (screen (state w)) eqn:Es; destruct ev as [ty k];
    destruct ty, k;
    cbv beta iota zeta delta
        [input_select_inverter input_menu input_help input_settings type key
         settings_select_inverter when and_then];
    repeat split_if;
    name_results Ha; clear Hc Ha; keeps_done.
Qed.

Lemma consume_timeout_help_top w :
  help_top_line (state (consume_timeout w)) = help_top_line (state w).
Proof.
  unfold consume_timeout, when.
  destruct (timeout_expired (state w)); [ | reflexivity ].
  cbv beta delta [and_then].
  rewrite (proj1 (proj2 (enter_powered_menu_standby_view _))). reflexivity.
Qed.

Lemma fire_help_top cb w w' :
  fire cb w = Some w' ->
  help_top_line (state w') = help_top_line (state w) /\
  screen (state w') = screen (state w).
Proof.
  intros Hf. unfold fire in Hf.
  destruct (timer_slot cb (state w)) as [[ty tcb [d|]]|] eqn:Et; try discriminate.
  cbn [t_armed t_type t_cb] in Hf. injection Hf as <-. clear Et.
  expose w. destruct ty, cb, tcb, lo, nt;
    cbv beta iota delta [and_then skip run_callback tick_timer_cb];
    try match goal with |- context [if ?b then _ else _] => destruct b end;
    split; reflexivity.
Qed.

(** C10, as the code has it.  While the Help screen is shown,
    [0 <= help_top_line <= max 0 (total lines - lines that fit)] for the
    help text of the current inverter profile, the bound being the
    maximum top line [help_layout_params] computes; every input that
    enters the Help screen sets [help_top_line] to 0; on the Help screen
    an UP event (short or repeat) decrements it only when it is above 0
    and a DOWN event increments it only when it is strictly below that
    maximum.  Away from the Help screen nothing touches it: an input
    that does not end on the Help screen, leaving Help included, the
    head of the loop and every timer callback keep the value it had. *)
Theorem help_scroll_bounds (l : Loop) :
  Reachable l ->
  let w := world l in
  let s := state w in
  let total := help_total_lines (inverter s) in
  let fit := fst (help_layout_params total) in
  let max_top := snd (help_layout_params total) in
  max_top = Z.max 0 (total - fit) /\
  (screen s = ScreenHelp -> 0 <= help_top_line s <= Z.max 0 (total - fit)) /\
  (forall ev confirm,
      screen s <> ScreenHelp ->
      screen (state (handle_input ev confirm w)) = ScreenHelp ->
      help_top_line (state (handle_input ev confirm w)) = 0) /\
  (screen s = ScreenHelp ->
   forall ev confirm,
     type ev = InputTypeShort \/ type ev = InputTypeRepeat ->
     (key ev = InputKeyUp ->
      help_top_line (state (handle_input ev confirm w)) =
        (if 0 <? help_top_line s then help_top_line s - 1 else help_top_line s)) /\
     (key ev = InputKeyDown ->
      help_top_line (state (handle_input ev confirm w)) =
        (if help_top_line s <? max_top then help_top_line s + 1
         else help_top_line s))) /\
  (forall ev confirm,
      screen (state (handle_input ev confirm w)) <> ScreenHelp ->
      help_top_line (state (handle_input ev confirm w)) = help_top_line s) /\
  help_top_line (state (consume_timeout w)) = help_top_line s /\
  (forall cb w', fire cb w = Some w' -> help_top_line (state w') = help_top_line s).
Proof.
  intros Hr. apply reachable_inv in Hr. destruct l as [w ph]. cbn [world] in *.
  cbv zeta.
  pose proof (help_total_lines_range (inverter (state w))) as Hn.
  pose proof (help_max_top_bounds (inverter (state w))) as Hm.
  unfold help_max_top in Hm.
  rewrite (help_layout_params_eq _ Hn) in *. cbn [fst snd] in *.
  split; [ reflexivity | ].
  split.
  { intros Es. pose proof (inv_help _ Hr Es) as Hb. unfold help_max_top in Hb.
    rewrite (help_layout_params_eq _ Hn) in Hb. exact Hb. }
  split.
  { intros ev confirm Hs. apply (handle_input_facts ev confirm w Hr). exact Hs. }
  split.
  { intros Es ev confirm Hty. pose proof (inv_help _ Hr Es) as Hb.
    unfold help_max_top in Hb.
    rewrite (help_layout_params_eq _ Hn) in Hb. cbn [snd] in Hb.
    unfold handle_input. rewrite Es.
    cbv beta iota zeta delta [input_help].
    rewrite (help_layout_params_eq _ Hn). cbn [snd].
    split; intros Hk; rewrite Hk; destruct Hty as [Hty | Hty]; rewrite Hty.
    - destruct (0 <? help_top_line (state w)) eqn:E; [ | reflexivity ].
      cbn [on_app state help_top_line set_help_top_line].
      unfold u8. apply Z.mod_small. lia.
    - destruct (0 <? help_top_line (state w)) eqn:E; [ | reflexivity ].
      cbn [on_app state help_top_line set_help_top_line].
      unfold u8. apply Z.mod_small. lia.
    - destruct (help_top_line (state w) <? _) eqn:E; [ | reflexivity ].
      cbn [on_app state help_top_line set_help_top_line].
      unfold u8. apply Z.mod_small. lia.
    - destruct (help_top_line (state w) <? _) eqn:E; [ | reflexivity ].
      cbn [on_app state help_top_line set_help_top_line].
      unfold u8. apply Z.mod_small. lia. }
  split.
  { intros ev confirm. apply handle_input_help_top. exact Hr. }
  split.
  { apply consume_timeout_help_top. }
  intros cb w' Hf. exact (proj1 (fire_help_top cb w w' Hf)).
Qed.

Lemma help_scroll_bounds_witness :
  let l := Build_Loop (world_after trace_help_scrolled) AtLoopHead in
  Reachable l /\ screen (state (world l)) = ScreenHelp /\
  help_top_line (state (world l)) = 3 /\
  0 <= help_top_line (state (world l))
    <= Z.max 0 (help_total_lines (inverter (state (world l)))
                - fst (help_layout_params
                         (help_total_lines (inverter (state (world l)))))).
Proof.
  cbv zeta.
  assert (Hr : Reachable (Build_Loop (world_after trace_help_scrolled) AtLoopHead)).
  { exists trace_help_scrolled. vm_compute. reflexivity. }
  assert (Es : screen (state (world (Build_Loop (world_after trace_help_scrolled)
                                                AtLoopHead))) = ScreenHelp)
    by (vm_compute; reflexivity).
  pose proof (help_scroll_bounds _ Hr) as H. cbv zeta in H.
  split; [ exact Hr | split; [ exact Es | split; [ vm_compute; reflexivity | ] ] ].
  exact (proj1 (proj2 H) Es).
Defined.

(** C10 as stated fails away from the Help screen: after scrolling the
    Embraco help by one line and switching the profile to Samsung in
    Settings, [help_top_line] is 1 while the Samsung text allows 0. *)
Lemma help_scroll_bounds_counterexample :
  exists l,
    run trace_stale_help_offset init_loop = Some l /\
    screen (state (world l)) = ScreenMenu /\
    inverter (state (world l)) = InvSamsung /\
    help_top_line (state (world l)) = 1 /\
    ~ (0 <= help_top_line (state (world l))
       <= Z.max 0 (help_total_lines (inverter (state (world l)))
                   - fst (help_layout_params
                            (help_total_lines (inverter (state (world l))))))).
Proof.
  eexists. split; [ vm_compute; reflexivity | ].
  repeat split; try (vm_compute; reflexivity).
  vm_compute. intros [_ H]. apply H. reflexivity.
Qed.

(** ** Expiry *)

Lemma consume_timeout_flag w : timeout_expired (state (consume_timeout w)) = false.
Proof.
  unfold consume_timeout, when.
  destruct (timeout_expired (state w)) eqn:E; [ | exact E ].
  apply (enter_powered_menu_standby_view (on_app (set_timeout_expired false) w)).
Qed.

Lemma fire_off_spec w w' :
  Inv w -> fire CbOff w = Some w' ->
  timeout_expired (state w) = false /\
  remaining_ms (state w') = 0 /\ timeout_expired (state w') = true /\
  timer_armed CbOff (state w') = false /\ fire CbOff w' = None /\
  exists t,
    off_timer (state w) = Some t /\ t_type t = FuriTimerTypeOnce /\
    t_armed t = Some (default_secs (mode_at (active (state w))) * 1000).
Proof.
  intros H Hf. expose w. open_inv H. norm_inv.
  unfold fire in Hf. cbn [timer_slot state off_timer] in Hf.
  destruct ot as [[ty tcb [d|]]|]; try discriminate.
  cbn [t_armed t_type t_cb] in Hf. destruct Hfw as [-> ->]. subst d.
  injection Hf as <-.
  split; [ destruct te; [ discriminate (Hpe eq_refl) | reflexivity ] | ].
  repeat split; try reflexivity.
  eexists; repeat split; reflexivity.
Qed.

Lemma fire_other_flag cb w w' :
  Inv w -> fire cb w = Some w' -> cb <> CbOff ->
  timeout_expired (state w') = timeout_expired (state w).
Proof.
  intros H Hf Hcb. unfold fire in Hf.
  destruct (timer_slot cb (state w)) as [[ty tcb [d|]]|] eqn:Et; try discriminate.
  cbn [t_armed t_type t_cb] in Hf. injection Hf as <-.
  destruct cb; try congruence; cbn [timer_slot] in Et.
  - pose proof (inv_led_wf _ H) as Hw. unfold timer_wf in Hw. cbn [timer_slot] in Hw.
    rewrite Et in Hw. cbn [t_cb t_type] in Hw. destruct Hw as [-> ->].
    expose w. destruct lo, nt; reflexivity.
  - pose proof (inv_hint_wf _ H) as Hw. unfold timer_wf in Hw. cbn [timer_slot] in Hw.
    rewrite Et in Hw. cbn [t_cb t_type] in Hw. destruct Hw as [-> ->].
    expose w. reflexivity.
  - pose proof (inv_tick_wf _ H) as Hw. unfold timer_wf in Hw. cbn [timer_slot] in Hw.
    rewrite Et in Hw. cbn [t_cb t_type] in Hw. destruct Hw as [-> ->].
    cbv beta iota delta [and_then skip run_callback tick_timer_cb].
    destruct (1000 <=? remaining_ms (state w)); reflexivity.
Qed.

Lemma expiry_accounting tr :
  forall l l',
    Inv (world l) -> run tr l = Some l' ->
    (count_steps expiry_fires tr l + expiry_pending l =
     count_steps expiry_handled tr l + count_steps expiry_discarded tr l
     + expiry_pending l')%nat.
Proof.
  induction tr as [ | st tr IH ]; intros l l' H Hr; cbn [run count_steps] in *.
  - inversion Hr; subst. lia.
  - destruct (step st l) as [l1|] eqn:Es; [ | discriminate ].
    pose proof (step_inv _ _ _ H Es) as H1.
    specialize (IH _ _ H1 Hr).
    assert (Hst :
      ((if expiry_fires st l then 1 else 0) + expiry_pending l =
       (if expiry_handled st l then 1 else 0)
       + (if expiry_discarded st l then 1 else 0) + expiry_pending l1)%nat).
    { clear IH Hr H1. destruct l as [w ph]. unfold step in Es. cbn [world phase] in *.
      unfold expiry_pending. cbn [world].
      destruct st as [ | ev c | | cb ]; cbn [expiry_fires expiry_handled expiry_discarded world].
      - destruct ph; inversion Es; subst; cbn [world].
        rewrite consume_timeout_flag. destruct (timeout_expired (state w)); reflexivity.
      - destruct ph; try discriminate. destruct (is_long_back ev); inversion Es; subst.
        cbn [world]. pose proof (proj1 (handle_input_facts ev c w H)) as Hm.
        destruct (timeout_expired (state (handle_input ev c w))),
                 (timeout_expired (state w)); cbn; try reflexivity.
        discriminate (Hm eq_refl).
      - destruct ph; inversion Es; subst; cbn [world].
        destruct (timeout_expired (state w)); reflexivity.
      - destruct (fire cb w) as [w1|] eqn:Ef; inversion Es; subst; cbn [world].
        destruct cb.
        + rewrite (fire_other_flag _ _ _ H Ef) by discriminate.
          destruct (timeout_expired (state w)); reflexivity.
        + rewrite (fire_other_flag _ _ _ H Ef) by discriminate.
          destruct (timeout_expired (state w)); reflexivity.
        + rewrite (fire_other_flag _ _ _ H Ef) by discriminate.
          destruct (timeout_expired (state w)); reflexivity.
        + destruct (fire_off_spec _ _ H Ef) as (E0 & _ & E1 & _).
          rewrite E0, E1. reflexivity. }
    lia.
Qed.

(** ** The expiry timer in time *)

Ltac eval_ends :=
  repeat match goal with
         | |- context [hal ?x] =>
             let v := eval vm_compute in (hal x) in progress change (hal x) with v
         | |- context [state ?x] =>
             let v := eval vm_compute in (state x) in progress change (state x) with v
         end.

Ltac off_kept_close :=
  unfold off_kept, off_starts, timer_armed; eval_ends;
  cbn [hal_log off_timer timer_slot filter is_off_start List.length t_armed];
  (split;
   [ lia
   | let H := fresh in
     intros H;
     first [ discriminate H
           | left; lia
           | right; split; reflexivity ] ]).

Lemma enter_safe_menu_off_kept w : off_kept w (enter_safe_menu w).
Proof.
  expose w. destruct pr, nt, lt as [[? ? ?]|], tt as [[? ? ?]|], ot as [[? ? ?]|];
    off_kept_close.
Qed.

Lemma enter_powered_menu_standby_off_kept w : off_kept w (enter_powered_menu_standby w).
Proof.
  expose w.
  destruct inv, pr, nt, lt as [[? ? ?]|], tt as [[? ? ?]|], ot as [[? ? ?]|];
    off_kept_close.
Qed.

Lemma apply_mode_off_kept idx w : 0 <= idx < 4 -> off_kept w (apply_mode idx w).
Proof.
  intros Hi. expose w.
  enum idx 4%nat;
    destruct pr, pw, lim, nt, lt as [[? ? ?]|], tt as [[? ? ?]|], ot as [[? ? ?]|];
    off_kept_close.
Qed.

Lemma stop_timers_off_kept w : off_kept w (stop_timers w).
Proof. expose w. destruct tt as [[? ? ?]|], ot as [[? ? ?]|]; off_kept_close. Qed.

Lemma show_hint_off_kept w : off_kept w (show_hint w).
Proof. expose w. destruct ht as [[? ? ?]|]; off_kept_close. Qed.

Lemma start_tick_timer_if_needed_off_kept w :
  0 <= active (state w) < 4 -> off_kept w (start_tick_timer_if_needed w).
Proof.
  intros Ha. expose w. cbn [active state] in Ha.
  enum act 4%nat; destruct pw, lim, tt as [[? ? ?]|], ot as [[? ? ?]|];
    off_kept_close.
Qed.

Ltac off_results Ha :=
  repeat match goal with
  | |- context [enter_safe_menu ?x] =>
      name_result (enter_safe_menu_off_kept x) (enter_safe_menu x)
  | |- context [enter_powered_menu_standby ?x] =>
      name_result (enter_powered_menu_standby_off_kept x) (enter_powered_menu_standby x)
  | |- context [show_hint ?x] =>
      name_result (show_hint_off_kept x) (show_hint x)
  | |- context [stop_timers ?x] =>
      name_result (stop_timers_off_kept x) (stop_timers x)
  | |- context [start_tick_timer_if_needed ?x] =>
      name_result (start_tick_timer_if_needed_off_kept x Ha) (start_tick_timer_if_needed x)
  | |- context [apply_mode ?i ?x] =>
      let Hi := fresh "Hi" in
      assert (Hi : 0 <= i < 4) by (change MODE_COUNT with 4 in *; lia);
      name_result (apply_mode_off_kept i x Hi) (apply_mode i x)
  end.

Ltac off_done :=
  unfold off_kept, off_starts, timer_armed in *; push_state; cbn [timer_slot] in *;
  first [ assumption
        | split; [ lia | intros; right; split; reflexivity ] ].

Lemma handle_input_off_kept ev c w : Inv w -> off_kept w (handle_input ev c w).
Proof.
  intros H. pose proof (inv_cursor _ H) as Hc. pose proof (inv_active _ H) as Ha.
  change MODE_COUNT with 4 in Ha. clear H.
  unfold cursor_ok, selectable in Hc.
  unfold handle_input. destruct (screen (state w)) eqn:Es; destruct ev as [ty k];
    destruct ty, k;
    cbv beta iota zeta delta
        [input_select_inverter input_menu input_help input_settings type key
         settings_select_inverter when and_then];
    repeat split_if;
    off_results Ha; clear Ha Hc; off_done.
Qed.

Lemma consume_timeout_off_kept w : off_kept w (consume_timeout w).
Proof.
  unfold consume_timeout, when.
  destruct (timeout_expired (state w)).
  - cbv beta delta [and_then].
    pose proof (enter_powered_menu_standby_off_kept
                  (on_app (set_timeout_expired false) w)) as E.
    revert E. generalize (enter_powered_menu_standby (on_app (set_timeout_expired false) w)).
    intros y E. off_done.
  - off_done.
Qed.

Lemma off_kept_same w w' :
  off_starts w' = off_starts w -> off_timer (state w') = off_timer (state w) ->
  off_kept w w'.
Proof.
  intros E1 E2. unfold off_kept. rewrite E1.
  split; [ lia | intros _; right; split; [ reflexivity | exact E2 ] ].
Qed.

Lemma fire_off_kept cb w w' :
  cb <> CbOff -> fire cb w = Some w' -> off_kept w w'.
Proof.
  intros Hcb Hf. unfold fire in Hf.
  destruct (timer_slot cb (state w)) as [[ty tcb [d|]]|] eqn:Et; try discriminate.
  cbn [t_armed t_type t_cb] in Hf. injection Hf as <-. clear Et.
  apply off_kept_same;
    (expose w; destruct cb; try congruence; destruct ty, tcb, lo, nt;
     cbv beta iota delta [and_then skip run_callback tick_timer_cb];
     try match goal with |- context [if ?b then _ else _] => destruct b end;
     reflexivity).
Qed.

Lemma step_off_kept st l l' :
  Inv (world l) -> st <> StFire CbOff -> step st l = Some l' ->
  off_kept (world l) (world l').
Proof.
  intros H Hst Hs. destruct l as [w ph]. cbn [world] in *. unfold step in Hs.
  cbn [world phase] in Hs.
  destruct st as [ | ev c | | cb ].
  - destruct ph; inversion Hs; subst; cbn [world]. apply consume_timeout_off_kept.
  - destruct ph; try discriminate. destruct (is_long_back ev); inversion Hs; subst.
    cbn [world]. apply handle_input_off_kept; assumption.
  - destruct ph; inversion Hs; subst; cbn [world].
    apply off_kept_same; reflexivity.
  - destruct (fire cb w) as [w'|] eqn:Ef; inversion Hs; subst; cbn [world].
    apply (fire_off_kept cb); [ congruence | exact Ef ].
Qed.

Lemma armed_off_delay s :
  timer_armed CbOff s = true <-> exists d, off_delay s = Some d.
Proof.
  unfold timer_armed, off_delay. cbn [timer_slot].
  destruct (off_timer s) as [[ty cb [d|]]|]; cbn [t_armed]; split;
    try discriminate; try reflexivity;
    first [ intros _; eexists; reflexivity | intros [? ?]; discriminate ].
Qed.

Lemma off_delay_mode w d :
  Inv w -> off_delay (state w) = Some d ->
  d = default_secs (mode_at (active (state w))) * 1000.
Proof.
  intros H Hd. pose proof (inv_off_delay _ H) as Ha.
  unfold armed_with in Ha. unfold off_delay in Hd. cbn [timer_slot] in Ha.
  destruct (off_timer (state w)) as [t|]; [ | discriminate ].
  rewrite Hd in Ha. exact Ha.
Qed.

(** What a clocked step is made of. *)
Lemma tstep_inv dt st c c' :
  tstep dt st c = Some c' ->
  0 <= dt /\ now c' = now c + dt /\
  (forall d, off_due c = Some d -> now c' <= d) /\
  step st (loop_of c) = Some (loop_of c') /\
  (st = StFire CbOff -> off_due c = Some (now c') /\ off_since c' = None) /\
  (st <> StFire CbOff ->
   off_since c' =
     if timer_armed CbOff (state (world (loop_of c'))) then
       if (off_starts (world (loop_of c)) <? off_starts (world (loop_of c')))%nat
       then Some (now c')
       else off_since c
     else None).
Proof.
  unfold tstep. intros Ht.
  destruct (0 <=? dt) eqn:E0; [ | discriminate ]. cbn [andb] in Ht.
  assert (Hg : forall d, off_due c = Some d -> now c + dt <= d).
  { intros d Hd. rewrite Hd in Ht. destruct (now c + dt <=? d) eqn:E; [ lia | discriminate ]. }
  assert (Ht' :
    match st with
    | StFire CbOff =>
        match off_due c with
        | Some d =>
            if now c + dt =? d then
              match step st (loop_of c) with
              | Some l' => Some {| loop_of := l'; now := now c + dt; off_since := None |}
              | None => None
              end
            else None
        | None => None
        end
    | _ =>
        match step st (loop_of c) with
        | Some l' =>
            Some {| loop_of := l'; now := now c + dt;
                    off_since :=
                      if timer_armed CbOff (state (world l')) then
                        if (off_starts (world (loop_of c)) <? off_starts (world l'))%nat
                        then Some (now c + dt)
                        else off_since c
                      else None |}
        | None => None
        end
    end = Some c').
  { destruct (match off_due c with Some d => now c + dt <=? d | None => true end);
      [ exact Ht | discriminate ]. }
  clear Ht.
  assert (Hother :
    forall st0, st0 = st -> st <> StFire CbOff ->
    match step st (loop_of c) with
    | Some l' =>
        Some {| loop_of := l'; now := now c + dt;
                off_since :=
                  if timer_armed CbOff (state (world l')) then
                    if (off_starts (world (loop_of c)) <? off_starts (world l'))%nat
                    then Some (now c + dt)
                    else off_since c
                  else None |}
    | None => None
    end = Some c' ->
    0 <= dt /\ now c' = now c + dt /\
    (forall d, off_due c = Some d -> now c' <= d) /\
    step st (loop_of c) = Some (loop_of c') /\
    (st = StFire CbOff -> off_due c = Some (now c') /\ off_since c' = None) /\
    (st <> StFire CbOff ->
     off_since c' =
       if timer_armed CbOff (state (world (loop_of c'))) then
         if (off_starts (world (loop_of c)) <? off_starts (world (loop_of c')))%nat
         then Some (now c')
         else off_since c
       else None)).
  { intros st0 _ Hne Hs.
    destruct (step st (loop_of c)) as [l'|]; [ | discriminate ].
    injection Hs as <-. cbn [loop_of now off_since].
    split; [ lia | ]. split; [ reflexivity | ]. split; [ exact Hg | ].
    split; [ reflexivity | ]. split; [ intros E; congruence | intros _; reflexivity ]. }
  destruct st as [ | ev cf | | cb ];
    try (apply (Hother _ eq_refl); [ discriminate | exact Ht' ]).
  destruct cb;
    try (apply (Hother _ eq_refl); [ discriminate | exact Ht' ]).
  clear Hother.
  destruct (off_due c) as [d|] eqn:Ed; [ | discriminate ].
  destruct (now c + dt =? d) eqn:E; [ | discriminate ].
  destruct (step (StFire CbOff) (loop_of c)) as [l'|]; [ | discriminate ].
  injection Ht' as <-. cbn [loop_of now off_since].
  split; [ lia | ]. split; [ reflexivity | ].
  split; [ intros d' Hd'; injection Hd' as <-; lia | ].
  split; [ reflexivity | ].
  split; [ intros _; split; [ f_equal; lia | reflexivity ] | congruence ].
Qed.

Lemma step_fire_off l l' :
  step (StFire CbOff) l = Some l' -> fire CbOff (world l) = Some (world l').
Proof.
  unfold step. destruct (fire CbOff (world l)) as [w'|]; [ | discriminate ].
  intros E. injection E as <-. reflexivity.
Qed.

Lemma tstep_clock dt st c c' :
  Inv (world (loop_of c)) -> ClockInv c -> tstep dt st c = Some c' -> ClockInv c'.
Proof.
  intros H Hc Ht.
  destruct (tstep_inv _ _ _ _ Ht) as (H0 & Hn & Hg & Hs & Hf & Ho).
  pose proof (step_inv _ _ _ H Hs) as H'.
  intros d' Hd'.
  assert (Harm : timer_armed CbOff (state (world (loop_of c'))) = true)
    by (apply armed_off_delay; eexists; exact Hd').
  assert (Hcase : st = StFire CbOff \/ st <> StFire CbOff)
    by (destruct st as [ | | | [ | | | ] ];
        first [ left; reflexivity | right; discriminate ]).
  destruct Hcase as [-> | Hne].
  - exfalso. apply step_fire_off in Hs.
    destruct (fire_off_spec _ _ H Hs) as (_ & _ & _ & Ea & _).
    rewrite Ea in Harm. discriminate.
  - rewrite (Ho Hne), Harm.
    pose proof (step_off_kept _ _ _ H Hne Hs) as [Hle Hk].
    specialize (Hk Harm).
    pose proof (off_delay_mode _ _ H' Hd') as Ed.
    pose proof (default_secs_range (active (state (world (loop_of c'))))) as Hr.
    destruct (off_starts (world (loop_of c)) <? off_starts (world (loop_of c')))%nat eqn:E.
    + eexists. split; [ reflexivity | lia ].
    + destruct Hk as [Hk | [_ Hk]]; [ apply Nat.ltb_ge in E; lia | ].
      assert (Hd : off_delay (state (world (loop_of c))) = Some d')
        by (unfold off_delay in *; rewrite <- Hk; exact Hd').
      destruct (Hc _ Hd) as (t0 & Es & Hb).
      exists t0. split; [ exact Es | ].
      assert (Hdue : off_due c = Some (t0 + d'))
        by (unfold off_due; rewrite Es, Hd; reflexivity).
      specialize (Hg _ Hdue). lia.
Qed.

Lemma trun_untimed tr :
  forall c c', trun tr c = Some c' -> run (untimed tr) (loop_of c) = Some (loop_of c').
Proof.
  induction tr as [ | [dt st] tr IH ]; intros c c' Hr; cbn [trun untimed map run snd] in *.
  - inversion Hr; subst; reflexivity.
  - destruct (tstep dt st c) as [c1|] eqn:Et; [ | discriminate ].
    rewrite (proj1 (proj2 (proj2 (proj2 (tstep_inv _ _ _ _ Et))))).
    apply IH. exact Hr.
Qed.

Lemma trun_clock tr :
  forall c c', Inv (world (loop_of c)) -> ClockInv c -> trun tr c = Some c' ->
               Inv (world (loop_of c')) /\ ClockInv c'.
Proof.
  induction tr as [ | [dt st] tr IH ]; intros c c' H Hc Hr; cbn [trun] in Hr.
  - inversion Hr; subst; split; assumption.
  - destruct (tstep dt st c) as [c1|] eqn:Et; [ | discriminate ].
    apply (IH c1); [ | | exact Hr ].
    + eapply step_inv; [ exact H | ].
      exact (proj1 (proj2 (proj2 (proj2 (tstep_inv _ _ _ _ Et))))).
    + eapply tstep_clock; eassumption.
Qed.

Lemma clock_init_inv : ClockInv clock_init.
Proof. intros d Hd. discriminate Hd. Qed.

(** C5, as the code has it.  The expiry timer is a one-shot that the
    program starts with the delay [default_secs * 1000] ms of the active
    mode.  In every clocked run: while the timer runs, the instant [t0]
    of the [furi_timer_start] call that started it is known and the
    clock is between [t0] and [t0 + default_secs * 1000]; no step lets
    the clock pass [t0 + default_secs * 1000]; a step that starts the
    timer makes its own instant the new [t0], any other step that leaves
    the timer running leaves [t0] and the timer as they were; the timer
    fires at [t0 + default_secs * 1000] exactly, and having fired it is
    stopped and cannot fire again; its callback sets [remaining_ms = 0]
    and [timeout_expired = true].  When the head of the main loop finds
    [timeout_expired] set it clears it and runs
    [enter_powered_menu_standby], which leaves the powered Stand-by state
    (mode 0, PWM stopped, pin low) and nothing for the next iteration to
    handle.  Along the run every firing is accounted for once: handled by
    a loop head, discarded by an input that cleared the pending flag, or
    still pending at the end of the run; a pending firing is handled by
    the next loop head unless an input clears the flag first or a long
    BACK ends the loop.  The steps of a clocked run are a run of the
    application. *)
Theorem expiry_handling (tr : list (Z * Step)) (c : Clocked) :
  trun tr clock_init = Some c ->
  let l := loop_of c in
  let w := world l in
  let s := state w in
  let D := default_secs (mode_at (active s)) * 1000 in
  (timer_armed CbOff s = true ->
   exists t0, off_since c = Some t0 /\ off_delay s = Some D /\
              t0 <= now c <= t0 + D) /\
  (forall dt st c',
     tstep dt st c = Some c' ->
     let w' := world (loop_of c') in
     (forall t0, off_since c = Some t0 -> timer_armed CbOff s = true ->
                 now c' <= t0 + D) /\
     ((off_starts w < off_starts w')%nat -> timer_armed CbOff (state w') = true ->
      off_since c' = Some (now c') /\
      off_delay (state w')
      = Some (default_secs (mode_at (active (state w'))) * 1000)) /\
     (off_starts w' = off_starts w -> timer_armed CbOff (state w') = true ->
      off_since c' = off_since c /\ off_timer (state w') = off_timer s) /\
     (st = StFire CbOff ->
      (exists t0, off_since c = Some t0 /\ now c' = t0 + D) /\
      (exists t, off_timer s = Some t /\ t_type t = FuriTimerTypeOnce) /\
      remaining_ms (state w') = 0 /\ timeout_expired (state w') = true /\
      timer_armed CbOff (state w') = false /\
      forall dt', tstep dt' (StFire CbOff) c' = None)) /\
  (timeout_expired s = true ->
     let w' := consume_timeout w in
     w' = enter_powered_menu_standby (on_app (set_timeout_expired false) w) /\
     timeout_expired (state w') = false /\
     powered (state w') = true /\ active (state w') = 0 /\
     pwm (hal w') = None /\ pwm_running (state w') = false /\
     pin_mode (hal w') = GpioModeOutputPushPull /\ pin_level (hal w') = false /\
     consume_timeout w' = w') /\
  (count_steps expiry_fires (untimed tr) init_loop =
   count_steps expiry_handled (untimed tr) init_loop
   + count_steps expiry_discarded (untimed tr) init_loop + expiry_pending l)%nat /\
  (timeout_expired s = true ->
     (forall l', step StHead l = Some l' ->
                 expiry_handled StHead l = true /\ expiry_pending l' = 0%nat) /\
     (forall ev confirm l',
         step (StInput ev confirm) l = Some l' ->
         expiry_discarded (StInput ev confirm) l = true \/ expiry_pending l' = 1%nat) /\
     (forall ev confirm,
         is_long_back ev = true -> step (StInput ev confirm) l = None)) /\
  run (untimed tr) init_loop = Some l.
Proof.
  intros Hr. cbv zeta.
  destruct (trun_clock tr clock_init c inv_init clock_init_inv Hr) as [H Hc].
  pose proof (trun_untimed tr clock_init c Hr) as Hu.
  change (loop_of clock_init) with init_loop in Hu.
  assert (Harmed : timer_armed CbOff (state (world (loop_of c))) = true ->
                   exists t0, off_since c = Some t0 /\
                     off_delay (state (world (loop_of c)))
                     = Some (default_secs (mode_at (active (state (world (loop_of c))))) * 1000) /\
                     t0 <= now c
                     <= t0 + default_secs (mode_at (active (state (world (loop_of c))))) * 1000).
  { intros Ha. apply armed_off_delay in Ha. destruct Ha as [d Hd].
    pose proof (off_delay_mode _ _ H Hd) as Ed. subst d.
    destruct (Hc _ Hd) as (t0 & Es & Hb).
    exists t0. split; [ exact Es | split; [ exact Hd | exact Hb ] ]. }
  split; [ exact Harmed | ].
  split.
  { intros dt st c' Ht.
    destruct (tstep_inv _ _ _ _ Ht) as (H0 & Hn & Hg & Hs & Hf & Ho).
    pose proof (step_inv _ _ _ H Hs) as H'.
    assert (Hcase : st = StFire CbOff \/ st <> StFire CbOff)
      by (destruct st as [ | | | [ | | | ] ];
          first [ left; reflexivity | right; discriminate ]).
    split; [ | split; [ | split ] ].
    - intros t0 Es Ha. destruct (Harmed Ha) as (t0' & Es' & Hd & _).
      rewrite Es in Es'. injection Es' as <-.
      apply Hg. unfold off_due. rewrite Es, Hd. reflexivity.
    - intros Hlt Ha. destruct Hcase as [-> | Hne].
      + exfalso. apply step_fire_off in Hs.
        destruct (fire_off_spec _ _ H Hs) as (_ & _ & _ & Ea & _).
        rewrite Ea in Ha. discriminate.
      + rewrite (Ho Hne), Ha. apply Nat.ltb_lt in Hlt. rewrite Hlt.
        split; [ reflexivity | ].
        apply armed_off_delay in Ha. destruct Ha as [d Hd].
        rewrite Hd. f_equal. exact (off_delay_mode _ _ H' Hd).
    - intros Heq Ha. destruct Hcase as [-> | Hne].
      + exfalso. apply step_fire_off in Hs.
        destruct (fire_off_spec _ _ H Hs) as (_ & _ & _ & Ea & _).
        rewrite Ea in Ha. discriminate.
      + rewrite (Ho Hne), Ha.
        assert (E : (off_starts (world (loop_of c)) <? off_starts (world (loop_of c')))%nat
                    = false) by (apply Nat.ltb_ge; lia).
        rewrite E. split; [ reflexivity | ].
        destruct (step_off_kept _ _ _ H Hne Hs) as [_ Hk].
        destruct (Hk Ha) as [Hlt | [_ Hk']]; [ lia | exact Hk' ].
    - intros ->. destruct (Hf eq_refl) as [Hdue Hnone].
      apply step_fire_off in Hs.
      destruct (fire_off_spec _ _ H Hs) as (_ & E1 & E2 & E3 & _ & (t & Et & Ety & Eta)).
      assert (Hd : off_delay (state (world (loop_of c)))
                   = Some (default_secs (mode_at (active (state (world (loop_of c))))) * 1000))
        by (unfold off_delay; rewrite Et; exact Eta).
      split.
      { unfold off_due in Hdue. rewrite Hd in Hdue.
        destruct (off_since c) as [t0|]; [ | discriminate ].
        exists t0. split; [ reflexivity | ]. injection Hdue as Hdue. lia. }
      split; [ exists t; split; assumption | ].
      split; [ exact E1 | split; [ exact E2 | split; [ exact E3 | ] ] ].
      intros dt'. unfold tstep, off_due. rewrite Hnone.
      destruct (0 <=? dt'); reflexivity. }
  split.
  { intros Hte.
    assert (E : consume_timeout (world (loop_of c))
                = enter_powered_menu_standby
                    (on_app (set_timeout_expired false) (world (loop_of c)))).
    { unfold consume_timeout, when. rewrite Hte. reflexivity. }
    rewrite E. clear E.
    split; [ reflexivity | ].
    assert (Hct : consume_timeout
                   (enter_powered_menu_standby
                      (on_app (set_timeout_expired false) (world (loop_of c))))
                 = enter_powered_menu_standby
                     (on_app (set_timeout_expired false) (world (loop_of c)))).
    { unfold consume_timeout, when.
      rewrite (proj2 (proj2 (enter_powered_menu_standby_view _))). reflexivity. }
    rewrite Hct. clear Hct Hc Hu Harmed Hr.
    revert H Hte. generalize (world (loop_of c)). intros w H Hte.
    expose w. open_inv H. norm_inv. subst.
    destruct inv, pwm_ as [?|], lt as [[? ? ?]|], tt as [[? ? ?]|], ot as [[? ? ?]|];
      repeat split; reflexivity. }
  split.
  { pose proof (expiry_accounting (untimed tr) init_loop (loop_of c) inv_init Hu) as Ha.
    unfold expiry_pending at 1 in Ha.
    change (timeout_expired (state (world init_loop))) with false in Ha.
    cbv iota in Ha. lia. }
  split; [ | exact Hu ].
  intros Hte. split; [ | split ].
  - intros l' Hs. unfold expiry_handled. split; [ exact Hte | ].
    unfold step in Hs. destruct (phase (loop_of c)); [ | discriminate ].
    injection Hs as <-. unfold expiry_pending. cbn [world].
    rewrite consume_timeout_flag. reflexivity.
  - intros ev confirm l' Hs. unfold step in Hs.
    destruct (phase (loop_of c)); [ discriminate | ].
    destruct (is_long_back ev); [ discriminate | ]. injection Hs as <-.
    unfold expiry_discarded, expiry_pending. cbn [world]. rewrite Hte.
    destruct (timeout_expired (state (handle_input ev confirm (world (loop_of c)))));
      [ right; reflexivity | left; reflexivity ].
  - intros ev confirm Hl. unfold step. rewrite Hl.
    destruct (phase (loop_of c)); reflexivity.
Qed.

Lemma expiry_handling_witness :
  trun ttrace_expiry_handled clock_init
  = Some {| loop_of := Build_Loop (world_after (untimed ttrace_expiry_handled)) InQueueGet;
            now := 120850; off_since := None |} /\
  count_steps expiry_fires (untimed ttrace_expiry_handled) init_loop = 1%nat /\
  count_steps expiry_handled (untimed ttrace_expiry_handled) init_loop = 1%nat /\
  (count_steps expiry_fires (untimed ttrace_expiry_handled) init_loop =
   count_steps expiry_handled (untimed ttrace_expiry_handled) init_loop
   + count_steps expiry_discarded (untimed ttrace_expiry_handled) init_loop
   + expiry_pending
       (loop_of {| loop_of := Build_Loop (world_after (untimed ttrace_expiry_handled))
                                         InQueueGet;
                   now := 120850; off_since := None |}))%nat.
Proof.
  assert (Hr : trun ttrace_expiry_handled clock_init
               = Some {| loop_of := Build_Loop (world_after (untimed ttrace_expiry_handled))
                                               InQueueGet;
                         now := 120850; off_since := None |})
    by (vm_compute; reflexivity).
  split; [ exact Hr | ].
  split; [ vm_compute; reflexivity | split; [ vm_compute; reflexivity | ] ].
  exact (proj1 (proj2 (proj2 (proj2 (expiry_handling _ _ Hr))))).
Defined.

(** C5 as stated fails when an input clears the pending flag before the
    loop head sees it: the expiry timer of "Low speed", started at
    800 ms, fires once, at 120800 ms; OK on "Mid speed" arrives 10 ms
    later and restarts the countdown; no loop head handles the firing,
    and the application runs "Mid speed" instead of Stand-by. *)
Lemma expiry_handling_counterexample :
  untimed ttrace_expiry_discarded = trace_expiry_discarded /\
  (exists c,
     trun ttrace_expiry_discarded clock_init = Some c /\
     now c = 120810 /\ off_since c = Some 120810) /\
  exists l,
    run trace_expiry_discarded init_loop = Some l /\
    count_steps expiry_fires trace_expiry_discarded init_loop = 1%nat /\
    count_steps expiry_handled trace_expiry_discarded init_loop = 0%nat /\
    timeout_expired (state (world l)) = false /\
    active (state (world l)) = 2 /\
    pwm (hal (world l)) = Some (100, 50).
Proof.
  split; [ reflexivity | ].
  split.
  - eexists. split; [ vm_compute; reflexivity | ]. split; reflexivity.
  - eexists. split; [ vm_compute; reflexivity | ].
    repeat split; vm_compute; reflexivity.
Qed.

(** * Further properties of the code *)

(** ** Process exit *)

(** X1. The cleanup sequence after the loop leaves the hardware safe
    whatever state the loop is left in: PWM unit stopped, pin a floating
    input, 5 V rail off, LED off, and every timer freed. *)
Theorem cleanup_safe (w : World) :
  pwm_tracked w ->
  let w' := cleanup w in
  pwm (hal w') = None /\ pwm_running (state w') = false /\
  pin_mode (hal w') = GpioModeInput /\ otg (hal w') = false /\
  led_green (hal w') = false /\ all_timers_freed (state w').
Proof.
  intros Hp. cbv zeta. expose w. unfold pwm_tracked in Hp. norm_inv.
  unfold all_timers_freed.
  destruct pr, pwm_ as [?|], lt as [[? ? ?]|], ht as [[? ? ?]|], tt as [[? ? ?]|],
           ot as [[? ? ?]|];
    try discriminate; repeat split; reflexivity.
Qed.

Lemma cleanup_safe_witness :
  pwm_tracked (world_after trace_low_speed) /\
  pwm (hal (cleanup (world_after trace_low_speed))) = None.
Proof.
  assert (Hp : pwm_tracked (world_after trace_low_speed))
    by (vm_compute; reflexivity).
  split; [ exact Hp | ].
  exact (proj1 (cleanup_safe (world_after trace_low_speed) Hp)).
Defined.

(** ** Refusal and ignored input *)

(** X2. Declining the power-on dialog changes nothing: in the unpowered
    Menu with the cursor on "Power on", OK with the dialog cancelled
    returns the state it was given. *)
Theorem power_on_declined (w : World) :
  screen (state w) = ScreenMenu -> powered (state w) = false ->
  cursor (state w) = 0 ->
  handle_input (short InputKeyOk) false w = w.
Proof.
  intros Es Ep Ec. unfold handle_input. rewrite Es.
  cbv beta iota zeta delta [input_menu short type key]. rewrite Ep, Ec.
  reflexivity.
Qed.

Lemma power_on_declined_witness :
  screen (state (world_after (press InputKeyOk false))) = ScreenMenu /\
  handle_input (short InputKeyOk) false (world_after (press InputKeyOk false))
  = world_after (press InputKeyOk false).
Proof.
  assert (Es : screen (state (world_after (press InputKeyOk false))) = ScreenMenu)
    by (vm_compute; reflexivity).
  split; [ exact Es | ].
  apply (power_on_declined _ Es); vm_compute; reflexivity.
Defined.

(** X3. An event the current screen does not react to (a press, release
    or long event, a LEFT or RIGHT key, a repeat on Menu or Settings, OK
    on Help) leaves the whole state, hardware included, untouched. *)
Theorem ignored_input (ev : InputEvent) (confirm : bool) (w : World) :
  reacts (screen (state w)) ev = false ->
  handle_input ev confirm w = w.
Proof.
  intros Hr. unfold handle_input. destruct ev as [ty k].
  destruct (screen (state w)), ty, k; try discriminate Hr; reflexivity.
Qed.

Lemma ignored_input_witness :
  reacts (screen (state init_world))
         {| type := InputTypeShort; key := InputKeyLeft |} = false /\
  handle_input {| type := InputTypeShort; key := InputKeyLeft |} true init_world
  = init_world.
Proof.
  assert (Hr : reacts (screen (state init_world))
                      {| type := InputTypeShort; key := InputKeyLeft |} = false)
    by reflexivity.
  split; [ exact Hr | ].
  exact (ignored_input _ true init_world Hr).
Defined.

(** ** Profile change in Settings *)

(** X4. OK on a profile row of Settings: selecting the profile that is
    already active changes nothing; selecting the other one stores it,
    returns to the unpowered Menu with cursor and window at 0, and leaves
    the PWM unit stopped, the pin a floating input, the 5 V rail off and
    both countdown timers stopped. *)
Theorem settings_profile_change (w : World) (target : InverterId) :
  pwm_tracked w -> notif (state w) = true ->
  screen (state w) = ScreenSettings ->
  cursor (state w) = (match target with InvEmbraco => 3 | InvSamsung => 4 end) ->
  let w' := handle_input (short InputKeyOk) false w in
  if InverterId_eqb (inverter (state w)) target then w' = w
  else
    inverter (state w') = target /\ screen (state w') = ScreenMenu /\
    powered (state w') = false /\ cursor (state w') = 0 /\
    first_visible (state w') = 0 /\
    pwm (hal w') = None /\ pin_mode (hal w') = GpioModeInput /\
    otg (hal w') = false /\
    timer_armed CbTick (state w') = false /\ timer_armed CbOff (state w') = false /\
    led_timer (state w') = None.
Proof.
  intros Hp Hn Es Ec. cbv zeta. unfold handle_input. rewrite Es.
  cbv beta iota zeta delta [input_settings short type key]. rewrite Ec.
  expose w. unfold pwm_tracked in Hp. norm_inv. subst nt.
  destruct target, inv; cbv beta iota delta [InverterId_eqb]; try reflexivity.
  all: destruct pr, pwm_ as [?|], lt as [[? ? ?]|], tt as [[? ? ?]|], ot as [[? ? ?]|];
    try discriminate; repeat split; reflexivity.
Qed.

Lemma settings_profile_change_witness :
  let w := world_after (trace_settings_while_running ++ press InputKeyUp false) in
  pwm_tracked w /\ cursor (state w) = 4 /\
  powered (state (handle_input (short InputKeyOk) false w)) = false.
Proof.
  cbv zeta.
  set (w := world_after (trace_settings_while_running ++ press InputKeyUp false)).
  assert (Hp : pwm_tracked w) by (vm_compute; reflexivity).
  assert (Hn : notif (state w) = true) by (vm_compute; reflexivity).
  assert (Es : screen (state w) = ScreenSettings) by (vm_compute; reflexivity).
  assert (Ec : cursor (state w) = 4) by (vm_compute; reflexivity).
  assert (Ei : InverterId_eqb (inverter (state w)) InvSamsung = false)
    by (vm_compute; reflexivity).
  split; [ exact Hp | split; [ exact Ec | ] ].
  pose proof (settings_profile_change w InvSamsung Hp Hn Es Ec) as H.
  cbv zeta in H. rewrite Ei in H.
  exact (proj1 (proj2 (proj2 H))).
Defined.

(** ** Timer callbacks *)

(** X5. The tick callback only touches [remaining_ms]: it lowers it by
    1000 and stops at 0, never wrapping below zero and never raising
    [timeout_expired]. *)
Theorem tick_timer_cb_clamps (w : World) :
  0 <= remaining_ms (state w) < 2 ^ 32 ->
  tick_timer_cb w =
    on_app (set_remaining_ms (Z.max 0 (remaining_ms (state w) - 1000))) w /\
  0 <= remaining_ms (state (tick_timer_cb w)) <= remaining_ms (state w) /\
  timeout_expired (state (tick_timer_cb w)) = timeout_expired (state w).
Proof.
  intros Hr. unfold tick_timer_cb.
  destruct (1000 <=? remaining_ms (state w)) eqn:E.
  - assert (Eu : u32 (remaining_ms (state w) - 1000) = remaining_ms (state w) - 1000)
      by (unfold u32; apply Z.mod_small; lia).
    rewrite Eu. replace (Z.max 0 (remaining_ms (state w) - 1000))
      with (remaining_ms (state w) - 1000) by lia.
    cbn [on_app state remaining_ms set_remaining_ms timeout_expired].
    repeat split; try reflexivity; lia.
  - replace (Z.max 0 (remaining_ms (state w) - 1000)) with 0 by lia.
    cbn [on_app state remaining_ms set_remaining_ms timeout_expired].
    repeat split; try reflexivity; lia.
Qed.

Lemma tick_timer_cb_clamps_witness :
  0 <= remaining_ms (state (world_after trace_low_speed)) < 2 ^ 32 /\
  remaining_ms (state (tick_timer_cb (world_after trace_low_speed)))
  <= remaining_ms (state (world_after trace_low_speed)).
Proof.
  assert (Hr : 0 <= remaining_ms (state (world_after trace_low_speed)) < 2 ^ 32)
    by (vm_compute; split; congruence).
  split; [ exact Hr | ].
  exact (proj2 (proj1 (proj2 (tick_timer_cb_clamps _ Hr)))).
Defined.

(** X6. The LED callback flips [led_on] and drives the LED to the new
    value; two firings bring [led_on] and the LED back. *)
Theorem led_timer_cb_toggles (w : World) :
  notif (state w) = true ->
  led_on (state (led_timer_cb w)) = negb (led_on (state w)) /\
  led_green (hal (led_timer_cb w)) = negb (led_on (state w)) /\
  led_on (state (led_timer_cb (led_timer_cb w))) = led_on (state w) /\
  led_green (hal (led_timer_cb (led_timer_cb w))) = led_on (state w).
Proof.
  intros Hn. expose w. cbn [notif state] in Hn. subst nt.
  destruct lo; repeat split; reflexivity.
Qed.

Lemma led_timer_cb_toggles_witness :
  notif (state init_world) = true /\
  led_green (hal (led_timer_cb init_world)) = negb (led_on (state init_world)).
Proof.
  assert (Hn : notif (state init_world) = true) by reflexivity.
  split; [ exact Hn | ].
  exact (proj1 (proj2 (led_timer_cb_toggles init_world Hn))).
Defined.

(** ** Outputs follow the mode *)

Lemma out_ext w1 w2 : out_view w1 = out_view w2 -> OutputOk w1 -> OutputOk w2.
Proof.
  intros E [H1 H2 H3 H4]. unfold out_view, hardware in E.
  injection E as Ep Ea El Eo Epm Epl Epw Eot Elg.
  constructor; rewrite <- ?Ep, <- ?Ea, <- ?El, <- ?Eo, <- ?Epm, <- ?Epl, <- ?Epw,
    <- ?Eot, <- ?Elg; assumption.
Qed.

Lemma out_init : OutputOk init_world.
Proof. eval_out. close_out. Qed.

Lemma apply_mode_out idx w :
  0 <= idx < 4 -> powered (state w) = true -> pwm_tracked w ->
  notif (state w) = true -> OutputOk (apply_mode idx w).
Proof.
  intros Hi Hpw Hp Hn. expose w. unfold pwm_tracked in Hp. norm_inv. subst pw nt.
  enum idx 4%nat;
    destruct pr, pwm_ as [?|], lim, lt as [[? ? ?]|], tt as [[? ? ?]|], ot as [[? ? ?]|];
    try discriminate; eval_out; close_out.
Qed.

Lemma enter_safe_menu_out w :
  pwm_tracked w -> notif (state w) = true -> OutputOk (enter_safe_menu w).
Proof.
  intros Hp Hn. expose w. unfold pwm_tracked in Hp. norm_inv. subst nt.
  destruct pr, pwm_ as [?|], lt as [[? ? ?]|], tt as [[? ? ?]|], ot as [[? ? ?]|];
    try discriminate; eval_out; close_out.
Qed.

Lemma enter_powered_menu_standby_out w :
  pwm_tracked w -> notif (state w) = true -> OutputOk (enter_powered_menu_standby w).
Proof.
  intros Hp Hn. expose w. unfold pwm_tracked in Hp. norm_inv. subst nt.
  destruct inv, pr, pwm_ as [?|], lt as [[? ? ?]|], tt as [[? ? ?]|], ot as [[? ? ?]|];
    try discriminate; eval_out; close_out.
Qed.

Lemma stop_timers_out_view w : out_view (stop_timers w) = out_view w.
Proof. expose w. destruct tt as [[? ? ?]|], ot as [[? ? ?]|]; reflexivity. Qed.

Lemma show_hint_out_view w : out_view (show_hint w) = out_view w.
Proof. expose w. destruct ht as [[? ? ?]|]; reflexivity. Qed.

Lemma start_tick_timer_if_needed_out_view w :
  0 <= active (state w) < 4 ->
  out_view (start_tick_timer_if_needed w) = out_view w.
Proof.
  intros Ha. expose w. cbn [active state] in Ha.
  enum act 4%nat; destruct pw, lim, tt as [[? ? ?]|], ot as [[? ? ?]|]; reflexivity.
Qed.

Ltac out_results Ha Hp Hn :=
  repeat match goal with
  | |- context [enter_safe_menu ?x] =>
      name_result (enter_safe_menu_out x Hp Hn) (enter_safe_menu x)
  | |- context [enter_powered_menu_standby ?x] =>
      name_result (enter_powered_menu_standby_out x Hp Hn)
                  (enter_powered_menu_standby x)
  | |- context [show_hint ?x] => name_result (show_hint_out_view x) (show_hint x)
  | |- context [stop_timers ?x] => name_result (stop_timers_out_view x) (stop_timers x)
  | |- context [start_tick_timer_if_needed ?x] =>
      name_result (start_tick_timer_if_needed_out_view x Ha)
                  (start_tick_timer_if_needed x)
  | Hpw : powered (state ?x) = true |- context [apply_mode ?i ?x] =>
      let Hi := fresh "Hi" in
      assert (Hi : 0 <= i < 4) by (change MODE_COUNT with 4 in *; lia);
      name_result (apply_mode_out i x Hi Hpw Hp Hn) (apply_mode i x)
  end.

Ltac out_done H0 :=
  match goal with
  | E : OutputOk ?y |- OutputOk _ => refine (out_ext y _ _ E); reflexivity
  | E : out_view ?y = _ |- OutputOk _ =>
      refine (out_ext _ _ _ H0); transitivity (out_view y);
      [ symmetry; exact E | reflexivity ]
  | |- OutputOk ?x =>
      match type of H0 with OutputOk ?w0 => refine (out_ext w0 x _ H0); reflexivity end
  end.

Lemma handle_input_out ev c w :
  Inv w -> OutputOk w -> OutputOk (handle_input ev c w).
Proof.
  intros H H0. pose proof (inv_cursor _ H) as Hc. pose proof (inv_active _ H) as Ha.
  pose proof (inv_pwm _ H) as Hp. pose proof (inv_notif _ H) as Hn.
  change MODE_COUNT with 4 in Ha. clear H.
  unfold cursor_ok, selectable in Hc.
  unfold handle_input. destruct (screen (state w)) eqn:Es; destruct ev as [ty k];
    destruct ty, k;
    cbv beta iota zeta delta
        [input_select_inverter input_menu input_help input_settings type key
         settings_select_inverter when and_then];
    repeat split_if;
    out_results Ha Hp Hn; clear Hc Ha; out_done H0.
Qed.

Lemma consume_timeout_out w : Inv w -> OutputOk w -> OutputOk (consume_timeout w).
Proof.
  intros H H0. unfold consume_timeout, when.
  destruct (timeout_expired (state w)); [ | exact H0 ].
  apply enter_powered_menu_standby_out;
    [ exact (inv_pwm _ H) | exact (inv_notif _ H) ].
Qed.

Lemma fire_out cb w w' : Inv w -> OutputOk w -> fire cb w = Some w' -> OutputOk w'.
Proof.
  intros H H0 Hf. unfold fire in Hf.
  destruct (timer_slot cb (state w)) as [[ty tcb [d|]]|] eqn:Et; try discriminate.
  cbn [t_armed t_type t_cb] in Hf. injection Hf as <-.
  pose proof (inv_led_wf _ H) as Hl. pose proof (inv_hint_wf _ H) as Hh.
  pose proof (inv_tick_wf _ H) as Ht. pose proof (inv_off_wf _ H) as Hf.
  pose proof (inv_notif _ H) as Hn. clear H.
  destruct H0 as [H1 H2 H3 H4].
  destruct cb; expose w; cbn [timer_slot state led_timer hint_timer tick_timer off_timer] in Et;
    norm_inv; subst.
  - destruct Hl as [-> ->]. destruct lo; eval_out; close_out.
  - destruct Hh as [-> ->]. eval_out. close_out.
  - destruct Ht as [-> ->].
    cbv beta iota delta [and_then skip run_callback tick_timer_cb].
    match goal with |- context [if ?b then _ else _] => destruct b end;
      constructor; norm_inv; assumption.
  - destruct Hf as [-> ->]. eval_out. close_out.
Qed.

Lemma step_out st l l' :
  Inv (world l) -> OutputOk (world l) -> step st l = Some l' -> OutputOk (world l').
Proof.
  intros H H0 Hs. destruct l as [w ph]. cbn [world] in *. unfold step in Hs.
  cbn [world phase] in Hs.
  destruct st as [ | ev c | | cb ].
  - destruct ph; inversion Hs; subst; cbn [world]. apply consume_timeout_out; assumption.
  - destruct ph; try discriminate. destruct (is_long_back ev); inversion Hs; subst.
    cbn [world]. apply handle_input_out; assumption.
  - destruct ph; inversion Hs; subst; exact H0.
  - destruct (fire cb w) as [w'|] eqn:Ef; inversion Hs; subst; cbn [world].
    eapply fire_out; eassumption.
Qed.

Lemma run_out tr :
  forall l l', Inv (world l) -> OutputOk (world l) -> run tr l = Some l' ->
               OutputOk (world l').
Proof.
  induction tr as [ | st tr IH ]; intros l l' H H0 Hr; cbn [run] in Hr.
  - inversion Hr; subst; exact H0.
  - destruct (step st l) as [l1|] eqn:Es; [ | discriminate ].
    eapply IH; [ eapply step_inv | eapply step_out | ]; eassumption.
Qed.

(** X7. In every state the running application passes through the
    outputs follow the mode: while [powered] is false the PWM unit is
    stopped, the pin is a floating input and the 5 V rail is off; in
    powered Stand-by the PWM unit is stopped and the pin is driven low;
    with any other mode active the PWM unit runs at that mode's frequency
    with 50 % duty and the LED timer toggles at that mode's rate. *)
Theorem outputs_follow_mode (l : Loop) :
  Reachable l ->
  let w := world l in
  let s := state w in
  (powered s = false ->
     pwm (hal w) = None /\ pin_mode (hal w) = GpioModeInput /\
     otg (hal w) = false /\ led_timer s = None) /\
  (powered s = true -> active s = 0 ->
     pwm (hal w) = None /\ pin_mode (hal w) = GpioModeOutputPushPull /\
     pin_level (hal w) = false /\ led_timer s = None) /\
  (powered s = true -> active s <> 0 ->
     pwm (hal w) = Some (freq_hz (mode_at (active s)), 50) /\
     pin_mode (hal w) = GpioModeAltFunctionPushPull /\
     led_timer s =
       Some {| t_type := FuriTimerTypePeriodic; t_cb := CbLed;
               t_armed := Some (led_toggle_ms (led_blink_hz (mode_at (active s)))) |}) /\
  (led_timer s = None -> led_on s = false /\ led_green (hal w) = false).
Proof.
  intros [tr Hr]. cbv zeta.
  pose proof (run_out tr init_loop l inv_init out_init Hr) as [H1 H2 H3 H4].
  split; [ exact H1 | split; [ exact H2 | split; [ exact H3 | exact H4 ] ] ].
Qed.

Lemma outputs_follow_mode_witness :
  let l := Build_Loop (world_after trace_low_speed) AtLoopHead in
  Reachable l /\
  (powered (state (world l)) = true -> active (state (world l)) <> 0 ->
   pwm (hal (world l)) = Some (freq_hz (mode_at (active (state (world l)))), 50) /\
   pin_mode (hal (world l)) = GpioModeAltFunctionPushPull /\
   led_timer (state (world l)) =
     Some {| t_type := FuriTimerTypePeriodic; t_cb := CbLed;
             t_armed :=
               Some (led_toggle_ms
                       (led_blink_hz (mode_at (active (state (world l)))))) |}).
Proof.
  cbv zeta.
  assert (Hr : Reachable (Build_Loop (world_after trace_low_speed) AtLoopHead)).
  { exists trace_low_speed. vm_compute. reflexivity. }
  pose proof (outputs_follow_mode _ Hr) as H. cbv zeta in H.
  split; [ exact Hr | exact (proj1 (proj2 (proj2 H))) ].
Defined.

(** ** The cursor stays inside the visible window *)

Lemma enter_safe_menu_win w : win_view (enter_safe_menu w) = (0, 0).
Proof.
  expose w. destruct pr, nt, lt as [[? ? ?]|], tt as [[? ? ?]|], ot as [[? ? ?]|];
    reflexivity.
Qed.

Lemma enter_powered_menu_standby_win w :
  win_view (enter_powered_menu_standby w) = (0, 0).
Proof.
  expose w.
  destruct inv, pr, nt, lt as [[? ? ?]|], tt as [[? ? ?]|], ot as [[? ? ?]|];
    reflexivity.
Qed.

Lemma apply_mode_win idx w :
  0 <= idx < 4 -> win_view (apply_mode idx w) = win_view w.
Proof.
  intros Hi. expose w.
  enum idx 4%nat;
    destruct pr, pw, lim, nt, lt as [[? ? ?]|], tt as [[? ? ?]|], ot as [[? ? ?]|];
    reflexivity.
Qed.

Lemma stop_timers_win w : win_view (stop_timers w) = win_view w.
Proof. expose w. destruct tt as [[? ? ?]|], ot as [[? ? ?]|]; reflexivity. Qed.

Lemma show_hint_win w : win_view (show_hint w) = win_view w.
Proof. expose w. destruct ht as [[? ? ?]|]; reflexivity. Qed.

Lemma start_tick_timer_if_needed_win w :
  0 <= active (state w) < 4 ->
  win_view (start_tick_timer_if_needed w) = win_view w.
Proof.
  intros Ha. expose w. cbn [active state] in Ha.
  enum act 4%nat; destruct pw, lim, tt as [[? ? ?]|], ot as [[? ? ?]|]; reflexivity.
Qed.

Ltac win_results Ha :=
  repeat match goal with
  | |- context [enter_safe_menu ?x] =>
      name_result (conj (enter_safe_menu_win x) (enter_safe_menu_screen x))
                  (enter_safe_menu x)
  | |- context [enter_powered_menu_standby ?x] =>
      name_result (conj (enter_powered_menu_standby_win x)
                        (proj1 (enter_powered_menu_standby_view x)))
                  (enter_powered_menu_standby x)
  | |- context [show_hint ?x] =>
      name_result (conj (show_hint_win x) (proj1 (show_hint_view x))) (show_hint x)
  | |- context [stop_timers ?x] =>
      name_result (conj (stop_timers_win x) (proj1 (stop_timers_view x)))
                  (stop_timers x)
  | |- context [start_tick_timer_if_needed ?x] =>
      name_result (conj (start_tick_timer_if_needed_win x Ha)
                        (proj1 (start_tick_timer_if_needed_view x Ha)))
                  (start_tick_timer_if_needed x)
  | |- context [apply_mode ?i ?x] =>
      let Hi := fresh "Hi" in
      assert (Hi : 0 <= i < 4) by (change MODE_COUNT with 4 in *; lia);
      name_result (conj (apply_mode_win i x Hi) (proj1 (apply_mode_view i x Hi)))
                  (apply_mode i x)
  end.

Ltac win_arith :=
  unfold menu_row_total, u8 in *;
  change MODE_COUNT with 4 in *; change MAX_ROWS with 4 in *;
  change MAX_ROWS_S with 4 in *; change SETTINGS_ROW_TOTAL with 5 in *;
  repeat match goal with
         | H : context [powered ?s] |- _ => destruct (powered s)
         end;
  cbv beta iota in *;
  Z.to_euclidean_division_equations; lia.

Ltac win_done :=
  unfold WindowInv in *; push_all; repeat split_if;
  repeat match goal with
         | E : _ /\ _ |- _ => destruct E
         end;
  repeat match goal with
         | E : (_, _) = (_, _) |- _ => injection E as ? ?
         end;
  repeat match goal with
         | Es : ?a = ScreenSelectInverter, H : ?a = ScreenSelectInverter -> _ |- _ =>
             specialize (H Es)
         end;
  (split; [ | intros ? ]);
  try match goal with
      | H : ?P -> _ |- _ =>
          let HP := fresh in assert (HP : P) by congruence; specialize (H HP)
      end;
  first [ congruence | win_arith ].

Lemma handle_input_win ev c w :
  Inv w -> WindowInv w -> WindowInv (handle_input ev c w).
Proof.
  intros H H0. pose proof (inv_cursor _ H) as Hc. pose proof (inv_active _ H) as Ha.
  change MODE_COUNT with 4 in Ha. clear H.
  unfold cursor_ok, selectable in Hc.
  unfold handle_input. destruct (screen (state w)) eqn:Es; destruct ev as [ty k];
    destruct ty, k;
    cbv beta iota zeta delta
        [input_select_inverter input_menu input_help input_settings type key
         settings_select_inverter when and_then];
    repeat split_if;
    win_results Ha; clear Ha; win_done.
Qed.

Lemma consume_timeout_win w : WindowInv w -> WindowInv (consume_timeout w).
Proof.
  intros H0. unfold consume_timeout, when.
  destruct (timeout_expired (state w)); [ | exact H0 ].
  cbv beta delta [and_then].
  pose proof (enter_powered_menu_standby_win (on_app (set_timeout_expired false) w)) as E.
  pose proof (proj1 (enter_powered_menu_standby_view
                       (on_app (set_timeout_expired false) w))) as E'.
  revert E E'. generalize (enter_powered_menu_standby (on_app (set_timeout_expired false) w)).
  intros y E E'. win_done.
Qed.

Lemma fire_win cb w w' : fire cb w = Some w' -> WindowInv w -> WindowInv w'.
Proof.
  intros Hf H0. unfold fire in Hf.
  destruct (timer_slot cb (state w)) as [[ty tcb [d|]]|] eqn:Et; try discriminate.
  cbn [t_armed t_type t_cb] in Hf. injection Hf as <-.
  assert (E : win_view ((match ty with
                         | FuriTimerTypeOnce =>
                             on_app (set_timer_slot cb
                                       (Some (rearm None
                                                {| t_type := ty; t_cb := tcb;
                                                   t_armed := Some d |})))
                         | FuriTimerTypePeriodic => skip
                         end ;; run_callback tcb) w) = win_view w
              /\ screen (state ((match ty with
                         | FuriTimerTypeOnce =>
                             on_app (set_timer_slot cb
                                       (Some (rearm None
                                                {| t_type := ty; t_cb := tcb;
                                                   t_armed := Some d |})))
                         | FuriTimerTypePeriodic => skip
                         end ;; run_callback tcb) w)) = screen (state w)).
  { clear. expose w. destruct ty, cb, tcb, lo, nt;
      cbv beta iota delta [and_then skip run_callback tick_timer_cb];
      try match goal with |- context [if ?b then _ else _] => destruct b end;
      split; reflexivity. }
  revert E.
  match goal with |- context [win_view ?x = _] => generalize x end.
  intros y E. win_done.
Qed.

Lemma step_win st l l' :
  Inv (world l) -> WindowInv (world l) -> step st l = Some l' -> WindowInv (world l').
Proof.
  intros H H0 Hs. destruct l as [w ph]. cbn [world] in *. unfold step in Hs.
  cbn [world phase] in Hs.
  destruct st as [ | ev c | | cb ].
  - destruct ph; inversion Hs; subst; cbn [world]. apply consume_timeout_win; assumption.
  - destruct ph; try discriminate. destruct (is_long_back ev); inversion Hs; subst.
    cbn [world]. apply handle_input_win; assumption.
  - destruct ph; inversion Hs; subst; exact H0.
  - destruct (fire cb w) as [w'|] eqn:Ef; inversion Hs; subst; cbn [world].
    eapply fire_win; eassumption.
Qed.

Lemma run_win tr :
  forall l l', Inv (world l) -> WindowInv (world l) -> run tr l = Some l' ->
               WindowInv (world l').
Proof.
  induction tr as [ | st tr IH ]; intros l l' H H0 Hr; cbn [run] in Hr.
  - inversion Hr; subst; exact H0.
  - destruct (step st l) as [l1|] eqn:Es; [ | discriminate ].
    eapply IH; [ eapply step_inv | eapply step_win | ]; eassumption.
Qed.

Lemma win_init : WindowInv init_world.
Proof. vm_compute. repeat split; congruence. Qed.

(** X8. In every state the running application passes through the cursor
    lies inside the four-row window that the list screens draw:
    [0 <= first_visible <= cursor < first_visible + 4]. *)
Theorem cursor_in_window (l : Loop) :
  Reachable l ->
  0 <= first_visible (state (world l)) <= cursor (state (world l)) /\
  cursor (state (world l)) < first_visible (state (world l)) + MAX_ROWS.
Proof.
  intros [tr Hr].
  exact (proj1 (run_win tr init_loop l inv_init win_init Hr)).
Qed.

Lemma cursor_in_window_witness :
  let l := Build_Loop (world_after trace_settings_while_running) AtLoopHead in
  Reachable l /\
  (0 <= first_visible (state (world l)) <= cursor (state (world l)) /\
   cursor (state (world l)) < first_visible (state (world l)) + MAX_ROWS).
Proof.
  cbv zeta.
  assert (Hr : Reachable (Build_Loop (world_after trace_settings_while_running) AtLoopHead)).
  { exists trace_settings_while_running. vm_compute. reflexivity. }
  split; [ exact Hr | exact (cursor_in_window _ Hr) ].
Defined.

(** ** Rendering *)

(** X9. The scrollbar draws nothing for a list of at most one step;
    otherwise, for all 16-bit arguments, the thumb lies on the rail
    ([2 <= y <= 61]), and for a position inside the list it is at
    [2 + pos * 60 / (total_steps - 1)], capped at 61: the top of the rail
    for the first step and the cap for the last. *)
Theorem scrollbar_thumb_on_rail (total_steps pos : Z) :
  0 <= total_steps < 65536 -> 0 <= pos < 65536 ->
  (total_steps <= 1 -> draw_scrollbar_dotted total_steps pos = []) /\
  (1 < total_steps ->
     let t := scrollbar_thumb_y total_steps pos in
     draw_scrollbar_dotted total_steps pos =
       rail_dots 32 SCROLLBAR_X SCROLLBAR_Y0 SCROLLBAR_Y1
       ++ [canvas_draw_box 123 (t - 1) 3 4] /\
     SCROLLBAR_Y0 <= t <= SCROLLBAR_Y1 - 1 /\
     (pos < total_steps ->
        t = Z.min 61 (2 + pos * 60 / (total_steps - 1))) /\
     (pos = 0 -> t = 2) /\ (pos = total_steps - 1 -> t = 61)).
Proof.
  intros Ht Hp. split.
  - intros H. unfold draw_scrollbar_dotted.
    destruct (total_steps <=? 1) eqn:E; [ reflexivity | lia ].
  - intros H. cbv zeta.
    assert (Hb : SCROLLBAR_Y0 <= scrollbar_thumb_y total_steps pos <= SCROLLBAR_Y1 - 1).
    { unfold scrollbar_thumb_y, SCROLLBAR_Y0, SCROLLBAR_Y1.
      change (u16 (62 - 1)) with 61. cbv zeta.
      destruct (61 <? _) eqn:E1; [ change (61 <? 2) with false; cbv iota; lia | ].
      destruct (_ <? 2) eqn:E2; lia. }
    assert (Hv : pos < total_steps ->
                 scrollbar_thumb_y total_steps pos
                 = Z.min 61 (2 + pos * 60 / (total_steps - 1))).
    { intros Hlt. unfold scrollbar_thumb_y, SCROLLBAR_Y0, SCROLLBAR_Y1.
      change (u16 (62 - 2)) with 60. change (u16 (62 - 1)) with 61. cbv zeta.
      assert (E : (1 <? total_steps) = true) by lia. rewrite E.
      assert (Eu : u16 (total_steps - 1) = total_steps - 1)
        by (unfold u16; apply Z.mod_small; lia).
      rewrite Eu.
      assert (Hq : 0 <= pos * 60 / (total_steps - 1) <= 60).
      { split; [ apply Z.div_pos; lia | ].
        apply Z.div_le_upper_bound; [ lia | nia ]. }
      assert (Eq : u16 (2 + pos * 60 / (total_steps - 1))
                   = 2 + pos * 60 / (total_steps - 1))
        by (unfold u16; apply Z.mod_small; lia).
      rewrite Eq.
      destruct (61 <? _) eqn:E1; [ change (61 <? 2) with false; cbv iota; lia | ].
      destruct (_ <? 2) eqn:E2; lia. }
    split; [ | split; [ exact Hb | split; [ exact Hv | split ] ] ].
    + unfold draw_scrollbar_dotted.
      destruct (total_steps <=? 1) eqn:E; [ lia | ].
      cbv zeta.
      assert (Eu : u16 (scrollbar_thumb_y total_steps pos - 1)
                   = scrollbar_thumb_y total_steps pos - 1).
      { unfold SCROLLBAR_Y0, SCROLLBAR_Y1 in Hb.
        unfold u16. apply Z.mod_small. lia. }
      rewrite Eu. reflexivity.
    + intros ->. rewrite Hv by lia. rewrite Z.mul_0_l, Z.div_0_l by lia. reflexivity.
    + intros ->. rewrite Hv by lia.
      replace ((total_steps - 1) * 60) with (60 * (total_steps - 1)) by lia.
      rewrite Z.div_mul by lia. reflexivity.
Qed.

Lemma scrollbar_thumb_on_rail_witness :
  0 <= 7 < 65536 /\ 0 <= 6 < 65536 /\
  SCROLLBAR_Y0 <= scrollbar_thumb_y 7 6 <= SCROLLBAR_Y1 - 1.
Proof.
  assert (Ht : 0 <= 7 < 65536) by lia. assert (Hp : 0 <= 6 < 65536) by lia.
  split; [ exact Ht | split; [ exact Hp | ] ].
  assert (H1 : 1 < 7) by lia.
  exact (proj1 (proj2 (proj2 (scrollbar_thumb_on_rail 7 6 Ht Hp) H1))).
Defined.

(** X11. On the Help screen of a reachable state the frame holds the
    lines [help_top_line .. help_top_line + n - 1] of the help text of
    the selected inverter, [n] being the smaller of six and the length of
    the text, one every nine pixels from y = 10, and the window never
    runs past the end of the text. *)
Theorem help_window_in_text (l : Loop) :
  Reachable l ->
  screen (state (world l)) = ScreenHelp ->
  let s := state (world l) in
  let count := help_total_lines (inverter s) in
  let n := Z.min 6 count in
  draw_help s =
    [canvas_clear; canvas_set_font FontSecondary; canvas_set_color ColorBlack]
    ++ map (fun i =>
              canvas_draw_str 2 (10 + 9 * Z.of_nat i)
                (nth (Z.to_nat (help_top_line s) + i) (help_lines (inverter s)) ""%string))
           (List.seq 0 (Z.to_nat n))
    ++ draw_scrollbar_dotted (help_max_top (inverter s) + 1) (help_top_line s)
  /\ help_top_line s + n <= count.
Proof.
  intros Hr Hs. pose proof (inv_help _ (reachable_inv l Hr) Hs) as Hb.
  destruct l as [w ph]. cbn [world] in *. expose w. cbn [state help_top_line inverter screen] in *.
  cbv zeta. destruct inv.
  - assert (Hb' : 0 <= htl <= 32) by exact Hb. clear Hb Hr.
    enum htl 33%nat; (split; [ vm_compute; reflexivity | vm_compute; congruence ]).
  - assert (Hb' : 0 <= htl <= 0) by exact Hb. clear Hb Hr.
    assert (htl = 0) by lia. subst htl.
    split; [ vm_compute; reflexivity | vm_compute; congruence ].
Qed.

Lemma help_window_in_text_witness :
  let l := Build_Loop (world_after trace_help_scrolled) AtLoopHead in
  Reachable l /\ screen (state (world l)) = ScreenHelp /\
  help_top_line (state (world l))
  + Z.min 6 (help_total_lines (inverter (state (world l))))
  <= help_total_lines (inverter (state (world l))).
Proof.
  cbv zeta.
  assert (Hr : Reachable (Build_Loop (world_after trace_help_scrolled) AtLoopHead)).
  { exists trace_help_scrolled. vm_compute. reflexivity. }
  assert (Hs : screen (state (world (Build_Loop (world_after trace_help_scrolled) AtLoopHead)))
               = ScreenHelp) by (vm_compute; reflexivity).
  split; [ exact Hr | split; [ exact Hs | ] ].
  exact (proj2 (help_window_in_text _ Hr Hs)).
Defined.

(** ** The selection caret *)

Lemma carets_spec (cs : list DrawCall) (y : Z) :
  In y (carets cs) <-> In (canvas_draw_str 2 y ">") cs.
Proof.
  unfold carets. rewrite in_flat_map. split.
  - intros [c [Hc Hy]]. destruct c; try contradiction.
    destruct (String.eqb _ ">" && (_ =? 2)) eqn:E; [ | contradiction ].
    apply andb_true_iff in E. destruct E as [E2 E1].
    apply Z.eqb_eq in E1. apply String.eqb_eq in E2.
    destruct Hy as [<- | []]. subst. exact Hc.
  - intros H. eexists. split; [ exact H | ]. cbn. left. reflexivity.
Qed.

Lemma carets_app (a b : list DrawCall) : carets (a ++ b) = carets a ++ carets b.
Proof. apply flat_map_app. Qed.

Lemma carets_scrollbar (total_steps pos : Z) :
  carets (draw_scrollbar_dotted total_steps pos) = [].
Proof.
  unfold draw_scrollbar_dotted. destruct (total_steps <=? 1); [ reflexivity | ].
  cbv zeta. rewrite carets_app. reflexivity.
Qed.

Lemma carets_hint (s : AppState) : carets (draw_hint s) = [].
Proof. unfold draw_hint. destruct (hint_visible s); reflexivity. Qed.

Lemma carets_title (canvas_string_width : string -> Z) (s : AppState) :
  carets (draw_title canvas_string_width s) = [].
Proof.
  unfold draw_title. cbv zeta. rewrite carets_app.
  destruct (inverter s); (destruct (0 <? remaining_ms s); [ | reflexivity ]).
  all: change (carets [canvas_set_font FontPrimary; canvas_set_color ColorBlack;
                       canvas_draw_str 4 TITLE_Y (_ ++ " Starter")]) with (@nil Z).
  all: cbn [List.app].
  all: assert (E : String.eqb (decimal (u32 (remaining_ms s + 999) / 1000) ++ "s") ">"
                   = false)
         by (apply String.eqb_neq; intros H;
             destruct (decimal (u32 (remaining_ms s + 999) / 1000)) as [ | c [ | c' t]];
             discriminate).
  all: unfold carets; cbn [flat_map]; rewrite E; reflexivity.
Qed.

Lemma carets_menu (canvas_string_width : string -> Z) (s : AppState) :
  carets (draw_menu canvas_string_width s) =
  carets (draw_rows (draw_menu_row s)
            (clamp_first_visible (first_visible s) MAX_ROWS (menu_row_total s))
            (menu_row_total s) 4 0).
Proof.
  unfold draw_menu. cbv zeta.
  change (canvas_clear :: ?l) with ([canvas_clear] ++ l).
  rewrite !carets_app, carets_title, carets_scrollbar, carets_hint.
  cbn [carets flat_map List.app]. apply app_nil_r.
Qed.

Lemma carets_settings (canvas_string_width : string -> Z) (s : AppState) :
  carets (draw_settings canvas_string_width s) =
  carets (draw_rows (draw_settings_row canvas_string_width s)
            (clamp_first_visible (first_visible s) MAX_ROWS_S SETTINGS_ROW_TOTAL)
            SETTINGS_ROW_TOTAL 4 0).
Proof.
  unfold draw_settings. cbv zeta.
  rewrite !carets_app, carets_scrollbar. rewrite app_nil_r. reflexivity.
Qed.

Lemma carets_select_inverter (s : AppState) :
  carets (draw_select_inverter s) =
  carets [canvas_draw_str 2 ROW_Y0 (caret (cursor s =? 0));
          canvas_draw_str 2 (ROW_Y0 + ROW_DY) (caret (cursor s =? 1))].
Proof.
  unfold draw_select_inverter.
  rewrite !carets_app, carets_scrollbar, carets_hint.
  rewrite !app_nil_r. reflexivity.
Qed.

(** X12. On the three list screens of a reachable state the frame holds
    exactly one selection caret, on the row of the cursor: row
    [cursor - window_top] of the four drawn rows. *)
Theorem caret_on_cursor_row (canvas_string_width : string -> Z) (l : Loop) :
  Reachable l ->
  screen (state (world l)) <> ScreenHelp ->
  let s := state (world l) in
  let i := cursor s - window_top s in
  0 <= i < MAX_ROWS /\
  carets (draw_cb canvas_string_width s) = [ROW_Y0 + i * ROW_DY] /\
  forall y, In (canvas_draw_str 2 y ">") (draw_cb canvas_string_width s)
            <-> y = ROW_Y0 + i * ROW_DY.
Proof.
  intros [tr Hr] Hs. cbv zeta.
  assert (H : 0 <= cursor (state (world l)) - window_top (state (world l)) < MAX_ROWS /\
              carets (draw_cb canvas_string_width (state (world l)))
              = [ROW_Y0 + (cursor (state (world l)) - window_top (state (world l))) * ROW_DY]).
  2:{ destruct H as [H1 H2]. split; [ exact H1 | split; [ exact H2 | ] ].
      intros y. rewrite <- carets_spec, H2. cbn [In]. intuition congruence. }
  pose proof (run_inv tr init_loop l inv_init Hr) as HI.
  pose proof (run_win tr init_loop l inv_init win_init Hr) as [[Hw1 Hw2] Hw3].
  pose proof (inv_cursor _ HI) as Hc. pose proof (inv_active _ HI) as Ha.
  clear HI Hr tr.
  destruct l as [w ph]. cbn [world] in *. expose w.
  cbn [state screen cursor first_visible active] in *.
  unfold cursor_ok, selectable, menu_row_total in Hc.
  cbn [screen cursor powered] in Hc.
  change (u8 (MODE_COUNT + 3)) with 7 in Hc.
  change SETTINGS_ROW_TOTAL with 5 in Hc.
  change MODE_COUNT with 4 in Ha. change MAX_ROWS with 4 in *.
  unfold draw_cb. cbn [screen].
  destruct sc; [ | | congruence | ].
  - (* inverter selection *)
    specialize (Hw3 eq_refl). subst fv. rewrite carets_select_inverter.
    assert (Hcur : 0 <= cur < 2) by lia. clear Hc Hw1 Hw2.
    enum cur 2%nat; (split; [ vm_compute; split; congruence | vm_compute; reflexivity ]).
  - (* menu *)
    rewrite carets_menu. destruct pw.
    + assert (Hcur : 0 <= cur < 7) by lia. clear Hc.
      enum cur 7%nat; enum fv 7%nat; try (exfalso; lia); enum act 4%nat;
        (split; [ vm_compute; split; congruence | vm_compute; reflexivity ]).
    + assert (Hcur : 0 <= cur < 3) by lia. clear Hc.
      enum cur 3%nat; enum fv 3%nat; try (exfalso; lia);
        (split; [ vm_compute; split; congruence | vm_compute; reflexivity ]).
  - (* settings *)
    rewrite carets_settings.
    assert (Hcur : 0 <= cur < 5 /\ cur <> 2) by lia. clear Hc.
    destruct Hcur as [Hcur Hne].
    enum cur 5%nat; try (exfalso; lia); enum fv 5%nat; try (exfalso; lia);
      destruct lim, cap, inv;
      (split; [ vm_compute; split; congruence | vm_compute; reflexivity ]).
Qed.

Lemma caret_on_cursor_row_witness :
  let l := Build_Loop (world_after trace_low_speed) AtLoopHead in
  Reachable l /\ screen (state (world l)) <> ScreenHelp /\
  0 <= cursor (state (world l)) - window_top (state (world l)) < MAX_ROWS.
Proof.
  cbv zeta.
  assert (Hr : Reachable (Build_Loop (world_after trace_low_speed) AtLoopHead)).
  { exists trace_low_speed. vm_compute. reflexivity. }
  assert (Hs : screen (state (world (Build_Loop (world_after trace_low_speed) AtLoopHead)))
               <> ScreenHelp) by (vm_compute; congruence).
  split; [ exact Hr | split; [ exact Hs | ] ].
  exact (proj1 (caret_on_cursor_row (fun _ => 0) _ Hr Hs)).
Defined.

(** ** The draw-time clamp of the window *)

Lemma enter_safe_menu_powered w : powered (state (enter_safe_menu w)) = false.
Proof.
  expose w. destruct pr, nt, lt as [[? ? ?]|], tt as [[? ? ?]|], ot as [[? ? ?]|];
    reflexivity.
Qed.

Lemma enter_powered_menu_standby_powered w :
  powered (state (enter_powered_menu_standby w)) = true.
Proof.
  expose w.
  destruct inv, pr, nt, lt as [[? ? ?]|], tt as [[? ? ?]|], ot as [[? ? ?]|];
    reflexivity.
Qed.

Lemma apply_mode_powered idx w :
  0 <= idx < 4 -> powered (state (apply_mode idx w)) = powered (state w).
Proof.
  intros Hi. expose w.
  enum idx 4%nat;
    destruct pr, pw, lim, nt, lt as [[? ? ?]|], tt as [[? ? ?]|], ot as [[? ? ?]|];
    reflexivity.
Qed.

Lemma stop_timers_powered w : powered (state (stop_timers w)) = powered (state w).
Proof. expose w. destruct tt as [[? ? ?]|], ot as [[? ? ?]|]; reflexivity. Qed.

Lemma show_hint_powered w : powered (state (show_hint w)) = powered (state w).
Proof. expose w. destruct ht as [[? ? ?]|]; reflexivity. Qed.

Lemma start_tick_timer_if_needed_powered w :
  0 <= active (state w) < 4 ->
  powered (state (start_tick_timer_if_needed w)) = powered (state w).
Proof.
  intros Ha. expose w. cbn [active state] in Ha.
  enum act 4%nat; destruct pw, lim, tt as [[? ? ?]|], ot as [[? ? ?]|]; reflexivity.
Qed.

Ltac top_results Ha :=
  repeat match goal with
  | |- context [enter_safe_menu ?x] =>
      name_result (conj (enter_safe_menu_win x)
                     (conj (enter_safe_menu_screen x) (enter_safe_menu_powered x)))
                  (enter_safe_menu x)
  | |- context [enter_powered_menu_standby ?x] =>
      name_result (conj (enter_powered_menu_standby_win x)
                     (conj (proj1 (enter_powered_menu_standby_view x))
                           (enter_powered_menu_standby_powered x)))
                  (enter_powered_menu_standby x)
  | |- context [show_hint ?x] =>
      name_result (conj (show_hint_win x)
                     (conj (proj1 (show_hint_view x)) (show_hint_powered x)))
                  (show_hint x)
  | |- context [stop_timers ?x] =>
      name_result (conj (stop_timers_win x)
                     (conj (proj1 (stop_timers_view x)) (stop_timers_powered x)))
                  (stop_timers x)
  | |- context [start_tick_timer_if_needed ?x] =>
      name_result (conj (start_tick_timer_if_needed_win x Ha)
                     (conj (proj1 (start_tick_timer_if_needed_view x Ha))
                           (start_tick_timer_if_needed_powered x Ha)))
                  (start_tick_timer_if_needed x)
  | |- context [apply_mode ?i ?x] =>
      let Hi := fresh "Hi" in
      assert (Hi : 0 <= i < 4) by (change MODE_COUNT with 4 in *; lia);
      name_result (conj (apply_mode_win i x Hi)
                     (conj (proj1 (apply_mode_view i x Hi)) (apply_mode_powered i x Hi)))
                  (apply_mode i x)
  end.

Ltac top_done :=
  unfold ClampInv, WindowInv, window_top, clamp_first_visible, menu_row_total in *;
  push_all; repeat split_if;
  repeat match goal with
         | E : _ /\ _ |- _ => destruct E
         end;
  repeat match goal with
         | E : (_, _) = (_, _) |- _ => injection E as ? ?
         end;
  repeat match goal with
         | |- context [screen (state ?w)] => gen (screen (state w))
         | H : context [screen (state ?w)] |- _ => gen (screen (state w))
         | |- context [powered (state ?w)] => gen (powered (state w))
         | H : context [powered (state ?w)] |- _ => gen (powered (state w))
         | |- context [cursor (state ?w)] => gen (cursor (state w))
         | H : context [cursor (state ?w)] |- _ => gen (cursor (state w))
         | |- context [first_visible (state ?w)] => gen (first_visible (state w))
         | H : context [first_visible (state ?w)] |- _ => gen (first_visible (state w))
         end;
  subst;
  repeat match goal with
         | x : ScreenId |- _ => destruct x; try discriminate
         | x : bool |- _ => destruct x; try discriminate
         end;
  unfold u8 in *;
  change MODE_COUNT with 4 in *; change MAX_ROWS with 4 in *;
  change MAX_ROWS_S with 4 in *; change SETTINGS_ROW_TOTAL with 5 in *;
  cbv beta iota in *;
  repeat match goal with
         | H : ?P -> _ |- _ =>
             first [ let HP := fresh in
                     assert (HP : P) by congruence; specialize (H HP)
                   | clear H ]
         end;
  repeat match goal with
         | H : context [if _ then _ else _] |- _ => revert H
         end;
  repeat match goal with
         | |- context [if ?b then _ else _] => destruct b eqn:?
         end;
  intros;
  first [ congruence | Z.to_euclidean_division_equations; lia ].

Lemma handle_input_top ev c w :
  Inv w -> WindowInv w -> ClampInv w -> ClampInv (handle_input ev c w).
Proof.
  intros H H0 H1. pose proof (inv_cursor _ H) as Hc. pose proof (inv_active _ H) as Ha.
  change MODE_COUNT with 4 in Ha. clear H.
  unfold cursor_ok, selectable in Hc.
  unfold handle_input. destruct (screen (state w)) eqn:Es; destruct ev as [ty k];
    destruct ty, k;
    cbv beta iota zeta delta
        [input_select_inverter input_menu input_help input_settings type key
         settings_select_inverter when and_then];
    repeat split_if;
    top_results Ha; clear Ha; top_done.
Qed.

Lemma clamp_ext w w' : nav_view w' = nav_view w -> ClampInv w -> ClampInv w'.
Proof.
  unfold nav_view, ClampInv, window_top, menu_row_total.
  intros E. injection E as E1 E2 E3 E4. rewrite E1, E2, E4. exact (fun H => H).
Qed.

Lemma consume_timeout_top w : ClampInv w -> ClampInv (consume_timeout w).
Proof.
  intros H0. unfold consume_timeout, when.
  destruct (timeout_expired (state w)); [ | exact H0 ].
  cbv beta delta [and_then].
  pose proof (enter_powered_menu_standby_win (on_app (set_timeout_expired false) w)) as E.
  pose proof (enter_powered_menu_standby_powered
                (on_app (set_timeout_expired false) w)) as E'.
  revert E E'. generalize (enter_powered_menu_standby (on_app (set_timeout_expired false) w)).
  intros y E E'. unfold win_view in E. injection E as Ec Ef.
  unfold ClampInv, window_top, clamp_first_visible, menu_row_total.
  rewrite E', Ef. destruct (screen (state y)); reflexivity.
Qed.

Lemma fire_top cb w w' : fire cb w = Some w' -> ClampInv w -> ClampInv w'.
Proof.
  intros Hf. apply clamp_ext. unfold fire in Hf.
  destruct (timer_slot cb (state w)) as [[ty tcb [d|]]|] eqn:Et; try discriminate.
  cbn [t_armed t_type t_cb] in Hf. injection Hf as <-.
  clear. expose w. destruct ty, cb, tcb, lo, nt;
    cbv beta iota delta [and_then skip run_callback tick_timer_cb];
    try match goal with |- context [if ?b then _ else _] => destruct b end;
    reflexivity.
Qed.

Lemma step_top st l l' :
  Inv (world l) -> WindowInv (world l) -> ClampInv (world l) ->
  step st l = Some l' -> ClampInv (world l').
Proof.
  intros H H0 H1 Hs. destruct l as [w ph]. cbn [world] in *. unfold step in Hs.
  cbn [world phase] in Hs.
  destruct st as [ | ev c | | cb ].
  - destruct ph; inversion Hs; subst; cbn [world]. apply consume_timeout_top; assumption.
  - destruct ph; try discriminate. destruct (is_long_back ev); inversion Hs; subst.
    cbn [world]. apply handle_input_top; assumption.
  - destruct ph; inversion Hs; subst; exact H1.
  - destruct (fire cb w) as [w'|] eqn:Ef; inversion Hs; subst; cbn [world].
    eapply fire_top; eassumption.
Qed.

Lemma run_top tr :
  forall l l', Inv (world l) -> WindowInv (world l) -> ClampInv (world l) ->
               run tr l = Some l' -> ClampInv (world l').
Proof.
  induction tr as [ | st tr IH ]; intros l l' H H0 H1 Hr; cbn [run] in Hr.
  - inversion Hr; subst; exact H1.
  - destruct (step st l) as [l1|] eqn:Es; [ | discriminate ].
    eapply IH; [ eapply step_inv | eapply step_win | eapply step_top | ]; eassumption.
Qed.

Lemma top_init : ClampInv init_world.
Proof. reflexivity. Qed.

(** X13. In every state the running application passes through, the
    clamp that [draw_menu] and [draw_settings] apply to [first_visible]
    changes nothing: the rows drawn start at the stored top of the
    window. *)
Theorem draw_clamp_is_identity (l : Loop) :
  Reachable l ->
  window_top (state (world l)) = first_visible (state (world l)).
Proof.
  intros [tr Hr].
  exact (run_top tr init_loop l inv_init win_init top_init Hr).
Qed.

Lemma draw_clamp_is_identity_witness :
  let l := Build_Loop (world_after trace_settings_while_running) AtLoopHead in
  Reachable l /\ window_top (state (world l)) = first_visible (state (world l)).
Proof.
  cbv zeta.
  assert (Hr : Reachable (Build_Loop (world_after trace_settings_while_running) AtLoopHead)).
  { exists trace_settings_while_running. vm_compute. reflexivity. }
  split; [ exact Hr | exact (draw_clamp_is_identity _ Hr) ].
Defined.

(** ** The flags that mirror the hardware *)

(** X14. In every state the running application passes through, the
    5 V rail is on exactly when the application is powered with the
    Samsung profile, and [pwm_running] is set exactly when the PWM unit
    runs. *)
Theorem flags_track_hardware (l : Loop) :
  Reachable l ->
  otg (hal (world l))
  = powered (state (world l)) && InverterId_eqb (inverter (state (world l))) InvSamsung /\
  pwm_running (state (world l))
  = match pwm (hal (world l)) with Some _ => true | None => false end.
Proof.
  intros Hr. pose proof (reachable_inv l Hr) as H.
  split; [ exact (inv_otg _ H) | exact (inv_pwm _ H) ].
Qed.

Lemma flags_track_hardware_witness :
  let l := Build_Loop (world_after trace_low_speed) AtLoopHead in
  Reachable l /\
  pwm_running (state (world l))
  = match pwm (hal (world l)) with Some _ => true | None => false end.
Proof.
  cbv zeta.
  assert (Hr : Reachable (Build_Loop (world_after trace_low_speed) AtLoopHead)).
  { exists trace_low_speed. vm_compute. reflexivity. }
  split; [ exact Hr | exact (proj2 (flags_track_hardware _ Hr)) ].
Defined.

(** ** The countdown value *)

Lemma count_zero w : remaining_ms (state w) = 0 -> CountInv w.
Proof.
  intros E. unfold CountInv. rewrite E.
  pose proof (default_secs_range (active (state w))).
  split; [ lia | split; [ reflexivity | congruence ] ].
Qed.

Lemma count_ext w w' : cnt_view w' = cnt_view w -> CountInv w -> CountInv w'.
Proof.
  unfold cnt_view, CountInv, gating. intros E. injection E as E1 E2 E3 E4.
  rewrite E1, E2, E3, E4. exact (fun H => H).
Qed.

Lemma enter_safe_menu_count w : remaining_ms (state (enter_safe_menu w)) = 0.
Proof.
  expose w. destruct pr, nt, lt as [[? ? ?]|], tt as [[? ? ?]|], ot as [[? ? ?]|];
    reflexivity.
Qed.

Lemma enter_powered_menu_standby_count w :
  remaining_ms (state (enter_powered_menu_standby w)) = 0.
Proof.
  expose w.
  destruct inv, pr, nt, lt as [[? ? ?]|], tt as [[? ? ?]|], ot as [[? ? ?]|];
    reflexivity.
Qed.

Lemma apply_mode_count idx w : 0 <= idx < 4 -> CountInv (apply_mode idx w).
Proof.
  intros Hi. expose w.
  enum idx 4%nat;
    destruct pr, pw, lim, nt, lt as [[? ? ?]|], tt as [[? ? ?]|], ot as [[? ? ?]|];
    vm_compute; (split; [ split; congruence | split; [ reflexivity | congruence ] ]).
Qed.

Lemma start_tick_timer_if_needed_count w :
  0 <= active (state w) < 4 -> CountInv (start_tick_timer_if_needed w).
Proof.
  intros Ha. expose w. cbn [active state] in Ha.
  enum act 4%nat; destruct pw, lim, tt as [[? ? ?]|], ot as [[? ? ?]|];
    vm_compute; (split; [ split; congruence | split; [ reflexivity | congruence ] ]).
Qed.

Lemma stop_timers_count w : cnt_view (stop_timers w) = cnt_view w.
Proof. expose w. destruct tt as [[? ? ?]|], ot as [[? ? ?]|]; reflexivity. Qed.

Lemma show_hint_count w : cnt_view (show_hint w) = cnt_view w.
Proof. expose w. destruct ht as [[? ? ?]|]; reflexivity. Qed.

Ltac cnt_results Ha :=
  repeat match goal with
  | |- context [enter_safe_menu ?x] =>
      name_result (enter_safe_menu_count x) (enter_safe_menu x)
  | |- context [enter_powered_menu_standby ?x] =>
      name_result (enter_powered_menu_standby_count x) (enter_powered_menu_standby x)
  | |- context [show_hint ?x] =>
      name_result (show_hint_count x) (show_hint x)
  | |- context [stop_timers ?x] =>
      name_result (stop_timers_count x) (stop_timers x)
  | |- context [start_tick_timer_if_needed ?x] =>
      name_result (start_tick_timer_if_needed_count x Ha) (start_tick_timer_if_needed x)
  | |- context [apply_mode ?i ?x] =>
      let Hi := fresh "Hi" in
      assert (Hi : 0 <= i < 4) by (change MODE_COUNT with 4 in *; lia);
      name_result (apply_mode_count i x Hi) (apply_mode i x)
  end.

Ltac cnt_done :=
  unfold CountInv, cnt_view, gating in *; push_state;
  repeat match goal with
         | E : _ /\ _ |- _ => destruct E
         end;
  repeat match goal with
         | E : (_, _) = (_, _) |- _ => injection E as ? ?
         end;
  repeat match goal with
         | |- context [remaining_ms (state ?w)] => gen (remaining_ms (state w))
         | H : context [remaining_ms (state ?w)] |- _ => gen (remaining_ms (state w))
         | |- context [powered (state ?w)] => gen (powered (state w))
         | H : context [powered (state ?w)] |- _ => gen (powered (state w))
         | |- context [limit_runtime (state ?w)] => gen (limit_runtime (state w))
         | H : context [limit_runtime (state ?w)] |- _ => gen (limit_runtime (state w))
         | |- context [active (state ?w)] => gen (active (state w))
         | H : context [active (state ?w)] |- _ => gen (active (state w))
         end;
  subst;
  repeat match goal with
         | |- context [default_secs (mode_at ?i)] =>
             lazymatch goal with
             | _ : 0 <= default_secs (mode_at i) <= 120 |- _ => fail
             | _ => pose proof (default_secs_range i)
             end
         end;
  repeat split;
  first [ assumption | reflexivity | congruence | lia ].

Lemma handle_input_count ev c w :
  Inv w -> CountInv w -> CountInv (handle_input ev c w).
Proof.
  intros H H0. pose proof (inv_cursor _ H) as Hc. pose proof (inv_active _ H) as Ha.
  change MODE_COUNT with 4 in Ha. clear H.
  unfold cursor_ok, selectable in Hc.
  unfold handle_input. destruct (screen (state w)) eqn:Es; destruct ev as [ty k];
    destruct ty, k;
    cbv beta iota zeta delta
        [input_select_inverter input_menu input_help input_settings type key
         settings_select_inverter when and_then];
    repeat split_if;
    cnt_results Ha; clear Ha; cnt_done.
Qed.

Lemma consume_timeout_count w : CountInv w -> CountInv (consume_timeout w).
Proof.
  intros H0. unfold consume_timeout, when.
  destruct (timeout_expired (state w)); [ | exact H0 ].
  cbv beta delta [and_then]. apply count_zero.
  apply enter_powered_menu_standby_count.
Qed.

Lemma fire_count cb w w' : fire cb w = Some w' -> CountInv w -> CountInv w'.
Proof.
  intros Hf H0. unfold fire in Hf.
  destruct (timer_slot cb (state w)) as [[ty tcb [d|]]|] eqn:Et; try discriminate.
  cbn [t_armed t_type t_cb] in Hf. injection Hf as <-. clear Et.
  destruct tcb.
  - (* LED toggle *)
    refine (count_ext w _ _ H0). clear. expose w. destruct ty, cb, lo, nt; reflexivity.
  - (* hint *)
    refine (count_ext w _ _ H0). clear. expose w. destruct ty, cb; reflexivity.
  - (* tick *)
    unfold CountInv, gating in *. expose w.
    cbn [state remaining_ms powered limit_runtime active] in H0.
    pose proof (default_secs_range act) as Hd.
    destruct H0 as [[H1 H2] [H3 H4]].
    destruct ty, cb;
      cbv beta iota delta [and_then skip run_callback tick_timer_cb on_app state
                           remaining_ms set_remaining_ms set_timer_slot rearm
                           set_led_timer set_hint_timer set_tick_timer set_off_timer
                           powered limit_runtime active t_type t_cb];
      (destruct (1000 <=? rem) eqn:E;
       [ assert (Eu : u32 (rem - 1000) = rem - 1000)
           by (unfold u32; apply Z.mod_small; lia);
         rewrite Eu;
         (split; [ lia | split; [ | intros _; apply H4; lia ] ]);
         revert H3; Z.to_euclidean_division_equations; lia
       | split; [ lia | split; [ reflexivity | congruence ] ] ]).
  - (* expiry *)
    apply count_zero. clear. expose w. destruct ty, cb; reflexivity.
Qed.

Lemma step_count st l l' :
  Inv (world l) -> CountInv (world l) -> step st l = Some l' -> CountInv (world l').
Proof.
  intros H H0 Hs. destruct l as [w ph]. cbn [world] in *. unfold step in Hs.
  cbn [world phase] in Hs.
  destruct st as [ | ev c | | cb ].
  - destruct ph; inversion Hs; subst; cbn [world]. apply consume_timeout_count; assumption.
  - destruct ph; try discriminate. destruct (is_long_back ev); inversion Hs; subst.
    cbn [world]. apply handle_input_count; assumption.
  - destruct ph; inversion Hs; subst; exact H0.
  - destruct (fire cb w) as [w'|] eqn:Ef; inversion Hs; subst; cbn [world].
    eapply fire_count; eassumption.
Qed.

Lemma run_count tr :
  forall l l', Inv (world l) -> CountInv (world l) -> run tr l = Some l' ->
               CountInv (world l').
Proof.
  induction tr as [ | st tr IH ]; intros l l' H H0 Hr; cbn [run] in Hr.
  - inversion Hr; subst; exact H0.
  - destruct (step st l) as [l1|] eqn:Es; [ | discriminate ].
    eapply IH; [ eapply step_inv | eapply step_count | ]; eassumption.
Qed.

Lemma count_init : CountInv init_world.
Proof. apply count_zero. reflexivity. Qed.

(** X15. In every state the running application passes through, the
    countdown is a whole number of seconds between 0 and the active
    mode's limit, and it is non-zero only while the limit applies
    (powered, limit enabled, a mode other than Stand-by with a non-zero
    limit); so the title shows exactly [remaining_ms / 1000] seconds. *)
Theorem countdown_in_range (l : Loop) :
  Reachable l ->
  let s := state (world l) in
  0 <= remaining_ms s <= default_secs (mode_at (active s)) * 1000 /\
  remaining_ms s mod 1000 = 0 /\
  (remaining_ms s <> 0 -> gating s = true) /\
  u32 (remaining_ms s + 999) / 1000 = remaining_ms s / 1000.
Proof.
  intros [tr Hr]. cbv zeta.
  pose proof (run_count tr init_loop l inv_init count_init Hr) as [[H1 H2] [H3 H4]].
  pose proof (default_secs_range (active (state (world l)))) as Hd.
  split; [ split; assumption | split; [ exact H3 | split; [ exact H4 | ] ] ].
  assert (Eu : u32 (remaining_ms (state (world l)) + 999)
               = remaining_ms (state (world l)) + 999)
    by (unfold u32; apply Z.mod_small; lia).
  rewrite Eu. revert H3. generalize (remaining_ms (state (world l))). intros r H3.
  Z.to_euclidean_division_equations. lia.
Qed.

Lemma countdown_in_range_witness :
  let l := Build_Loop (world_after (trace_low_speed ++ [StFire CbTick])) AtLoopHead in
  Reachable l /\
  0 <= remaining_ms (state (world l))
    <= default_secs (mode_at (active (state (world l)))) * 1000.
Proof.
  cbv zeta.
  assert (Hr : Reachable (Build_Loop (world_after (trace_low_speed ++ [StFire CbTick]))
                                     AtLoopHead)).
  { exists (trace_low_speed ++ [StFire CbTick]). vm_compute. reflexivity. }
  split; [ exact Hr | exact (proj1 (countdown_in_range _ Hr)) ].
Defined.

(** ** The countdown in the title *)

Lemma draw_title_shape (canvas_string_width : string -> Z) (s : AppState) :
  0 <= remaining_ms s < 2 ^ 32 - 999 ->
  let sec := (remaining_ms s + 999) / 1000 in
  let text := (decimal sec ++ "s")%string in
  draw_title canvas_string_width s =
    [canvas_set_font FontPrimary; canvas_set_color ColorBlack;
     canvas_draw_str 4 TITLE_Y
       ((match inverter s with
         | InvEmbraco => "Embraco"
         | InvSamsung => "Samsung"
         end) ++ " Starter")%string]
    ++ (if remaining_ms s =? 0 then []
        else [canvas_draw_str (right_aligned_x canvas_string_width text) TITLE_Y text])
  /\ (sec - 1) * 1000 < remaining_ms s <= sec * 1000.
Proof.
  intros Hr. cbv zeta. split.
  - unfold draw_title. f_equal.
    destruct (remaining_ms s =? 0) eqn:E0.
    + assert (E : (0 <? remaining_ms s) = false) by lia. rewrite E. reflexivity.
    + assert (E : (0 <? remaining_ms s) = true) by lia. rewrite E. cbv zeta.
      assert (Eu : u32 (remaining_ms s + 999) = remaining_ms s + 999)
        by (unfold u32; apply Z.mod_small; lia).
      rewrite Eu. reflexivity.
  - pose proof (Z.div_mod (remaining_ms s + 999) 1000 ltac:(lia)) as Hd.
    pose proof (Z.mod_pos_bound (remaining_ms s + 999) 1000 ltac:(lia)) as Hm.
    lia.
Qed.

(** X10. In every state the running application passes through
    [remaining_ms] is at most 120000, and the title shows the countdown
    only while [remaining_ms] is not 0, as whole seconds rounded up, so
    it never reads "0s" while time remains. *)
Theorem title_countdown_rounds_up (canvas_string_width : string -> Z) (l : Loop) :
  Reachable l ->
  let s := state (world l) in
  let sec := (remaining_ms s + 999) / 1000 in
  let text := (decimal sec ++ "s")%string in
  0 <= remaining_ms s <= 120000 /\
  draw_title canvas_string_width s =
    [canvas_set_font FontPrimary; canvas_set_color ColorBlack;
     canvas_draw_str 4 TITLE_Y
       ((match inverter s with
         | InvEmbraco => "Embraco"
         | InvSamsung => "Samsung"
         end) ++ " Starter")%string]
    ++ (if remaining_ms s =? 0 then []
        else [canvas_draw_str (right_aligned_x canvas_string_width text) TITLE_Y text])
  /\ (sec - 1) * 1000 < remaining_ms s <= sec * 1000.
Proof.
  intros [tr Hr]. cbv zeta.
  pose proof (run_count tr init_loop l inv_init count_init Hr) as [[H1 H2] _].
  pose proof (default_secs_range (active (state (world l)))) as Hd.
  assert (Hb : 0 <= remaining_ms (state (world l)) <= 120000) by lia.
  split; [ exact Hb | ].
  apply draw_title_shape. lia.
Qed.

Lemma title_countdown_rounds_up_witness :
  let l := Build_Loop (world_after (trace_low_speed ++ [StFire CbTick])) AtLoopHead in
  Reachable l /\ remaining_ms (state (world l)) = 119000 /\
  0 <= remaining_ms (state (world l)) <= 120000.
Proof.
  cbv zeta.
  assert (Hr : Reachable (Build_Loop (world_after (trace_low_speed ++ [StFire CbTick]))
                                     AtLoopHead)).
  { exists (trace_low_speed ++ [StFire CbTick]). vm_compute. reflexivity. }
  split; [ exact Hr | split; [ vm_compute; reflexivity | ] ].
  exact (proj1 (title_countdown_rounds_up (fun _ => 0) _ Hr)).
Defined.

(** ** The hint ribbon *)

Lemma hint_ext w w' : hint_view w' = hint_view w -> HintInv w -> HintInv w'.
Proof.
  unfold hint_view, HintInv. intros E. injection E as E1 E2.
  rewrite E1, E2. exact (fun H => H).
Qed.

Lemma enter_safe_menu_hint w : hint_view (enter_safe_menu w) = hint_view w.
Proof.
  expose w. destruct pr, nt, lt as [[? ? ?]|], tt as [[? ? ?]|], ot as [[? ? ?]|];
    reflexivity.
Qed.

Lemma enter_powered_menu_standby_hint w :
  hint_view (enter_powered_menu_standby w) = hint_view w.
Proof.
  expose w.
  destruct inv, pr, nt, lt as [[? ? ?]|], tt as [[? ? ?]|], ot as [[? ? ?]|];
    reflexivity.
Qed.

Lemma apply_mode_hint idx w :
  0 <= idx < 4 -> hint_view (apply_mode idx w) = hint_view w.
Proof.
  intros Hi. expose w.
  enum idx 4%nat;
    destruct pr, pw, lim, nt, lt as [[? ? ?]|], tt as [[? ? ?]|], ot as [[? ? ?]|];
    reflexivity.
Qed.

Lemma stop_timers_hint w : hint_view (stop_timers w) = hint_view w.
Proof. expose w. destruct tt as [[? ? ?]|], ot as [[? ? ?]|]; reflexivity. Qed.

Lemma start_tick_timer_if_needed_hint w :
  0 <= active (state w) < 4 ->
  hint_view (start_tick_timer_if_needed w) = hint_view w.
Proof.
  intros Ha. expose w. cbn [active state] in Ha.
  enum act 4%nat; destruct pw, lim, tt as [[? ? ?]|], ot as [[? ? ?]|]; reflexivity.
Qed.

Lemma show_hint_pending w :
  timer_wf CbHint FuriTimerTypeOnce (state w) ->
  hint_view (show_hint w) = (true, hint_pending).
Proof.
  intros H. expose w. unfold timer_wf in H. cbn [timer_slot state hint_timer] in H.
  destruct ht as [[ty cb d]|].
  - cbn [t_cb t_type] in H. destruct H as [-> ->]. reflexivity.
  - reflexivity.
Qed.

Ltac hint_results Ha Hw :=
  repeat match goal with
  | |- context [enter_safe_menu ?x] =>
      name_result (enter_safe_menu_hint x) (enter_safe_menu x)
  | |- context [enter_powered_menu_standby ?x] =>
      name_result (enter_powered_menu_standby_hint x) (enter_powered_menu_standby x)
  | |- context [show_hint ?x] =>
      name_result (show_hint_pending x Hw) (show_hint x)
  | |- context [stop_timers ?x] =>
      name_result (stop_timers_hint x) (stop_timers x)
  | |- context [start_tick_timer_if_needed ?x] =>
      name_result (start_tick_timer_if_needed_hint x Ha) (start_tick_timer_if_needed x)
  | |- context [apply_mode ?i ?x] =>
      let Hi := fresh "Hi" in
      assert (Hi : 0 <= i < 4) by (change MODE_COUNT with 4 in *; lia);
      name_result (apply_mode_hint i x Hi) (apply_mode i x)
  end.

Ltac hint_done :=
  unfold HintInv, hint_view in *; push_state;
  repeat match goal with
         | E : (_, _) = (_, _) |- _ => injection E as ? ?
         end;
  repeat match goal with
         | |- context [hint_visible (state ?w)] => gen (hint_visible (state w))
         | H : context [hint_visible (state ?w)] |- _ => gen (hint_visible (state w))
         | |- context [hint_timer (state ?w)] => gen (hint_timer (state w))
         | H : context [hint_timer (state ?w)] |- _ => gen (hint_timer (state w))
         end;
  subst; intros;
  first [ assumption | reflexivity | congruence | solve [ auto ] ].

Lemma handle_input_hint ev c w :
  Inv w -> HintInv w -> HintInv (handle_input ev c w).
Proof.
  intros H H0. pose proof (inv_cursor _ H) as Hc. pose proof (inv_active _ H) as Ha.
  pose proof (inv_hint_wf _ H) as Hw.
  change MODE_COUNT with 4 in Ha. clear H.
  unfold cursor_ok, selectable in Hc.
  unfold handle_input. destruct (screen (state w)) eqn:Es; destruct ev as [ty k];
    destruct ty, k;
    cbv beta iota zeta delta
        [input_select_inverter input_menu input_help input_settings type key
         settings_select_inverter when and_then];
    repeat split_if;
    hint_results Ha Hw; clear Ha Hw; hint_done.
Qed.

Lemma consume_timeout_hint w : HintInv w -> HintInv (consume_timeout w).
Proof.
  intros H0. unfold consume_timeout, when.
  destruct (timeout_expired (state w)); [ | exact H0 ].
  cbv beta delta [and_then].
  refine (hint_ext w _ _ H0).
  rewrite enter_powered_menu_standby_hint. reflexivity.
Qed.

Lemma fire_hint cb w w' : Inv w -> fire cb w = Some w' -> HintInv w -> HintInv w'.
Proof.
  intros H Hf H0. pose proof (inv_hint_wf _ H) as Hw. clear H.
  unfold fire in Hf. unfold timer_wf in Hw.
  destruct cb.
  - (* the LED slot *)
    destruct (timer_slot CbLed (state w)) as [[ty tcb [d|]]|] eqn:Et; try discriminate.
    cbn [t_armed t_type t_cb] in Hf. injection Hf as <-. clear Et Hw.
    unfold HintInv in *. expose w. cbn [state hint_visible hint_timer] in *.
    destruct ty, tcb, lo, nt;
      cbv beta iota delta [and_then skip run_callback tick_timer_cb];
      try match goal with |- context [if ?b then _ else _] => destruct b end;
      first [ exact H0 | discriminate ].
  - (* the hint slot *)
    destruct (timer_slot CbHint (state w)) as [[ty tcb [d|]]|] eqn:Et; try discriminate.
    cbn [t_armed t_type t_cb] in Hf, Hw. injection Hf as <-. destruct Hw as [-> ->].
    clear. unfold HintInv. expose w. cbn. discriminate.
  - (* the tick slot *)
    destruct (timer_slot CbTick (state w)) as [[ty tcb [d|]]|] eqn:Et; try discriminate.
    cbn [t_armed t_type t_cb] in Hf. injection Hf as <-. clear Et Hw.
    unfold HintInv in *. expose w. cbn [state hint_visible hint_timer] in *.
    destruct ty, tcb, lo, nt;
      cbv beta iota delta [and_then skip run_callback tick_timer_cb];
      try match goal with |- context [if ?b then _ else _] => destruct b end;
      first [ exact H0 | discriminate ].
  - (* the expiry slot *)
    destruct (timer_slot CbOff (state w)) as [[ty tcb [d|]]|] eqn:Et; try discriminate.
    cbn [t_armed t_type t_cb] in Hf. injection Hf as <-. clear Et Hw.
    unfold HintInv in *. expose w. cbn [state hint_visible hint_timer] in *.
    destruct ty, tcb, lo, nt;
      cbv beta iota delta [and_then skip run_callback tick_timer_cb];
      try match goal with |- context [if ?b then _ else _] => destruct b end;
      first [ exact H0 | discriminate ].
Qed.

Lemma step_hint st l l' :
  Inv (world l) -> HintInv (world l) -> step st l = Some l' -> HintInv (world l').
Proof.
  intros H H0 Hs. destruct l as [w ph]. cbn [world] in *. unfold step in Hs.
  cbn [world phase] in Hs.
  destruct st as [ | ev c | | cb ].
  - destruct ph; inversion Hs; subst; cbn [world]. apply consume_timeout_hint; assumption.
  - destruct ph; try discriminate. destruct (is_long_back ev); inversion Hs; subst.
    cbn [world]. apply handle_input_hint; assumption.
  - destruct ph; inversion Hs; subst; exact H0.
  - destruct (fire cb w) as [w'|] eqn:Ef; inversion Hs; subst; cbn [world].
    eapply fire_hint; eassumption.
Qed.

Lemma run_hint tr :
  forall l l', Inv (world l) -> HintInv (world l) -> run tr l = Some l' ->
               HintInv (world l').
Proof.
  induction tr as [ | st tr IH ]; intros l l' H H0 Hr; cbn [run] in Hr.
  - inversion Hr; subst; exact H0.
  - destruct (step st l) as [l1|] eqn:Es; [ | discriminate ].
    eapply IH; [ eapply step_inv | eapply step_hint | ]; eassumption.
Qed.

Lemma hint_init : HintInv init_world.
Proof. unfold HintInv. cbn. discriminate. Qed.

(** X16. In every state the running application passes through, a
    visible hint ribbon has its one-shot timer running with a delay of
    1500 ms, and the firing of that timer hides the ribbon and leaves the
    timer stopped: a hint never stays on screen for good. *)
Theorem hint_always_expires (l : Loop) :
  Reachable l ->
  hint_visible (state (world l)) = true ->
  hint_timer (state (world l)) = hint_pending /\
  exists w', fire CbHint (world l) = Some w' /\
             hint_visible (state w') = false /\
             timer_armed CbHint (state w') = false.
Proof.
  intros [tr Hr] Hv.
  pose proof (run_hint tr init_loop l inv_init hint_init Hr Hv) as Ht.
  split; [ exact Ht | ].
  unfold fire. cbn [timer_slot]. rewrite Ht. cbn [hint_pending t_armed t_type t_cb].
  eexists. split; [ reflexivity | ]. split; reflexivity.
Qed.

Lemma hint_always_expires_witness :
  let l := Build_Loop (world_after (press InputKeyBack false)) AtLoopHead in
  Reachable l /\ hint_visible (state (world l)) = true /\
  hint_timer (state (world l)) = hint_pending.
Proof.
  cbv zeta.
  assert (Hr : Reachable (Build_Loop (world_after (press InputKeyBack false)) AtLoopHead)).
  { exists (press InputKeyBack false). vm_compute. reflexivity. }
  assert (Hv : hint_visible
                 (state (world (Build_Loop (world_after (press InputKeyBack false))
                                           AtLoopHead))) = true)
    by (vm_compute; reflexivity).
  split; [ exact Hr | split; [ exact Hv | ] ].
  exact (proj1 (hint_always_expires _ Hr Hv)).
Defined.
